(** * Tulip: personas, compose identity selection, whisper pills and bot
    interactions

    A shallow embedding of the client-side persona code of the Tulip fork
    ([web/src/personas.ts], [web/src/compose_persona.ts], the whisper
    recipient pill modules, the persona picker and the message box of the
    theater) together with models of the server-side pieces the end-to-end
    tests exercise. *)

From Stdlib Require Import ZArith Lia.
From stdpp Require Import gmap strings list pretty.

Local Open Scope Z_scope.

(** ** Data shared by the persona modules *)

(** [MyPersona] of [personas.ts]: one of the current user's own personas. *)
Record MyPersona : Type := mkMyPersona {
  id : Z;
  name : string;
  avatar_url : option string;
  color : option string;
  bio : string;
  is_active : bool;
  date_created : Z;
}.

(** The argument of [handle_persona_event]:
    [{op: string; persona?: MyPersona; persona_id?: number}]. *)
Record PersonaEvent : Type := mkPersonaEvent {
  op : string;
  persona : option MyPersona;
  persona_id : option Z;
}.

(** What a deferred callback does once it runs.  The closures handed to
    [fetch_my_personas] in the sources are [() => update_for_stream(stream_id)]
    (compose box) and [populate_list] (settings panel). *)
Inductive Continuation : Type :=
  | KUpdateForStream (stream_id : Z)
  | KPopulateList.

(** Members of the [change_callbacks] set.  Function objects are compared by
    identity: the two module-level [on_personas_changed] functions are single
    objects, every one-time wrapper made by [fetch_my_personas] is a fresh
    closure (told apart here by a serial number). *)
Inductive Callback : Type :=
  | ComposeOnPersonasChanged
  | SettingsOnPersonasChanged
  | OneTime (serial : nat) (k : Continuation).

(** What [update_selector_display] paints on the selector button: either the
    "Yourself" face or the face of a persona (avatar or initial, name, colour,
    and the [using-persona] class). *)
Inductive SelectorButton : Type :=
  | ButtonYourself
  | ButtonPersona (p : MyPersona).

(** The mutable state the two modules share: the module-level variables of
    [personas.ts], the stream the compose box targets
    ([compose_state.stream_id()]), and the two facts about
    [#compose-persona-selector] in the page that the code changes. *)
Record State : Type := mkState {
  my_personas : list MyPersona;
  my_personas_fetched : bool;
  my_personas_pending : bool;
  (* callback captured by the request that is in flight *)
  my_personas_request : option Continuation;
  realm_personas_fetched : bool;
  compose_persona_by_stream : gmap Z (option Z);
  current_compose_persona_id : option Z;
  change_callbacks : list Callback;
  next_serial : nat;
  compose_stream_id : option Z;
  selector_visible : bool;
  selector_button : SelectorButton;
}.

#[global] Instance Continuation_eq_dec : EqDecision Continuation.
Proof. solve_decision. Defined.

#[global] Instance Callback_eq_dec : EqDecision Callback.
Proof. solve_decision. Defined.

Definition with_my_personas (l : list MyPersona) (st : State) : State :=
  mkState l (my_personas_fetched st) (my_personas_pending st)
    (my_personas_request st) (realm_personas_fetched st)
    (compose_persona_by_stream st) (current_compose_persona_id st)
    (change_callbacks st) (next_serial st) (compose_stream_id st)
    (selector_visible st) (selector_button st).

Definition with_fetch_flags (fetched pending : bool)
    (req : option Continuation) (st : State) : State :=
  mkState (my_personas st) fetched pending req (realm_personas_fetched st)
    (compose_persona_by_stream st) (current_compose_persona_id st)
    (change_callbacks st) (next_serial st) (compose_stream_id st)
    (selector_visible st) (selector_button st).

Definition with_realm_personas_fetched (b : bool) (st : State) : State :=
  mkState (my_personas st) (my_personas_fetched st) (my_personas_pending st)
    (my_personas_request st) b
    (compose_persona_by_stream st) (current_compose_persona_id st)
    (change_callbacks st) (next_serial st) (compose_stream_id st)
    (selector_visible st) (selector_button st).

Definition with_compose_persona_by_stream (m : gmap Z (option Z))
    (st : State) : State :=
  mkState (my_personas st) (my_personas_fetched st) (my_personas_pending st)
    (my_personas_request st) (realm_personas_fetched st)
    m (current_compose_persona_id st)
    (change_callbacks st) (next_serial st) (compose_stream_id st)
    (selector_visible st) (selector_button st).

Definition with_current_compose_persona_id (p : option Z) (st : State) : State :=
  mkState (my_personas st) (my_personas_fetched st) (my_personas_pending st)
    (my_personas_request st) (realm_personas_fetched st)
    (compose_persona_by_stream st) p
    (change_callbacks st) (next_serial st) (compose_stream_id st)
    (selector_visible st) (selector_button st).

Definition with_change_callbacks (cbs : list Callback) (n : nat)
    (st : State) : State :=
  mkState (my_personas st) (my_personas_fetched st) (my_personas_pending st)
    (my_personas_request st) (realm_personas_fetched st)
    (compose_persona_by_stream st) (current_compose_persona_id st)
    cbs n (compose_stream_id st)
    (selector_visible st) (selector_button st).

Definition with_selector_visible (b : bool) (st : State) : State :=
  mkState (my_personas st) (my_personas_fetched st) (my_personas_pending st)
    (my_personas_request st) (realm_personas_fetched st)
    (compose_persona_by_stream st) (current_compose_persona_id st)
    (change_callbacks st) (next_serial st) (compose_stream_id st)
    b (selector_button st).

Definition with_selector_button (b : SelectorButton) (st : State) : State :=
  mkState (my_personas st) (my_personas_fetched st) (my_personas_pending st)
    (my_personas_request st) (realm_personas_fetched st)
    (compose_persona_by_stream st) (current_compose_persona_id st)
    (change_callbacks st) (next_serial st) (compose_stream_id st)
    (selector_visible st) b.

(** The state right after the modules are loaded: empty caches, nothing
    selected, no callback registered.  The compose target and the page are
    whatever the rest of the application made them. *)
Definition initial_state (stream : option Z) (visible : bool)
    (button : SelectorButton) : State :=
  mkState [] false false None false ∅ None [] 0%nat stream visible button.

(** [Array.prototype.find] and [findIndex] with the predicate
    [(p) => p.id === wanted]. *)
Fixpoint find_by_id (wanted : Z) (l : list MyPersona) : option MyPersona :=
  match l with
  | [] => None
  | p :: rest => if decide (id p = wanted) then Some p else find_by_id wanted rest
  end.

Fixpoint findIndex_by_id (wanted : Z) (l : list MyPersona) : option nat :=
  match l with
  | [] => None
  | p :: rest =>
      if decide (id p = wanted) then Some 0%nat
      else S <$> findIndex_by_id wanted rest
  end.

(** ** [web/src/personas.ts] *)
Module personas.

Definition register_change_callback (cb : Callback) (st : State) : State :=
  if decide (cb ∈ change_callbacks st) then st
  else with_change_callbacks (change_callbacks st ++ [cb]) (next_serial st) st.

Definition unregister_change_callback (cb : Callback) (st : State) : State :=
  with_change_callbacks
    (filter (λ c, c ≠ cb) (change_callbacks st)) (next_serial st) st.

Definition get_my_personas (st : State) : list MyPersona := my_personas st.

Definition has_fetched_my_personas (st : State) : bool :=
  my_personas_fetched st.

Definition get_compose_persona_id (st : State) : option Z :=
  current_compose_persona_id st.

Definition set_compose_persona_id (persona_id : option Z)
    (stream_id : option Z) (st : State) : State :=
  let st := with_current_compose_persona_id persona_id st in
  match stream_id with
  | Some s =>
      with_compose_persona_by_stream
        (<[s := persona_id]> (compose_persona_by_stream st)) st
  | None => st
  end.

(** [compose_persona_by_stream.get(stream_id) ?? null] *)
Definition get_sticky_persona_for_stream (stream_id : Z) (st : State)
    : option Z :=
  match compose_persona_by_stream st !! stream_id with
  | Some v => v
  | None => None
  end.

(** A run of [set_compose_persona_id] calls, oldest first: each entry is the
    pair of arguments [(persona_id, stream_id)]. *)
Definition set_calls (calls : list (option Z * option Z)) (st : State) : State :=
  foldl (λ st call, set_compose_persona_id call.1 call.2 st) st calls.

Definition clear_cache (st : State) : State :=
  mkState [] false (my_personas_pending st) (my_personas_request st) false
    ∅ None (change_callbacks st) (next_serial st) (compose_stream_id st)
    (selector_visible st) (selector_button st).

(** JavaScript truthiness of the optional event fields: an object is truthy
    when present, a number when present and not zero. *)
Definition truthy_persona (p : option MyPersona) : bool :=
  match p with Some _ => true | None => false end.

Definition truthy_number (n : option Z) : bool :=
  match n with Some z => negb (z =? 0) | None => false end.

(** The functions below call back into other modules.  A call that does
    not return normally (it throws, or the recursion never ends) has no
    result: [None].  [run_continuation] and [run_callback] say what the
    stored closures do when they are called. *)
Section Callbacks.
Variable run_continuation : Continuation → State → option State.
Variable run_callback : Callback → State → option State.

Definition call_optional (callback : option Continuation) (st : State)
    : option State :=
  match callback with
  | Some k => run_continuation k st
  | None => Some st
  end.

(** [for (const callback of change_callbacks) callback();]
    Iterating a [Set] is live: a callback removed before its turn is
    skipped and one added during the loop is still visited.  [todo] holds
    the members not yet visited, in insertion order. *)
Fixpoint notify_loop (fuel : nat) (todo : list Callback) (st : State)
    : option State :=
  match todo with
  | [] => Some st
  | cb :: rest =>
      match fuel with
      | O => None
      | S fuel =>
          st' ← run_callback cb st;
          let before := change_callbacks st in
          let after := change_callbacks st' in
          let kept := filter (λ c, c ∈ after) rest in
          let added := filter (λ c, c ∉ before) after in
          notify_loop fuel (kept ++ added) st'
      end
  end.

Definition notify_change (fuel : nat) (st : State) : option State :=
  notify_loop fuel (change_callbacks st) st.

Definition fetch_my_personas (callback : option Continuation) (st : State)
    : option State :=
  if my_personas_fetched st then call_optional callback st
  else if my_personas_pending st then
    (* If already pending, register a one-time callback *)
    match callback with
    | Some k =>
        let one_time_callback := OneTime (next_serial st) k in
        Some (register_change_callback one_time_callback
                (with_change_callbacks (change_callbacks st)
                   (S (next_serial st)) st))
    | None => Some st
    end
  else
    (* my_personas_pending = true; the request is sent *)
    Some (with_fetch_flags (my_personas_fetched st) true callback st).

(** The [success] and [error] handlers of the request. *)
Definition fetch_my_personas_success (fuel : nat) (data : list MyPersona)
    (st : State) : option State :=
  let callback := my_personas_request st in
  let st := with_fetch_flags true false None (with_my_personas data st) in
  st ← call_optional callback st;
  notify_change fuel st.

Definition fetch_my_personas_error (st : State) : option State :=
  let callback := my_personas_request st in
  let st := with_fetch_flags true false None (with_my_personas [] st) in
  call_optional callback st.

Definition mark_realm_personas_stale (st : State) : State :=
  if realm_personas_fetched st then with_realm_personas_fetched false st
  else st.

Definition handle_persona_event (fuel : nat) (event : PersonaEvent)
    (st : State) : option State :=
  if bool_decide (op event = "add") && truthy_persona (persona event) then
    match persona event with
    | Some p =>
        let st := with_my_personas (my_personas st ++ [p]) st in
        let st := mark_realm_personas_stale st in
        notify_change fuel st
    | None => Some st
    end
  else if bool_decide (op event = "update") && truthy_persona (persona event) then
    match persona event with
    | Some p =>
        let st :=
          match findIndex_by_id (id p) (my_personas st) with
          | Some index => with_my_personas (<[index := p]> (my_personas st)) st
          | None => st
          end in
        let st := mark_realm_personas_stale st in
        notify_change fuel st
    | None => Some st
    end
  else if bool_decide (op event = "remove") && truthy_number (persona_id event) then
    match persona_id event with
    | Some removed =>
        let st :=
          with_my_personas
            (filter (λ p, id p ≠ removed) (my_personas st)) st in
        (* Clear compose selection if this persona was selected *)
        let st :=
          if decide (current_compose_persona_id st = Some removed)
          then with_current_compose_persona_id None st
          else st in
        let st := mark_realm_personas_stale st in
        notify_change fuel st
    | None => Some st
    end
  else Some st.
End Callbacks.

End personas.

(** ** [web/src/compose_persona.ts] *)
Module compose_persona.

Definition get_current_persona_id (st : State) : option Z :=
  personas.get_compose_persona_id st.

(** [set_current_persona_id] and [update_selector_display] call each
    other; [fuel] bounds the depth of the calls. *)
Fixpoint set_current_persona_id (fuel : nat) (persona_id : option Z)
    (st : State) {struct fuel} : option State :=
  match fuel with
  | O => None
  | S fuel =>
      (* Update the sticky selection for the current stream *)
      let stream_id := compose_stream_id st in
      let st := personas.set_compose_persona_id persona_id stream_id st in
      update_selector_display fuel st
  end
with update_selector_display (fuel : nat) (st : State) {struct fuel}
    : option State :=
  match fuel with
  | O => None
  | S fuel =>
      match personas.get_compose_persona_id st with
      | None =>
          (* Posting as yourself *)
          Some (with_selector_button ButtonYourself st)
      | Some current_persona_id =>
          (* Posting as a persona *)
          match find_by_id current_persona_id (personas.get_my_personas st) with
          | Some persona => Some (with_selector_button (ButtonPersona persona) st)
          | None =>
              (* Persona no longer exists, reset to yourself *)
              set_current_persona_id fuel None st
          end
      end
  end.

Definition show_selector (st : State) : State := with_selector_visible true st.

Definition hide_selector (st : State) : State := with_selector_visible false st.

Fixpoint update_for_stream (fuel : nat) (stream_id : option Z) (st : State)
    {struct fuel} : option State :=
  match fuel with
  | O => None
  | S fuel =>
      match stream_id with
      | None =>
          (* DM - always show selector if user has personas *)
          if bool_decide (0 < length (personas.get_my_personas st))%nat
          then Some (show_selector st)
          else Some (hide_selector st)
      | Some sid =>
          if negb (personas.has_fetched_my_personas st) then
            personas.fetch_my_personas
              (λ k st,
                 match k with
                 | KUpdateForStream s => update_for_stream fuel (Some s) st
                 | KPopulateList => Some st
                 end)
              (Some (KUpdateForStream sid)) st
          else if bool_decide (length (personas.get_my_personas st) = 0%nat) then
            Some (hide_selector st)
          else
            let st := show_selector st in
            (* Restore sticky selection for this stream *)
            let st :=
              match personas.get_sticky_persona_for_stream sid st with
              | Some sticky_persona =>
                  personas.set_compose_persona_id (Some sticky_persona) (Some sid) st
              | None => st
              end in
            update_selector_display fuel st
      end
  end.

(** What the stored closures do.  [populate_list] of the settings panel
    only redraws the table of characters, which is not part of [State]. *)
Definition run_continuation (fuel : nat) (k : Continuation) (st : State)
    : option State :=
  match k with
  | KUpdateForStream s => update_for_stream fuel (Some s) st
  | KPopulateList => Some st
  end.

Definition on_personas_changed (fuel : nat) (st : State) : option State :=
  (* Update the selector display in case the selected persona was modified
     or deleted *)
  st ← update_selector_display fuel st;
  (* Also update visibility based on whether user now has any personas *)
  let stream_id := compose_stream_id st in
  update_for_stream fuel stream_id st.

Definition run_callback (fuel : nat) (cb : Callback) (st : State)
    : option State :=
  match cb with
  | ComposeOnPersonasChanged => on_personas_changed fuel st
  | SettingsOnPersonasChanged => Some st
  | OneTime _ k =>
      st ← run_continuation fuel k st;
      Some (personas.unregister_change_callback cb st)
  end.

Definition cycle_persona (fuel : nat) (st : State) : option State :=
  (* Cycle through personas: Yourself -> Persona 1 -> Persona 2 -> ... -> Yourself *)
  let my_personas := personas.get_my_personas st in
  match my_personas with
  | [] => Some st
  | first :: _ =>
      match personas.get_compose_persona_id st with
      | None =>
          (* Currently Yourself, switch to first persona *)
          set_current_persona_id fuel (Some (id first)) st
      | Some current_persona_id =>
          (* Find current index and move to next *)
          match findIndex_by_id current_persona_id my_personas with
          | None => set_current_persona_id fuel None st
          | Some current_index =>
              if decide (current_index = (length my_personas - 1)%nat) then
                (* at last persona, go back to Yourself *)
                set_current_persona_id fuel None st
              else
                (* Move to next persona *)
                match my_personas !! (current_index + 1)%nat with
                | Some next => set_current_persona_id fuel (Some (id next)) st
                | None => None
                end
          end
      end
  end.

Definition initialize (st : State) : option State :=
  let st := personas.register_change_callback ComposeOnPersonasChanged st in
  personas.fetch_my_personas (λ _ st, Some st) None st.

(** The [narrow_changed.zulip] handler installed by [initialize]. *)
Definition on_narrow_changed (fuel : nat) (st : State) : option State :=
  update_for_stream fuel (compose_stream_id st) st.

(** The entry points of [personas.ts] with the closures interpreted. *)
Definition notify_change (fuel : nat) (st : State) : option State :=
  personas.notify_change (run_callback fuel) fuel st.

Definition handle_persona_event (fuel : nat) (event : PersonaEvent)
    (st : State) : option State :=
  personas.handle_persona_event (run_callback fuel) fuel event st.

Definition fetch_my_personas_success (fuel : nat) (data : list MyPersona)
    (st : State) : option State :=
  personas.fetch_my_personas_success (run_continuation fuel)
    (run_callback fuel) fuel data st.

(** [cycle_persona] called [times] times in a row. *)
Fixpoint cycle_persona_n (fuel : nat) (times : nat) (st : State)
    : option State :=
  match times with
  | O => Some st
  | S times => st ← cycle_persona fuel st; cycle_persona_n fuel times st
  end.

(** The identities in the order the comment of [cycle_persona] gives:
    Yourself, then the personas as listed. *)
Definition cycle_order (l : list MyPersona) : list (option Z) :=
  None :: ((λ p, Some (id p)) <$> l).

(** The compose selection is either Yourself or names a listed persona. *)
Definition selection_ok (st : State) : bool :=
  match current_compose_persona_id st with
  | None => true
  | Some c =>
      match find_by_id c (my_personas st) with
      | Some _ => true
      | None => false
      end
  end.

(** What the display and visibility updates leave alone. *)
Definition same_caches (st st' : State) : Prop :=
  my_personas st' = my_personas st
  ∧ my_personas_fetched st' = my_personas_fetched st
  ∧ change_callbacks st' = change_callbacks st
  ∧ compose_stream_id st' = compose_stream_id st.

(** Callbacks that are module-level functions (not one-time wrappers). *)
Definition module_callback (cb : Callback) : Prop :=
  cb = ComposeOnPersonasChanged ∨ cb = SettingsOnPersonasChanged.

(** Nothing is selected, and restoring the sticky selection of the compose
    stream cannot bring a listed persona back. *)
Definition selection_cleared (st : State) : Prop :=
  current_compose_persona_id st = None
  ∧ ∀ sid q,
      compose_stream_id st = Some sid →
      personas.get_sticky_persona_for_stream sid st = Some q →
      find_by_id q (my_personas st) = None.

Definition remove_event (removed : Z) : PersonaEvent :=
  mkPersonaEvent "remove" None (Some removed).

(** Sample data: two personas, and a compose box on stream 5 whose
    selection (persona 1) is not in the list [[frodo]]. *)
Definition gandalf : MyPersona :=
  mkMyPersona 1 "Gandalf the White" None (Some "#5e35b1") "" true 1700000000.

Definition frodo : MyPersona :=
  mkMyPersona 2 "Frodo Baggins" None (Some "#4caf50") "" true 1700000100.

Definition gandalf_the_grey : MyPersona :=
  mkMyPersona 1 "Gandalf the Grey" None None "" true 1700000200.

Definition sample_state (l : list MyPersona) (selected : option Z) : State :=
  mkState l true false None false {[ 5 := selected ]} selected
    [ComposeOnPersonasChanged; SettingsOnPersonasChanged] 0%nat (Some 5)
    true ButtonYourself.

(** Frodo (2) was picked on stream 5 and Gandalf (1) on stream 6, and the
    compose box points at stream 5 again with Gandalf still selected (the
    stream was changed in the compose box, which does not run the
    [narrow_changed.zulip] handler). *)
Definition back_on_stream_state : State :=
  mkState [gandalf; frodo] true false None false
    {[ 5 := Some 2; 6 := Some 1 ]} (Some 1)
    [ComposeOnPersonasChanged; SettingsOnPersonasChanged] 0%nat (Some 5)
    true (ButtonPersona gandalf).

End compose_persona.

(** ** Whisper recipient pills

    The two versions of the whisper recipient pill module: the one that knows
    about puppets and the plain user/group one.  The modules they call
    ([input_pill.ts], [user_pill.ts], [user_group_pill.ts], [people.ts],
    [user_groups.ts], [stream_puppets.ts]) are not among the sources: the
    pill container is a type [W] of which nothing is assumed, and what those
    modules do is given by the fields of [Env]. *)
Module whisper.

Record User : Type := mkUser {
  user_id : Z;
  user_full_name : string;
}.

Record UserGroup : Type := mkUserGroup {
  group_id : Z;
  group_name : string;
}.

Record StreamPuppet : Type := mkStreamPuppet {
  puppet_id : Z;
  puppet_name : string;
  puppet_avatar_url : option string;
}.

(** [CombinedPill]: a pill of type "user" or "user_group". *)
Inductive CombinedPill : Type :=
  | UserPill (person : User)
  | UserGroupPill (group : UserGroup).

(** [WhisperPill = CombinedPill | PuppetPill]. *)
Inductive WhisperPill : Type :=
  | Combined (pill : CombinedPill)
  | PuppetPill (puppet_id : Z) (puppet_name : string).

Record Env (W : Type) : Type := mkEnv {
  (* the container: widget.clear(), widget.appendValidatedData(item),
     widget.items() *)
  widget_clear : W → W;
  appendValidatedData : WhisperPill → W → W;
  items : W → list WhisperPill;
  (* user_pill.append_person({pill_widget, person}) *)
  append_person : User → W → W;
  (* user_group_pill.append_user_group(group, pill_widget) *)
  append_user_group : UserGroup → W → W;
  (* user_pill.get_user_ids(pill_widget) *)
  pill_user_ids : W → list Z;
  (* user_group_pill.get_group_ids(pill_widget) *)
  pill_group_ids : W → list Z;
  (* people.maybe_get_user_by_id *)
  maybe_get_user_by_id : Z → option User;
  (* user_groups.maybe_get_user_group_from_id *)
  maybe_get_user_group_from_id : Z → option UserGroup;
  (* stream_puppets.get_puppets_for_stream *)
  get_puppets_for_stream : Z → list StreamPuppet;
  (* user_group_pill.create_item_from_group_name(text, current_items) *)
  create_item_from_group_name : string → list WhisperPill → option CombinedPill;
  (* user_pill.create_item_from_user_id(text, current_items) *)
  create_item_from_user_id : string → list WhisperPill → option CombinedPill;
  (* String.prototype.toLowerCase *)
  toLowerCase : string → string;
}.

Arguments widget_clear {W} _ _.
Arguments appendValidatedData {W} _ _ _.
Arguments items {W} _ _.
Arguments append_person {W} _ _ _.
Arguments append_user_group {W} _ _ _.
Arguments pill_user_ids {W} _ _.
Arguments pill_group_ids {W} _ _.
Arguments maybe_get_user_by_id {W} _ _.
Arguments maybe_get_user_group_from_id {W} _ _.
Arguments get_puppets_for_stream {W} _ _.
Arguments create_item_from_group_name {W} _ _ _.
Arguments create_item_from_user_id {W} _ _ _.
Arguments toLowerCase {W} _ _.

(** [Array.prototype.find] on the puppets of a stream. *)
Fixpoint find_puppet (P : StreamPuppet → bool) (l : list StreamPuppet)
    : option StreamPuppet :=
  match l with
  | [] => None
  | p :: rest => if P p then Some p else find_puppet P rest
  end.

(** The loops [for (const user_id of user_ids)] and
    [for (const group_id of group_ids)], which both modules have: the pill
    of each id that is known is appended, an unknown id is skipped. *)
Definition append_known_users {W} (env : Env W) (user_ids : list Z) (w : W)
    : W :=
  foldl (λ w user_id,
           match maybe_get_user_by_id env user_id with
           | Some person => append_person env person w
           | None => w
           end) w user_ids.

Definition append_known_groups {W} (env : Env W) (group_ids : list Z) (w : W)
    : W :=
  foldl (λ w group_id,
           match maybe_get_user_group_from_id env group_id with
           | Some group => append_user_group env group w
           | None => w
           end) w group_ids.

End whisper.

(** *** The puppet-aware module *)
Module whisper_puppets.
Import whisper.

(** Module variables [widget] and [current_stream_id], and the whisper
    recipients that [compose_state.set_whisper_recipients] is given. *)
Record State (W : Type) : Type := mkState {
  widget : option W;
  current_stream_id : option Z;
  whisper_user_ids : list Z;
  whisper_group_ids : list Z;
  whisper_puppet_ids : list Z;
}.

Arguments mkState {W} _ _ _ _ _.
Arguments widget {W} _.
Arguments current_stream_id {W} _.
Arguments whisper_user_ids {W} _.
Arguments whisper_group_ids {W} _.
Arguments whisper_puppet_ids {W} _.

Definition with_widget {W} (w : option W) (st : State W) : State W :=
  mkState w (current_stream_id st) (whisper_user_ids st)
    (whisper_group_ids st) (whisper_puppet_ids st).

(** [compose_state.set_whisper_recipients(user_ids, group_ids, puppet_ids)] *)
Definition set_whisper_recipients {W} (user_ids group_ids puppet_ids : list Z)
    (st : State W) : State W :=
  mkState (widget st) (current_stream_id st) user_ids group_ids puppet_ids.

Definition set_current_stream_id {W} (stream_id : option Z) (st : State W)
    : State W :=
  mkState (widget st) stream_id (whisper_user_ids st)
    (whisper_group_ids st) (whisper_puppet_ids st).

Definition create_item_from_text {W} (env : Env W) (st : State W)
    (text : string) (current_items : list WhisperPill) : option WhisperPill :=
  let try_users_and_groups :=
    match create_item_from_group_name env text current_items with
    | Some item => Some (Combined item)
    | None =>
        match create_item_from_user_id env text current_items with
        | Some item => Some (Combined item)
        | None => None
        end
    end in
  (* Try puppets first (if we have a stream context) *)
  match current_stream_id st with
  | Some stream_id =>
      let puppets := get_puppets_for_stream env stream_id in
      match find_puppet
              (λ p, bool_decide (toLowerCase env (puppet_name p)
                                 = toLowerCase env text)) puppets with
      | Some puppet =>
          let already_added :=
            existsb (λ item, match item with
                             | PuppetPill pid _ =>
                                 bool_decide (pid = puppet_id puppet)
                             | Combined _ => false
                             end) current_items in
          if already_added then try_users_and_groups
          else Some (PuppetPill (puppet_id puppet) (puppet_name puppet))
      | None => try_users_and_groups
      end
  | None => try_users_and_groups
  end.

Definition get_puppet_ids {W} (env : Env W) (st : State W) : list Z :=
  match widget st with
  | None => []
  | Some w =>
      omap (λ item, match item with
                    | PuppetPill pid _ => Some pid
                    | Combined _ => None
                    end) (items env w)
  end.

Definition get_user_ids {W} (env : Env W) (st : State W) : list Z :=
  match widget st with
  | None => []
  | Some w => pill_user_ids env w
  end.

Definition get_group_ids {W} (env : Env W) (st : State W) : list Z :=
  match widget st with
  | None => []
  | Some w => pill_group_ids env w
  end.

Definition update_compose_state {W} (env : Env W) (st : State W) : State W :=
  match widget st with
  | None => st
  | Some _ =>
      set_whisper_recipients (get_user_ids env st) (get_group_ids env st)
        (get_puppet_ids env st) st
  end.

Definition clear {W} (env : Env W) (st : State W) : State W :=
  let st := match widget st with
            | Some w => with_widget (Some (widget_clear env w)) st
            | None => st
            end in
  set_whisper_recipients [] [] [] st.

Definition has_recipients {W} (env : Env W) (st : State W) : bool :=
  match widget st with
  | None => false
  | Some w => bool_decide (0 < length (items env w))%nat
  end.

Definition set_from_user_ids {W} (env : Env W) (user_ids : list Z)
    (st : State W) : State W :=
  match widget st with
  | None => st
  | Some w => with_widget (Some (append_known_users env user_ids w)) st
  end.

Definition set_from_group_ids {W} (env : Env W) (group_ids : list Z)
    (st : State W) : State W :=
  match widget st with
  | None => st
  | Some w => with_widget (Some (append_known_groups env group_ids w)) st
  end.

Definition set_from_puppet_ids {W} (env : Env W) (puppet_ids : list Z)
    (st : State W) : State W :=
  match widget st, current_stream_id st with
  | Some w, Some stream_id =>
      let puppets := get_puppets_for_stream env stream_id in
      with_widget
        (Some
           (foldl (λ w pid,
                     match find_puppet (λ p, bool_decide (puppet_id p = pid))
                             puppets with
                     | Some puppet =>
                         appendValidatedData env
                           (PuppetPill (puppet_id puppet) (puppet_name puppet))
                           w
                     | None => w
                     end) w puppet_ids)) st
  | _, _ => st
  end.

Definition set_from_all_ids {W} (env : Env W)
    (user_ids group_ids puppet_ids : list Z) (st : State W) : State W :=
  match widget st with
  | None => st
  | Some w =>
      (* Clear existing pills first *)
      let st := with_widget (Some (widget_clear env w)) st in
      (* Add users *)
      let st := set_from_user_ids env user_ids st in
      (* Add groups *)
      let st := set_from_group_ids env group_ids st in
      (* Add puppets *)
      let st := set_from_puppet_ids env puppet_ids st in
      (* Update compose state *)
      set_whisper_recipients user_ids group_ids puppet_ids st
  end.

(** Backward compatibility alias *)
Definition set_from_user_and_group_ids {W} (env : Env W)
    (user_ids group_ids : list Z) (st : State W) : State W :=
  set_from_all_ids env user_ids group_ids [] st.

End whisper_puppets.

(** *** The plain user/group module *)
Module whisper_plain.
Import whisper.

(** Module variable [widget] and the whisper recipients that
    [compose_state.set_whisper_recipients], which takes no puppets here, is
    given. *)
Record State (W : Type) : Type := mkState {
  widget : option W;
  whisper_user_ids : list Z;
  whisper_group_ids : list Z;
}.

Arguments mkState {W} _ _ _.
Arguments widget {W} _.
Arguments whisper_user_ids {W} _.
Arguments whisper_group_ids {W} _.

Definition with_widget {W} (w : option W) (st : State W) : State W :=
  mkState w (whisper_user_ids st) (whisper_group_ids st).

(** [compose_state.set_whisper_recipients(user_ids, group_ids)] *)
Definition set_whisper_recipients {W} (user_ids group_ids : list Z)
    (st : State W) : State W :=
  mkState (widget st) user_ids group_ids.

Definition create_item_from_text {W} (env : Env W) (text : string)
    (current_items : list WhisperPill) : option WhisperPill :=
  (* Try user groups first, then users *)
  match create_item_from_group_name env text current_items with
  | Some item => Some (Combined item)
  | None =>
      match create_item_from_user_id env text current_items with
      | Some item => Some (Combined item)
      | None => None
      end
  end.

Definition get_user_ids {W} (env : Env W) (st : State W) : list Z :=
  match widget st with
  | None => []
  | Some w => pill_user_ids env w
  end.

Definition get_group_ids {W} (env : Env W) (st : State W) : list Z :=
  match widget st with
  | None => []
  | Some w => pill_group_ids env w
  end.

Definition update_compose_state {W} (env : Env W) (st : State W) : State W :=
  match widget st with
  | None => st
  | Some _ =>
      set_whisper_recipients (get_user_ids env st) (get_group_ids env st) st
  end.

Definition clear {W} (env : Env W) (st : State W) : State W :=
  let st := match widget st with
            | Some w => with_widget (Some (widget_clear env w)) st
            | None => st
            end in
  set_whisper_recipients [] [] st.

Definition has_recipients {W} (env : Env W) (st : State W) : bool :=
  match widget st with
  | None => false
  | Some w => bool_decide (0 < length (items env w))%nat
  end.

Definition set_from_user_ids {W} (env : Env W) (user_ids : list Z)
    (st : State W) : State W :=
  match widget st with
  | None => st
  | Some w => with_widget (Some (append_known_users env user_ids w)) st
  end.

Definition set_from_group_ids {W} (env : Env W) (group_ids : list Z)
    (st : State W) : State W :=
  match widget st with
  | None => st
  | Some w => with_widget (Some (append_known_groups env group_ids w)) st
  end.

Definition set_from_user_and_group_ids {W} (env : Env W)
    (user_ids group_ids : list Z) (st : State W) : State W :=
  match widget st with
  | None => st
  | Some w =>
      (* Clear existing pills first *)
      let st := with_widget (Some (widget_clear env w)) st in
      (* Add users *)
      let st := set_from_user_ids env user_ids st in
      (* Add groups *)
      let st := set_from_group_ids env group_ids st in
      (* Update compose state *)
      set_whisper_recipients user_ids group_ids st
  end.

End whisper_plain.

(** *** Comparing the two modules *)
Module whisper_compare.
Import whisper.

(** The puppet-aware state shows what the plain state shows: the same
    widget, hence the same pills, the same user and group recipients, and no
    puppet recipient. *)
Definition agree {W} (sp : whisper_puppets.State W) (sl : whisper_plain.State W)
    : Prop :=
  whisper_puppets.widget sp = whisper_plain.widget sl
  ∧ whisper_puppets.whisper_user_ids sp = whisper_plain.whisper_user_ids sl
  ∧ whisper_puppets.whisper_group_ids sp = whisper_plain.whisper_group_ids sl
  ∧ whisper_puppets.whisper_puppet_ids sp = [].

(** A container that is the list of its pills, in insertion order, and
    lookups that know one user (10), one group (20) and one puppet (30). *)
Definition sample_env : Env (list WhisperPill) :=
  mkEnv (list WhisperPill)
    (λ _, [])
    (λ item w, w ++ [item])
    (λ w, w)
    (λ person w, w ++ [Combined (UserPill person)])
    (λ group w, w ++ [Combined (UserGroupPill group)])
    (omap (λ item, match item with
                   | Combined (UserPill person) => Some (user_id person)
                   | _ => None
                   end))
    (omap (λ item, match item with
                   | Combined (UserGroupPill group) => Some (group_id group)
                   | _ => None
                   end))
    (λ uid, if decide (uid = 10) then Some (mkUser 10 "Desdemona") else None)
    (λ gid, if decide (gid = 20) then Some (mkUserGroup 20 "hamlet") else None)
    (λ _, [mkStreamPuppet 30 "Yorick" None])
    (λ _ _, None) (λ _ _, None) (λ text, text).

Definition sample_puppet_state : whisper_puppets.State (list WhisperPill) :=
  whisper_puppets.mkState
    (Some [Combined (UserGroupPill (mkUserGroup 21 "macbeth"))]) (Some 5)
    [] [21] [30].

Definition sample_plain_state : whisper_plain.State (list WhisperPill) :=
  whisper_plain.mkState
    (Some [Combined (UserGroupPill (mkUserGroup 21 "macbeth"))]) [] [21].

End whisper_compare.

(** ** Bot interactions: from a user action to the bot

    The server side of slash commands and widget clicks (the
    [/json/bot_interactions] endpoint, the [bot_interactions] queue worker,
    the outgoing webhook) is not among the sources; only the end-to-end test
    of the command flow and the shape of the request the test bot receives
    are. *)
Module bot_interactions.

(** A JSON value, as far as webhook bodies need it. *)
#[local] Set Warnings "-register-all".
Inductive JValue : Type :=
  | JString (s : string)
  | JNumber (n : Z)
  | JObject (fields : list (string * JValue)).


(** Property access [v[key]]; [None] is [undefined]. *)
Fixpoint assoc (key : string) (fields : list (string * JValue))
    : option JValue :=
  match fields with
  | [] => None
  | (k, v) :: rest => if decide (k = key) then Some v else assoc key rest
  end.

Definition get (key : string) (v : JValue) : option JValue :=
  match v with
  | JObject fields => assoc key fields
  | _ => None
  end.

(** The [user] object of [CommandInvocationRequest]. *)
Record UserInfo : Type := mkUserInfo {
  user_id : Z;
  email : string;
  full_name : string;
}.

(** [wait_for_command_invocation] of the test, for one poll of the requests
    the test bot server has recorded:
    [requests.find((r) => r.type === "command_invocation")]. *)
Fixpoint find_command_invocation (requests : list JValue) : option JValue :=
  match requests with
  | [] => None
  | r :: rest =>
      match get "type" r with
      | Some (JString type) =>
          if decide (type = "command_invocation") then Some r
          else find_command_invocation rest
      | _ => find_command_invocation rest
      end
  end.

(** Modelled from the spec: the kinds of interaction event (section 3: a
    command invocation or a widget click). *)
Inductive InteractionKind : Type :=
  | CommandInvocation
  | WidgetClick.

(** Modelled from the spec: the interaction event of section 3, which
    carries the interaction id, the invoking user, the target command or
    widget id and the structured arguments, and is addressed to a bot. *)
Record InteractionEvent : Type := mkInteractionEvent {
  ev_bot : Z;
  ev_kind : InteractionKind;
  ev_target : string;
  ev_arguments : list (string * string);
  ev_interaction_id : string;
  ev_user : UserInfo;
}.

(** Modelled from the spec: where a bot receives its events (section 1: via
    webhook or embedded handler). *)
Inductive Endpoint : Type :=
  | Webhook (payload_url : string)
  | EmbeddedHandler (handler : string).

#[global] Instance Endpoint_eq_dec : EqDecision Endpoint.
Proof. solve_decision. Defined.

(** Modelled from the spec: one delivery made by the worker, a webhook POST
    or an in-process handler call, with its body. *)
Record Delivery : Type := mkDelivery {
  to_bot : Z;
  endpoint : Endpoint;
  body : JValue;
}.

(** Modelled from the spec: the outgoing webhook contract of section 6, a
    JSON body with [type], [command] or [widget_id], [arguments],
    [interaction_id] and [user]; the fields of [user] are those of
    [CommandInvocationRequest] in the test. *)
Definition webhook_body (ev : InteractionEvent) : JValue :=
  JObject
    [ ("type",
       JString match ev_kind ev with
               | CommandInvocation => "command_invocation"
               | WidgetClick => "widget_interaction"
               end);
      (match ev_kind ev with
       | CommandInvocation => "command"
       | WidgetClick => "widget_id"
       end, JString (ev_target ev));
      ("arguments",
       JObject ((λ kv : string * string, (kv.1, JString kv.2))
                  <$> ev_arguments ev));
      ("interaction_id", JString (ev_interaction_id ev));
      ("user",
       JObject [ ("id", JNumber (user_id (ev_user ev)));
                 ("email", JString (email (ev_user ev)));
                 ("full_name", JString (full_name (ev_user ev))) ]) ].

(** Modelled from the spec: the state of the pipeline of section 2.  The
    registered bots and commands, the queue of events not yet acknowledged
    (oldest first), the deliveries made so far (oldest first), and the
    interaction ids issued and not yet consumed, each with its bot. *)
Record Server : Type := mkServer {
  bots : gmap Z Endpoint;
  commands : list (Z * string);
  queue : list InteractionEvent;
  deliveries : list Delivery;
  next_interaction : nat;
  open_interactions : gmap string Z;
}.

Definition initial_server (bots : gmap Z Endpoint) (commands : list (Z * string))
    : Server :=
  mkServer bots commands [] [] 0%nat ∅.

(** Modelled from the spec: the event producer.  A user action becomes one
    event with a fresh interaction id, put at the back of the queue. *)
Definition produce (bot : Z) (kind : InteractionKind) (target : string)
    (arguments : list (string * string)) (user : UserInfo) (srv : Server)
    : Server :=
  let interaction_id := pretty (next_interaction srv) in
  let ev := mkInteractionEvent bot kind target arguments interaction_id user in
  mkServer (bots srv) (commands srv) (queue srv ++ [ev]) (deliveries srv)
    (S (next_interaction srv))
    (<[interaction_id := bot]> (open_interactions srv)).

(** Modelled from the spec: submitting a filled command.  A command that the
    bot has registered yields an event; any other is refused. *)
Definition submit_command (bot : Z) (command : string)
    (arguments : list (string * string)) (user : UserInfo) (srv : Server)
    : option Server :=
  if decide ((bot, command) ∈ commands srv)
  then Some (produce bot CommandInvocation command arguments user srv)
  else None.

Definition click_widget (bot : Z) (widget_id : string)
    (arguments : list (string * string)) (user : UserInfo) (srv : Server)
    : Server :=
  produce bot WidgetClick widget_id arguments user srv.

(** Modelled from the spec: what the worker of section 2 does with an
    event it is handed, the webhook POST or the handler call of the bot the
    event is for (nothing for a bot that is not registered). *)
Definition deliver (srv : Server) (ev : InteractionEvent) : list Delivery :=
  match bots srv !! ev_bot ev with
  | Some ep => [mkDelivery (ev_bot ev) ep (webhook_body ev)]
  | None => []
  end.

(** Modelled from the spec: one hand-over of the queue of sections 2 and 5,
    which is ordered and delivers at least once.  The worker is handed the
    oldest event and delivers it.  With [acknowledged] the event leaves the
    queue (it was delivered, or the retry policy of section 7 gives up on
    it); without, it stays the oldest one and is handed over again.  How
    often that happens is the host queue's policy, which the spec leaves
    open. *)
Definition worker_step (acknowledged : bool) (srv : Server) : option Server :=
  match queue srv with
  | [] => None
  | ev :: rest =>
      Some (mkServer (bots srv) (commands srv)
              (if acknowledged then rest else ev :: rest)
              (deliveries srv ++ deliver srv ev)
              (next_interaction srv) (open_interactions srv))
  end.

(** The bodies POSTed to one URL (what [get_bot_requests] of the test reads
    back from the test bot server). *)
Definition requests_at (url : string) (srv : Server) : list JValue :=
  body <$> filter (λ d, endpoint d = Webhook url) (deliveries srv).

(** Modelled from the spec: the bot consumes an interaction id by answering
    the interaction.  The answer is accepted when the id is one issued to
    this bot and not consumed yet, and consuming closes the id (section 3:
    an interaction id is consumed at most once by the responding bot). *)
Definition respond (bot : Z) (interaction_id : string) (srv : Server)
    : bool * Server :=
  match open_interactions srv !! interaction_id with
  | Some owner =>
      if decide (owner = bot) then
        (true,
         mkServer (bots srv) (commands srv) (queue srv) (deliveries srv)
           (next_interaction srv)
           (delete interaction_id (open_interactions srv)))
      else (false, srv)
  | None => (false, srv)
  end.

(** Modelled from the spec: what can happen to the pipeline (a command is
    submitted, a widget is clicked, the worker is handed an event, with or
    without acknowledgement, a bot answers an interaction), and what each
    happening reports. *)
Inductive Action : Type :=
  | SubmitCommand (bot : Z) (command : string)
      (arguments : list (string * string)) (user : UserInfo)
  | ClickWidget (bot : Z) (widget_id : string)
      (arguments : list (string * string)) (user : UserInfo)
  | Work (acknowledged : bool)
  | Respond (bot : Z) (interaction_id : string).

Inductive Outcome : Type :=
  | Refused
  | Enqueued
  | Worked
  | Idle
  | Accepted (bot : Z) (interaction_id : string)
  | Rejected.

Definition step (a : Action) (srv : Server) : Outcome * Server :=
  match a with
  | SubmitCommand bot command arguments user =>
      match submit_command bot command arguments user srv with
      | Some srv => (Enqueued, srv)
      | None => (Refused, srv)
      end
  | ClickWidget bot widget_id arguments user =>
      (Enqueued, click_widget bot widget_id arguments user srv)
  | Work acknowledged =>
      match worker_step acknowledged srv with
      | Some srv => (Worked, srv)
      | None => (Idle, srv)
      end
  | Respond bot interaction_id =>
      match respond bot interaction_id srv with
      | (true, srv) => (Accepted bot interaction_id, srv)
      | (false, srv) => (Rejected, srv)
      end
  end.

Fixpoint run (actions : list Action) (srv : Server) : list Outcome * Server :=
  match actions with
  | [] => ([], srv)
  | a :: rest =>
      let '(o, srv) := step a srv in
      let '(os, srv) := run rest srv in
      (o :: os, srv)
  end.

(** Modelled from the spec: the worker steps that deliver the oldest event
    when the queue hands it over [redelivered] more times before a hand-over
    is acknowledged, and those that empty a queue whose events are handed
    over again as often as [redeliveries] says, one number per event. *)
Definition deliver_after (redelivered : nat) : list Action :=
  replicate redelivered (Work false) ++ [Work true].


(** How many times the id was consumed in a run. *)
Definition consumed (interaction_id : string) (o : Outcome) : bool :=
  match o with
  | Accepted _ i => bool_decide (i = interaction_id)
  | _ => false
  end.

Definition consumptions (interaction_id : string) (outcomes : list Outcome)
    : nat :=
  length (filter (λ o, consumed interaction_id o = true) outcomes).

(** Open interaction ids were issued from the counter, so the counter will
    not issue them again. *)
Definition ids_below_counter (srv : Server) : Prop :=
  ∀ (i : string) (k : nat),
    is_Some (open_interactions srv !! i) → i = pretty k →
    (k < next_interaction srv)%nat.

(** The bot and the command of the end-to-end test, and the user who sends
    the command. *)
Definition test_bots : gmap Z Endpoint :=
  {[ 7 := Webhook "http://127.0.0.1:9877" ]}.

Definition test_commands : list (Z * string) := [(7, "testcmd")].

Definition desdemona : UserInfo :=
  mkUserInfo 9 "desdemona@zulip.com" "Desdemona".

Definition test_arguments : list (string * string) :=
  [("message", "hello world"); ("count", "3")].


End bot_interactions.

(** ** Creating personas

    The persona endpoints under [/json/users/me/personas] are not among the
    sources; the settings panel that calls them is (the second module of
    [personas.ts]). *)
Module persona_store.

(** The fields of [#character-form] that [submit_character_form] reads. *)
Record CharacterForm : Type := mkCharacterForm {
  character_name : string;
  character_avatar_url : string;
  character_color : string;
  character_bio : string;
  character_id : string;
}.

(** The [data] object of the request: [name] and [bio], and [avatar_url]
    and [color] when they are set. *)
Record CharacterData : Type := mkCharacterData {
  data_name : string;
  data_bio : string;
  data_avatar_url : option string;
  data_color : option string;
}.

Inductive ApiRequest : Type :=
  | Post (url : string) (data : CharacterData)
  | Patch (url : string) (data : CharacterData).

(** [submit_character_form] of the settings panel. *)
Definition submit_character_form (form : CharacterForm) : ApiRequest :=
  let name := character_name form in
  let avatar_url :=
    if decide (character_avatar_url form = "") then None
    else Some (character_avatar_url form) in
  let color_input := character_color form in
  let color :=
    if decide (color_input = "") then None
    else if decide (color_input = "#6b7280") then None
    else Some color_input in
  let bio := character_bio form in
  let persona_id := character_id form in
  let data := mkCharacterData name bio avatar_url color in
  if decide (persona_id = "") then
    (* Create new persona *)
    Post "/json/users/me/personas" data
  else
    (* Update existing persona *)
    Patch ("/json/users/me/personas/" +:+ persona_id) data.

(** Modelled from the spec: a stored persona (section 3), owned by a human
    user, with display name, optional avatar and optional colour. *)
Record PersonaRow : Type := mkPersonaRow {
  row_id : Z;
  row_owner : Z;
  row_name : string;
  row_avatar_url : option string;
  row_color : option string;
  row_bio : string;
}.

(** Modelled from the spec: the stored personas of all users, and the id
    the next one gets. *)
Record Db : Type := mkDb {
  rows : list PersonaRow;
  next_id : Z;
}.

(** Modelled from the spec: the outcome of a creation, the new persona or
    the duplicate-name validation error of section 7. *)
Inductive CreateResult : Type :=
  | Created (row : PersonaRow)
  | DuplicateName.

(** Modelled from the spec: the personas a user owns, and whether the user
    owns one with the given name. *)
Definition personas_of (user : Z) (db : Db) : list PersonaRow :=
  filter (λ r, row_owner r = user) (rows db).

Definition owns_name (user : Z) (name : string) (db : Db) : bool :=
  bool_decide (Exists (λ r, row_name r = name) (personas_of user db)).

(** Modelled from the spec: creating a persona.  Persona names are unique
    per owning user (section 3); a name the user already owns is refused
    with the duplicate-name error (sections 7 and 8) and nothing is stored. *)
Definition create_persona (user : Z) (data : CharacterData) (db : Db)
    : CreateResult * Db :=
  if owns_name user (data_name data) db then (DuplicateName, db)
  else
    let row :=
      mkPersonaRow (next_id db) user (data_name data) (data_avatar_url data)
        (data_color data) (data_bio data) in
    (Created row, mkDb (rows db ++ [row]) (next_id db + 1)).

(** The form of [test_duplicate_persona_name_error], submitted twice. *)
Definition aragorn_form : CharacterForm :=
  mkCharacterForm "Aragorn" "" "#6b7280" "" "".

Definition aragorn : CharacterData := mkCharacterData "Aragorn" "" None None.

End persona_store.

(** ** The persona menu and the actions on the compose selection *)
Module compose_persona_ui.

(** One entry of the [menu_items] array that [show_persona_menu] hands to
    the menu template; [name_initial] is absent on the Yourself entry. *)
Record MenuItem : Type := mkMenuItem {
  item_id : option Z;
  item_name : string;
  item_avatar_url : option string;
  item_color : option string;
  is_yourself : bool;
  is_selected : bool;
  name_initial : option string;
}.

(** The [menu_items] of [show_persona_menu].  [initial_of name] stands for
    [name.charAt(0).toUpperCase()]. *)
Definition menu_items (initial_of : string → string) (st : State)
    : list MenuItem :=
  let my_personas := personas.get_my_personas st in
  let current_persona_id := personas.get_compose_persona_id st in
  mkMenuItem None "Yourself" None None true
    (bool_decide (current_persona_id = None)) None
  :: ((λ p, mkMenuItem (Some (id p)) (name p) (avatar_url p) (color p) false
              (bool_decide (current_persona_id = Some (id p)))
              (Some (initial_of (name p))))
        <$> my_personas).

(** The compose box is pointed at another stream, or at a direct message
    ([compose_state.stream_id()] changes). *)
Definition with_compose_stream_id (stream : option Z) (st : State) : State :=
  mkState (my_personas st) (my_personas_fetched st) (my_personas_pending st)
    (my_personas_request st) (realm_personas_fetched st)
    (compose_persona_by_stream st) (current_compose_persona_id st)
    (change_callbacks st) (next_serial st) stream
    (selector_visible st) (selector_button st).

(** What reaches the two modules while the application runs: the shortcut
    that cycles the persona, a click on a menu entry (the handler calls
    [set_current_persona_id] with the number it read, or with null), a
    persona event from the server, and a change of the compose target
    followed by the [narrow_changed.zulip] handler. *)
Inductive UserAction : Type :=
  | ActCycle
  | ActSelect (persona_id : option Z)
  | ActEvent (event : PersonaEvent)
  | ActNarrow (stream : option Z).

Definition act (fuel : nat) (a : UserAction) (st : State) : option State :=
  match a with
  | ActCycle => compose_persona.cycle_persona fuel st
  | ActSelect persona_id =>
      compose_persona.set_current_persona_id fuel persona_id st
  | ActEvent event => compose_persona.handle_persona_event fuel event st
  | ActNarrow stream =>
      compose_persona.on_narrow_changed fuel (with_compose_stream_id stream st)
  end.

Fixpoint run_actions (fuel : nat) (actions : list UserAction) (st : State)
    : option State :=
  match actions with
  | [] => Some st
  | a :: rest => st ← act fuel a st; run_actions fuel rest st
  end.

(** The persona list has arrived, only module-level callbacks listen, and
    the selection names a listed persona or nobody. *)
Definition compose_settled (st : State) : Prop :=
  my_personas_fetched st = true
  ∧ Forall compose_persona.module_callback (change_callbacks st)
  ∧ compose_persona.selection_ok st = true.

(** What an event does before the callbacks are notified: nothing (the
    event is ignored), or a change of the list that keeps the fetch flag,
    the callbacks and the validity of the selection. *)
Inductive EventEffect (event : PersonaEvent) (st : State)
    : option State → Prop :=
  | EffectIgnored :
      EventEffect event st None
  | EffectListed (st1 : State) :
      my_personas_fetched st1 = my_personas_fetched st →
      change_callbacks st1 = change_callbacks st →
      (compose_persona.selection_ok st = true →
       compose_persona.selection_ok st1 = true) →
      EventEffect event st (Some st1).

Definition add_event (p : MyPersona) : PersonaEvent :=
  mkPersonaEvent "add" (Some p) None.


(** The state while the first request for the personas is in flight, the
    compose box listening and pointed at stream 5. *)
Definition loading_state : State :=
  mkState [] false true None false ∅ None [ComposeOnPersonasChanged] 0%nat
    (Some 5) false ButtonYourself.



End compose_persona_ui.

(** ** The typeahead of the whisper recipients ([part_003], puppet-aware
    module) *)
Module whisper_typeahead.
Import whisper whisper_puppets.

(** The puppets that the typeahead's [source] offers. *)
Definition get_puppets {W} (env : Env W) (st : State W) : list StreamPuppet :=
  match current_stream_id st with
  | None => []
  | Some stream_id =>
      let all_puppets := get_puppets_for_stream env stream_id in
      match widget st with
      | None => all_puppets
      | Some _ =>
          (* Filter out already-added puppets *)
          let current_puppet_ids := get_puppet_ids env st in
          filter (λ p, puppet_id p ∉ current_puppet_ids) all_puppets
      end
  end.

(** The typeahead's [updater] on an item of type "puppet": the puppet pill
    is added directly. *)
Definition updater_puppet {W} (env : Env W) (puppet : StreamPuppet)
    (st : State W) : State W :=
  match widget st with
  | None => st
  | Some w =>
      with_widget
        (Some (appendValidatedData env
                 (PuppetPill (puppet_id puppet) (puppet_name puppet)) w)) st
  end.

(** What the properties of the pills assume of the container and of the
    user and group pill helpers, none of which belongs to these modules:
    clearing leaves no pill, [appendValidatedData] adds the pill at the
    end, and the user and group helpers add user and group pills only. *)
Record PillContainer {W} (env : Env W) : Prop := mkPillContainer {
  items_clear : ∀ w, items env (widget_clear env w) = [];
  items_appendValidatedData : ∀ item w,
    items env (appendValidatedData env item w) = items env w ++ [item];
  items_append_person : ∀ person w,
    ∃ added, items env (append_person env person w)
             = items env w ++ (Combined <$> added);
  items_append_user_group : ∀ group w,
    ∃ added, items env (append_user_group env group w)
             = items env w ++ (Combined <$> added);
}.

(** A stream with two puppets whose names differ only in case. *)
Definition yorick_env : Env (list WhisperPill) :=
  mkEnv (list WhisperPill)
    (λ _, [])
    (λ item w, w ++ [item])
    (λ w, w)
    (λ person w, w ++ [Combined (UserPill person)])
    (λ group w, w ++ [Combined (UserGroupPill group)])
    (omap (λ item, match item with
                   | Combined (UserPill person) => Some (user_id person)
                   | _ => None
                   end))
    (omap (λ item, match item with
                   | Combined (UserGroupPill group) => Some (group_id group)
                   | _ => None
                   end))
    (λ uid, if decide (uid = 10) then Some (mkUser 10 "Desdemona") else None)
    (λ gid, if decide (gid = 20) then Some (mkUserGroup 20 "hamlet") else None)
    (λ _, [mkStreamPuppet 30 "Yorick" None; mkStreamPuppet 31 "Osric" None])
    (λ _ _, None) (λ _ _, None) (λ text, text).

Definition yorick_state (pills : list WhisperPill)
    : State (list WhisperPill) :=
  mkState (Some pills) (Some 5) [] [] [].

End whisper_typeahead.

(** ** The character forms of the settings panel ([personas.ts], second
    module) *)
Module settings_characters.
Import persona_store.

(** The context the form template is rendered with. *)
Record FormContext : Type := mkFormContext {
  is_editing : bool;
  context_id : option Z;
  context_name : string;
  context_avatar_url : string;
  context_color : string;
  context_bio : string;
}.

Definition open_add_character_modal : FormContext :=
  mkFormContext false None "" "" "#6b7280" "".

(** [open_edit_character_modal]: no modal is opened for an id that is not
    in the list. *)
Definition open_edit_character_modal (persona_id : Z) (st : State)
    : option FormContext :=
  let my_personas := personas.get_my_personas st in
  match find_by_id persona_id my_personas with
  | None => None
  | Some persona =>
      Some (mkFormContext true (Some (id persona)) (name persona)
              (default "" (avatar_url persona))
              (default "#6b7280" (color persona))
              (bio persona))
  end.

(** The form shows the values of the context it was rendered with; the
    hidden field [#character-id] holds the id in decimal, and nothing when
    the context has no id. *)
Definition shows (form : CharacterForm) (context : FormContext) : Prop :=
  character_name form = context_name context
  ∧ character_avatar_url form = context_avatar_url context
  ∧ character_color form = context_color context
  ∧ character_bio form = context_bio context
  ∧ character_id form
    = match context_id context with
      | Some persona_id => pretty persona_id
      | None => ""
      end.

Definition saruman : MyPersona :=
  mkMyPersona 3 "Saruman" (Some "/avatars/saruman.png") (Some "#6b7280")
    "The White" true 1700000300.

End settings_characters.

(** ** The persona picker of the theater ([PersonaPicker.svelte]) *)
Module persona_picker.

(** The fields of the store's [Persona] that the component reads. *)
Record Persona : Type := mkPersona {
  id : Z;
  name : string;
  avatar_url : option string;
  color : option string;
}.

(** The component's own state; [selectedPersonaId] is a prop and
    [userPersonas] the value of the store, both arguments below. *)
Record Picker : Type := mkPicker {
  isOpen : bool;
  focusedIndex : Z;
}.

Definition initial : Picker := mkPicker false (-1).

(** [Array.prototype.findIndex]: the first position whose element passes,
    or [-1]. *)
Fixpoint findIndex {A} (P : A → bool) (l : list A) : Z :=
  match l with
  | [] => -1
  | x :: rest =>
      if P x then 0
      else let i := findIndex P rest in if i =? -1 then -1 else i + 1
  end.

(** Build options list: null (yourself) + all personas *)
Definition allOptions (userPersonas : list Persona) : list (option Persona) :=
  None :: (Some <$> userPersonas).

(** [selectedPersonaId ? userPersonas.find(...) : null]; the id 0 is
    falsy. *)
Definition selectedPersona (selectedPersonaId : option Z)
    (userPersonas : list Persona) : option Persona :=
  match selectedPersonaId with
  | Some c =>
      if c =? 0 then None
      else List.find (λ p, bool_decide (id p = c)) userPersonas
  | None => None
  end.

(** [(opt) => opt === null ? selectedPersonaId === null
                           : opt.id === selectedPersonaId] *)
Definition is_selected_option (selectedPersonaId : option Z)
    (opt : option Persona) : bool :=
  match opt with
  | None => bool_decide (selectedPersonaId = None)
  | Some p => bool_decide (selectedPersonaId = Some (id p))
  end.

Definition toggleDropdown (selectedPersonaId : option Z)
    (userPersonas : list Persona) (st : Picker) : Picker :=
  let isOpen := negb (isOpen st) in
  if isOpen then
    (* Focus the currently selected option *)
    mkPicker isOpen
      (findIndex (is_selected_option selectedPersonaId)
         (allOptions userPersonas))
  else mkPicker isOpen (focusedIndex st).

(** [selectPersona]: the new state and the argument [onSelect] is called
    with, [persona?.id ?? null]. *)
Definition selectPersona (persona : option Persona) (st : Picker)
    : Picker * option Z :=
  (mkPicker false (focusedIndex st), id <$> persona).

(** [inside] is [dropdownRef.contains(event.target)]. *)
Definition handleClickOutside (inside : bool) (st : Picker) : Picker :=
  if negb inside then mkPicker false (focusedIndex st) else st.

(** [handleKeydown]: the new state and, if [onSelect] was called, its
    argument.  An index outside the array reads [undefined], which
    [selectPersona] treats as null. *)
Definition handleKeydown (key : string) (selectedPersonaId : option Z)
    (userPersonas : list Persona) (st : Picker)
    : Picker * option (option Z) :=
  let allOptions := allOptions userPersonas in
  if negb (isOpen st) then
    if bool_decide (key = "ArrowDown") || bool_decide (key = "ArrowUp")
       || bool_decide (key = "Enter") || bool_decide (key = " ") then
      (mkPicker true
         (findIndex (is_selected_option selectedPersonaId) allOptions), None)
    else (st, None)
  else if bool_decide (key = "ArrowDown") then
    (mkPicker (isOpen st)
       (Z.min (focusedIndex st + 1) (Z.of_nat (length allOptions) - 1)), None)
  else if bool_decide (key = "ArrowUp") then
    (mkPicker (isOpen st) (Z.max (focusedIndex st - 1) 0), None)
  else if bool_decide (key = "Enter") || bool_decide (key = " ") then
    if (0 <=? focusedIndex st)
       && (focusedIndex st <? Z.of_nat (length allOptions)) then
      let '(st, selected) :=
        selectPersona
          (default None (allOptions !! Z.to_nat (focusedIndex st))) st in
      (st, Some selected)
    else (st, None)
  else if bool_decide (key = "Escape") then
    (mkPicker false (focusedIndex st), None)
  else if bool_decide (key = "Home") then
    (mkPicker (isOpen st) 0, None)
  else if bool_decide (key = "End") then
    (mkPicker (isOpen st) (Z.of_nat (length allOptions) - 1), None)
  else (st, None).

(** The focus is on an option of the list, or on none ([-1]). *)
Definition focus_in_range (userPersonas : list Persona) (st : Picker) : Prop :=
  -1 ≤ focusedIndex st ≤ Z.of_nat (length userPersonas).

Definition hamlet : Persona := mkPersona 7 "Hamlet" None (Some "#333333").

Definition ophelia : Persona := mkPersona 8 "Ophelia" None None.

End persona_picker.

(** ** The message box of the theater ([part_002], Prompter.svelte) *)
Module prompter.

(** The calls of the API client. *)
Inductive ApiCall : Type :=
  | SendMessage (to : Z) (topic : string) (content : string)
      (persona_id : option Z)
  | SendTypingNotification (op : string) (streamId : Z) (topic : string).

(** The props [streamId] and [topic], the store [activePersonaId], the
    component's state, and around it what the component cannot see: the
    timers that are set and not yet cleared or run ([timers], with
    [next_timer] the next handle; handles are truthy), the number of
    [api.sendMessage] promises not yet settled, the calls made so far and
    the ids dispatched as [messageSent]. *)
Record State : Type := mkState {
  streamId : Z;
  topic : string;
  activePersonaId : option Z;
  content : string;
  isSending : bool;
  sendError : option string;
  typingTimeout : option nat;
  isTyping : bool;
  timers : list nat;
  next_timer : nat;
  pending_sends : nat;
  calls : list ApiCall;
  dispatched : list Z;
}.

Definition mount (streamId : Z) (topic : string) (activePersonaId : option Z)
    : State :=
  mkState streamId topic activePersonaId "" false None None false []
    1%nat 0%nat [] [].

Definition with_activePersonaId (v : option Z) (st : State) : State :=
  mkState (streamId st) (topic st) v (content st) (isSending st)
    (sendError st) (typingTimeout st) (isTyping st) (timers st)
    (next_timer st) (pending_sends st) (calls st) (dispatched st).

Definition with_content (v : string) (st : State) : State :=
  mkState (streamId st) (topic st) (activePersonaId st) v (isSending st)
    (sendError st) (typingTimeout st) (isTyping st) (timers st)
    (next_timer st) (pending_sends st) (calls st) (dispatched st).

Definition with_isSending (v : bool) (st : State) : State :=
  mkState (streamId st) (topic st) (activePersonaId st) (content st) v
    (sendError st) (typingTimeout st) (isTyping st) (timers st)
    (next_timer st) (pending_sends st) (calls st) (dispatched st).

Definition with_sendError (v : option string) (st : State) : State :=
  mkState (streamId st) (topic st) (activePersonaId st) (content st)
    (isSending st) v (typingTimeout st) (isTyping st) (timers st)
    (next_timer st) (pending_sends st) (calls st) (dispatched st).

Definition with_typingTimeout (v : option nat) (st : State) : State :=
  mkState (streamId st) (topic st) (activePersonaId st) (content st)
    (isSending st) (sendError st) v (isTyping st) (timers st)
    (next_timer st) (pending_sends st) (calls st) (dispatched st).

Definition with_isTyping (v : bool) (st : State) : State :=
  mkState (streamId st) (topic st) (activePersonaId st) (content st)
    (isSending st) (sendError st) (typingTimeout st) v (timers st)
    (next_timer st) (pending_sends st) (calls st) (dispatched st).

Definition with_timers (v : list nat) (n : nat) (st : State) : State :=
  mkState (streamId st) (topic st) (activePersonaId st) (content st)
    (isSending st) (sendError st) (typingTimeout st) (isTyping st) v
    n (pending_sends st) (calls st) (dispatched st).

Definition with_pending_sends (v : nat) (st : State) : State :=
  mkState (streamId st) (topic st) (activePersonaId st) (content st)
    (isSending st) (sendError st) (typingTimeout st) (isTyping st) (timers st)
    (next_timer st) v (calls st) (dispatched st).

Definition call (c : ApiCall) (st : State) : State :=
  mkState (streamId st) (topic st) (activePersonaId st) (content st)
    (isSending st) (sendError st) (typingTimeout st) (isTyping st) (timers st)
    (next_timer st) (pending_sends st) (calls st ++ [c]) (dispatched st).

Definition dispatch_messageSent (id : Z) (st : State) : State :=
  mkState (streamId st) (topic st) (activePersonaId st) (content st)
    (isSending st) (sendError st) (typingTimeout st) (isTyping st) (timers st)
    (next_timer st) (pending_sends st) (calls st) (dispatched st ++ [id]).

(** [setTimeout] returns a fresh handle; [clearTimeout] cancels it. *)
Definition setTimeout (st : State) : nat * State :=
  (next_timer st, with_timers (timers st ++ [next_timer st])
                    (S (next_timer st)) st).

Definition clearTimeout (t : nat) (st : State) : State :=
  with_timers (filter (λ u, u ≠ t) (timers st)) (next_timer st) st.

Section WithTrim.
(** [String.prototype.trim] *)
Variable trim : string → string.

Definition handlePersonaSelect (personaId : option Z) (st : State) : State :=
  with_activePersonaId personaId st.

Definition dismissError (st : State) : State := with_sendError None st.

Definition stopTypingNotification (st : State) : State :=
  let st :=
    if isTyping st then
      call (SendTypingNotification "stop" (streamId st) (topic st))
        (with_isTyping false st)
    else st in
  match typingTimeout st with
  | Some t => with_typingTimeout None (clearTimeout t st)
  | None => st
  end.

Definition startTypingNotification (st : State) : State :=
  let st :=
    if negb (isTyping st) && negb (bool_decide (trim (content st) = "")) then
      call (SendTypingNotification "start" (streamId st) (topic st))
        (with_isTyping true st)
    else st in
  (* Reset timeout *)
  let st :=
    match typingTimeout st with
    | Some t => clearTimeout t st
    | None => st
    end in
  let '(t, st) := setTimeout st in
  with_typingTimeout (Some t) st.

(** The callback of the timer runs if the timer is still set. *)
Definition timer_fires (t : nat) (st : State) : State :=
  if decide (t ∈ timers st) then
    stopTypingNotification
      (with_timers (filter (λ u, u ≠ t) (timers st)) (next_timer st) st)
  else st.

(** [sendMessage] up to the [await]. *)
Definition sendMessage (st : State) : State :=
  let trimmedContent := trim (content st) in
  if bool_decide (trimmedContent = "") || isSending st then st
  else
    let st := with_isSending true st in
    let st := with_sendError None st in
    let st := stopTypingNotification st in
    with_pending_sends (S (pending_sends st))
      (call (SendMessage (streamId st) (topic st) trimmedContent
               (activePersonaId st)) st).

(** [sendMessage] after the [await], when the promise is fulfilled with a
    message id or rejected; nothing happens if no promise is pending. *)
Definition sendMessage_fulfilled (id : Z) (st : State) : State :=
  match pending_sends st with
  | O => st
  | S n =>
      let st := with_pending_sends n st in
      let st := with_content "" st in
      let st := dispatch_messageSent id st in
      with_isSending false st
  end.

Definition sendMessage_rejected (st : State) : State :=
  match pending_sends st with
  | O => st
  | S n =>
      let st := with_pending_sends n st in
      let st :=
        with_sendError (Some "Failed to send message. Please try again.") st in
      with_isSending false st
  end.

Definition handleKeydown (key : string) (shiftKey : bool) (st : State)
    : State :=
  if bool_decide (key = "Enter") && negb shiftKey then sendMessage st else st.

(** [bind:value] has stored the text when [oninput] runs [handleInput]. *)
Definition handleInput (text : string) (st : State) : State :=
  startTypingNotification (with_content text st).

(** What happens to the component: the user types, presses a key in the
    text area, clicks the send button, dismisses the error or picks an
    identity; a pending send settles; a timer runs; the component is
    unmounted. *)
Inductive Event : Type :=
  | Input (text : string)
  | Keydown (key : string) (shiftKey : bool)
  | ClickSend
  | DismissError
  | PersonaSelect (personaId : option Z)
  | Fulfilled (id : Z)
  | Rejected
  | Timer (t : nat)
  | Unmount.

Definition step (e : Event) (st : State) : State :=
  match e with
  | Input text => handleInput text st
  | Keydown key shiftKey => handleKeydown key shiftKey st
  | ClickSend => sendMessage st
  | DismissError => dismissError st
  | PersonaSelect personaId => handlePersonaSelect personaId st
  | Fulfilled id => sendMessage_fulfilled id st
  | Rejected => sendMessage_rejected st
  | Timer t => timer_fires t st
  | Unmount => stopTypingNotification st
  end.

Definition run (events : list Event) (st : State) : State :=
  foldl (λ st e, step e st) st events.

End WithTrim.

(** Reading the typing notifications of a log: [Some b] if "start" and
    "stop" alternate, beginning with "start", where [b] tells whether the
    last one was a "start"; [None] otherwise. *)
Fixpoint typing_of (typing : bool) (log : list ApiCall) : option bool :=
  match log with
  | [] => Some typing
  | SendTypingNotification op _ _ :: rest =>
      if bool_decide (op = "start") then
        if typing then None else typing_of true rest
      else if bool_decide (op = "stop") then
        if typing then typing_of false rest else None
      else None
  | SendMessage _ _ _ _ :: rest => typing_of typing rest
  end.

(** The messages of a log, and what every one of them satisfies. *)
Definition sent (log : list ApiCall) : list (string * option Z) :=
  omap (λ c, match c with
             | SendMessage _ _ content persona_id => Some (content, persona_id)
             | SendTypingNotification _ _ _ => None
             end) log.

(** What holds between any two events: the typing notifications sent so
    far alternate and [isTyping] tells whether the last one was a "start";
    the only timer set is the one remembered; while typing is announced the
    timer that will stop it is set; a send is pending exactly while
    [isSending]; no message sent is empty; and no more messages were
    answered than were sent. *)
Definition invariant (st : State) : Prop :=
  typing_of false (calls st) = Some (isTyping st)
  ∧ timers st = option_list (typingTimeout st)
  ∧ (isTyping st = true → is_Some (typingTimeout st))
  ∧ pending_sends st = (if isSending st then 1 else 0)%nat
  ∧ Forall (λ m, m.1 ≠ "") (sent (calls st))
  ∧ (length (dispatched st) + pending_sends st ≤ length (sent (calls st)))%nat.

(** A [trim] for the examples: the text without its leading spaces. *)
Fixpoint trim_start (s : string) : string :=
  match s with
  | String c rest => if Ascii.eqb c Ascii.Space then trim_start rest else s
  | EmptyString => s
  end.

End prompter.

(** * Properties *)

(** ** Sticky selection per stream ([personas.ts]) *)
Module personas_facts.
Import personas.

Lemma set_calls_untouched (u : Z) (calls : list (option Z * option Z))
    (st : State) :
  Forall (λ call, call.2 ≠ Some u) calls →
  compose_persona_by_stream (set_calls calls st) !! u
  = compose_persona_by_stream st !! u.
Proof.
  revert st. induction calls as [|[p sid] calls IH]; intros st Hall; [done|].
  inversion Hall as [|? ? Hhd Htl]; subst.
  change (set_calls ((p, sid) :: calls) st)
    with (set_calls calls (set_compose_persona_id p sid st)).
  rewrite (IH _ Htl).
  unfold set_compose_persona_id. destruct sid as [s|]; cbn; [|done].
  apply lookup_insert_ne. cbn in Hhd. congruence.
Qed.

(** C9.  After [set_compose_persona_id(p, s)] the sticky persona of stream
    [s] is [p], the sticky persona of any other stream [t] is what it was,
    and a stream [u] that no call ever named since the module was loaded has
    the sticky persona [null]. *)
Theorem sticky_persona_frame (p : option Z) (s t u : Z) (st : State)
    (calls : list (option Z * option Z))
    (stream : option Z) (visible : bool) (button : SelectorButton) :
  t ≠ s →
  Forall (λ call, call.2 ≠ Some u) calls →
  get_sticky_persona_for_stream s (set_compose_persona_id p (Some s) st) = p
  ∧ get_sticky_persona_for_stream t (set_compose_persona_id p (Some s) st)
    = get_sticky_persona_for_stream t st
  ∧ get_sticky_persona_for_stream u
      (set_calls calls (initial_state stream visible button)) = None.
Proof.
  intros Hts Hnever. repeat split.
  - unfold get_sticky_persona_for_stream, set_compose_persona_id. cbn.
    by rewrite lookup_insert_eq.
  - unfold get_sticky_persona_for_stream, set_compose_persona_id. cbn.
    by rewrite lookup_insert_ne.
  - unfold get_sticky_persona_for_stream.
    rewrite (set_calls_untouched u calls _ Hnever). cbn.
    by rewrite lookup_empty.
Qed.

Lemma sticky_persona_frame_witness :
  get_sticky_persona_for_stream 5
    (set_compose_persona_id (Some 42) (Some 5) (initial_state None false ButtonYourself))
  = Some 42
  ∧ get_sticky_persona_for_stream 6
      (set_compose_persona_id (Some 42) (Some 5) (initial_state None false ButtonYourself))
    = get_sticky_persona_for_stream 6 (initial_state None false ButtonYourself)
  ∧ get_sticky_persona_for_stream 7
      (set_calls [(Some 42, Some 5); (None, None); (Some 1, Some 6)]
         (initial_state None false ButtonYourself)) = None.
Proof.
  apply (sticky_persona_frame (Some 42) 5 6 7
           (initial_state None false ButtonYourself)
           [(Some 42, Some 5); (None, None); (Some 1, Some 6)]
           None false ButtonYourself).
  - lia.
  - repeat constructor; cbn; discriminate.
Defined.

End personas_facts.

(** ** Compose identity selection ([compose_persona.ts]) *)
Module compose_persona_facts.
Import personas compose_persona.

Lemma same_caches_refl (st : State) : same_caches st st.
Proof. by repeat split. Qed.

Lemma same_caches_trans (a b c : State) :
  same_caches a b → same_caches b c → same_caches a c.
Proof.
  intros (?&?&?&?) (?&?&?&?). repeat split; congruence.
Qed.

(** Three levels of calls are all [update_selector_display] ever needs: it
    re-enters itself once, through [set_current_persona_id(null)]. *)
Lemma update_selector_display_eq (fuel : nat) (st : State) :
  (3 ≤ fuel)%nat →
  update_selector_display fuel st =
  Some
    match current_compose_persona_id st with
    | None => with_selector_button ButtonYourself st
    | Some c =>
        match find_by_id c (my_personas st) with
        | Some p => with_selector_button (ButtonPersona p) st
        | None =>
            with_selector_button ButtonYourself
              (set_compose_persona_id None (compose_stream_id st) st)
        end
    end.
Proof.
  intros Hfuel. destruct fuel as [|[|[|fuel]]]; try lia.
  cbn. unfold get_compose_persona_id, get_my_personas.
  destruct (current_compose_persona_id st) as [c|]; [|done].
  destruct (find_by_id c (my_personas st)); [done|].
  by destruct (compose_stream_id st).
Qed.

Lemma update_selector_display_ok (fuel : nat) (st : State) :
  (3 ≤ fuel)%nat →
  ∃ st', update_selector_display fuel st = Some st'
    ∧ same_caches st st'
    ∧ selector_visible st' = selector_visible st
    ∧ selection_ok st' = true.
Proof.
  intros Hfuel. rewrite update_selector_display_eq by done.
  eexists; split; [done|]. unfold selection_ok, same_caches.
  destruct (current_compose_persona_id st) as [c|] eqn:Hc; cbn.
  - destruct (find_by_id c (my_personas st)) eqn:Hf; cbn.
    + rewrite Hc, Hf. by repeat split.
    + destruct (compose_stream_id st) eqn:Hs; cbn; by repeat split.
  - rewrite Hc. by repeat split.
Qed.

Lemma set_current_persona_id_listed (fuel : nat) (p : MyPersona) (st : State) :
  (2 ≤ fuel)%nat →
  p ∈ my_personas st →
  ∃ st', set_current_persona_id fuel (Some (id p)) st = Some st'
    ∧ same_caches st st'
    ∧ current_compose_persona_id st' = Some (id p).
Proof.
  intros Hfuel Hin. destruct fuel as [|[|fuel]]; try lia.
  cbn. unfold get_compose_persona_id, get_my_personas.
  assert (is_Some (find_by_id (id p) (my_personas st))) as [q Hq].
  { induction (my_personas st) as [|x l IH]; [by apply elem_of_nil in Hin|].
    cbn. case_decide; [by eexists|].
    apply elem_of_cons in Hin as [->|Hin]; [done|]. by apply IH. }
  destruct (compose_stream_id st) eqn:Hs; cbn; rewrite Hq.
  all: eexists; split; [reflexivity|]; by repeat split.
Qed.

Lemma set_current_persona_id_null (fuel : nat) (st : State) :
  (2 ≤ fuel)%nat →
  ∃ st', set_current_persona_id fuel None st = Some st'
    ∧ same_caches st st'
    ∧ current_compose_persona_id st' = None.
Proof.
  intros Hfuel. destruct fuel as [|[|fuel]]; try lia.
  cbn. destruct (compose_stream_id st) eqn:Hs; cbn.
  all: eexists; split; [reflexivity|]; by repeat split.
Qed.

Lemma update_for_stream_fetched (fuel : nat) (sid : Z) (st : State) :
  (4 ≤ fuel)%nat →
  my_personas_fetched st = true →
  ∃ st', update_for_stream fuel (Some sid) st = Some st'
    ∧ same_caches st st'
    ∧ selector_visible st' = negb (bool_decide (my_personas st = []))
    ∧ (selection_ok st = true → selection_ok st' = true).
Proof.
  intros Hfuel Hfetched. destruct fuel as [|fuel]; [lia|].
  cbn [update_for_stream]. unfold has_fetched_my_personas, get_my_personas.
  rewrite Hfetched. cbn [negb].
  destruct (my_personas st) as [|p l] eqn:Hmy.
  - cbn. eexists; split; [reflexivity|].
    split; [by repeat split|]. split; [done|].
    unfold selection_ok. cbn. by rewrite Hmy.
  - rewrite bool_decide_eq_false_2 by done.
    match goal with
    | |- ∃ st', update_selector_display fuel ?s = _ ∧ _ => set (st1 := s)
    end.
    assert (same_caches st st1 ∧ selector_visible st1 = true) as [Hsame Hvis].
    { subst st1. destruct (get_sticky_persona_for_stream sid _); cbn;
        by repeat split. }
    destruct (update_selector_display_ok fuel st1) as (st'&->&Hsame'&Hvis'&Hok);
      [lia|].
    exists st'. split; [done|]. split; [by eapply same_caches_trans|].
    split; [|done]. rewrite Hvis', Hvis. by rewrite bool_decide_eq_false_2.
Qed.

Lemma update_for_stream_dm (fuel : nat) (st : State) :
  (1 ≤ fuel)%nat →
  ∃ st', update_for_stream fuel None st = Some st'
    ∧ same_caches st st'
    ∧ selector_visible st' = negb (bool_decide (my_personas st = []))
    ∧ selection_ok st' = selection_ok st.
Proof.
  intros Hfuel. destruct fuel as [|fuel]; [lia|].
  cbn [update_for_stream]. unfold get_my_personas.
  destruct (my_personas st) as [|p l] eqn:Hmy; cbn.
  - eexists; split; [reflexivity|]. unfold selection_ok; cbn.
    rewrite Hmy. by repeat split.
  - eexists; split; [reflexivity|]. unfold selection_ok; cbn.
    rewrite Hmy. by repeat split.
Qed.

Lemma on_personas_changed_ok (fuel : nat) (st : State) :
  (4 ≤ fuel)%nat →
  my_personas_fetched st = true →
  ∃ st', on_personas_changed fuel st = Some st'
    ∧ same_caches st st'
    ∧ selector_visible st' = negb (bool_decide (my_personas st = []))
    ∧ selection_ok st' = true.
Proof.
  intros Hfuel Hfetched. unfold on_personas_changed.
  destruct (update_selector_display_ok fuel st) as (st1&->&Hsame&_&Hok); [lia|].
  cbn. pose proof Hsame as (Hmy&Hf&Hcb&Hs).
  destruct (compose_stream_id st1) as [sid|] eqn:Hsid.
  - destruct (update_for_stream_fetched fuel sid st1) as (st'&->&Hsame'&Hvis&Hok');
      [lia|congruence|].
    exists st'. split; [done|]. split; [by eapply same_caches_trans|].
    rewrite Hvis, Hmy. auto.
  - destruct (update_for_stream_dm fuel st1) as (st'&->&Hsame'&Hvis&Hok');
      [lia|].
    exists st'. split; [done|]. split; [by eapply same_caches_trans|].
    rewrite Hvis, Hmy, Hok'. auto.
Qed.

Lemma filter_keep_all {A} (P : A → Prop) `{∀ x, Decision (P x)} (l : list A) :
  Forall P l → filter P l = l.
Proof.
  induction 1 as [|x l Hx _ IH]; [done|].
  rewrite filter_cons_True by done. by rewrite IH.
Qed.

Lemma filter_drop_all {A} (P : A → Prop) `{∀ x, Decision (P x)} (l : list A) :
  Forall (λ x, ¬ P x) l → filter P l = [].
Proof.
  induction 1 as [|x l Hx _ IH]; [done|].
  by rewrite filter_cons_False.
Qed.

(** With the persona list fetched, the module-level callbacks neither add
    nor remove callbacks, so the loop visits [todo] as it stands. *)
Lemma notify_loop_ok (fuel0 : nat) (todo : list Callback) :
  (4 ≤ fuel0)%nat →
  ∀ (fuel : nat) (st : State),
    (length todo ≤ fuel)%nat →
    my_personas_fetched st = true →
    Forall module_callback todo →
    Forall (λ cb, cb ∈ change_callbacks st) todo →
    ∃ st', personas.notify_loop (run_callback fuel0) fuel todo st = Some st'
      ∧ same_caches st st'
      ∧ (selection_ok st = true → selection_ok st' = true)
      ∧ if decide (ComposeOnPersonasChanged ∈ todo)
        then selection_ok st' = true
             ∧ selector_visible st' = negb (bool_decide (my_personas st = []))
        else selector_visible st' = selector_visible st.
Proof.
  intros Hfuel0. induction todo as [|cb rest IH]; intros fuel st Hlen Hf Hmod Hin.
  { exists st. split; [by destruct fuel|]. split; [apply same_caches_refl|].
    split; [done|]. case_decide as Hcb; [by apply elem_of_nil in Hcb|done]. }
  destruct fuel as [|fuel]; [cbn in Hlen; lia|].
  inversion Hmod as [|? ? Hcb Hmod']; subst.
  inversion Hin as [|? ? _ Hin']; subst.
  assert (∃ st1, run_callback fuel0 cb st = Some st1
            ∧ same_caches st st1
            ∧ (selection_ok st = true → selection_ok st1 = true)
            ∧ if decide (cb = ComposeOnPersonasChanged)
              then selection_ok st1 = true
                   ∧ selector_visible st1
                     = negb (bool_decide (my_personas st = []))
              else selector_visible st1 = selector_visible st)
    as (st1&Hrun&Hsame&Hpres&Hest).
  { destruct Hcb as [->| ->]; cbn.
    - destruct (on_personas_changed_ok fuel0 st) as (st1&->&?&?&?); [done..|].
      exists st1. rewrite decide_True by done. tauto.
    - exists st. split; [done|]. split; [apply same_caches_refl|].
      by rewrite decide_False. }
  cbn [personas.notify_loop]. rewrite Hrun. cbn.
  pose proof Hsame as (Hmy&Hf1&Hcbs&Hs).
  rewrite Hcbs.
  rewrite (filter_keep_all (λ c, c ∈ change_callbacks st) rest) by done.
  rewrite (filter_drop_all (λ c, c ∉ change_callbacks st)); last first.
  { apply Forall_forall. intros c Hc Hn. by apply Hn. }
  rewrite app_nil_r.
  destruct (IH fuel st1) as (st'&->&Hsame'&Hpres'&Hest');
    [cbn in Hlen; lia|congruence|done|by rewrite Hcbs|].
  exists st'. split; [done|]. split; [by eapply same_caches_trans|].
  split; [auto|]. rewrite Hmy in Hest'.
  destruct (decide (ComposeOnPersonasChanged ∈ rest)) as [Hr|Hr].
  - rewrite decide_True by (by apply list_elem_of_further). done.
  - destruct (decide (cb = ComposeOnPersonasChanged)) as [->|Hne].
    + rewrite decide_True by apply list_elem_of_here.
      destruct Hest as [Hok Hvis]. split; [auto|congruence].
    + rewrite decide_False; [congruence|].
      intros [?|?]%elem_of_cons; done.
Qed.

Lemma on_personas_changed_cleared (fuel : nat) (st : State) :
  (4 ≤ fuel)%nat →
  my_personas_fetched st = true →
  selection_cleared st →
  ∃ st', on_personas_changed fuel st = Some st'
    ∧ same_caches st st'
    ∧ selection_cleared st'.
Proof.
  intros Hfuel Hfetched [Hcur Hsticky]. unfold on_personas_changed.
  rewrite update_selector_display_eq by lia. rewrite Hcur. cbn.
  destruct fuel as [|fuel]; [lia|]. cbn [update_for_stream].
  unfold has_fetched_my_personas, get_my_personas. cbn.
  rewrite Hfetched. cbn [negb].
  destruct (compose_stream_id st) as [sid|] eqn:Hsid.
  - destruct (my_personas st) as [|p l] eqn:Hmy.
    { cbn. eexists; split; [reflexivity|]. split; [by repeat split|].
      split; [done|]. cbn. intros ? ? _ _. by rewrite Hmy. }
    rewrite bool_decide_eq_false_2 by done.
    rewrite update_selector_display_eq by lia.
    unfold get_sticky_persona_for_stream in *. cbn.
    destruct (compose_persona_by_stream st !! sid) as [[q|]|] eqn:Hq; cbn.
    + rewrite Hmy, Hsid. rewrite (Hsticky sid q); [|done|by rewrite Hq].
      cbn. eexists; split; [reflexivity|]. split; [by repeat split|].
      split; [done|]. cbn. rewrite Hsid. intros ? ? [= <-].
      unfold get_sticky_persona_for_stream. cbn.
      by rewrite lookup_insert_eq.
    + rewrite Hcur. eexists; split; [reflexivity|]. split; [by repeat split|].
      split; [done|]. cbn. rewrite Hsid. intros ? ? [= <-].
      unfold get_sticky_persona_for_stream. cbn. by rewrite Hq.
    + rewrite Hcur. eexists; split; [reflexivity|]. split; [by repeat split|].
      split; [done|]. cbn. rewrite Hsid. intros ? ? [= <-].
      unfold get_sticky_persona_for_stream. cbn. by rewrite Hq.
  - destruct (bool_decide _); cbn.
    all: eexists; split; [reflexivity|]; split; [by repeat split|].
    all: split; [done|]; cbn; by rewrite Hsid.
Qed.

Lemma notify_loop_cleared (fuel0 : nat) (todo : list Callback) :
  (4 ≤ fuel0)%nat →
  ∀ (fuel : nat) (st : State),
    (length todo ≤ fuel)%nat →
    my_personas_fetched st = true →
    Forall module_callback todo →
    Forall (λ cb, cb ∈ change_callbacks st) todo →
    selection_cleared st →
    ∃ st', personas.notify_loop (run_callback fuel0) fuel todo st = Some st'
      ∧ same_caches st st'
      ∧ selection_cleared st'.
Proof.
  intros Hfuel0. induction todo as [|cb rest IH];
    intros fuel st Hlen Hf Hmod Hin Hclr.
  { exists st. split; [by destruct fuel|]. split; [apply same_caches_refl|done]. }
  destruct fuel as [|fuel]; [cbn in Hlen; lia|].
  inversion Hmod as [|? ? Hcb Hmod']; subst.
  inversion Hin as [|? ? _ Hin']; subst.
  assert (∃ st1, run_callback fuel0 cb st = Some st1
            ∧ same_caches st st1 ∧ selection_cleared st1)
    as (st1&Hrun&Hsame&Hclr1).
  { destruct Hcb as [->| ->]; cbn.
    - by apply on_personas_changed_cleared.
    - exists st. split; [done|]. split; [apply same_caches_refl|done]. }
  cbn [personas.notify_loop]. rewrite Hrun. cbn.
  pose proof Hsame as (Hmy&Hf1&Hcbs&Hs).
  rewrite Hcbs.
  rewrite (filter_keep_all (λ c, c ∈ change_callbacks st) rest) by done.
  rewrite (filter_drop_all (λ c, c ∉ change_callbacks st)); last first.
  { apply Forall_forall. intros c Hc Hn. by apply Hn. }
  rewrite app_nil_r.
  destruct (IH fuel st1) as (st'&->&Hsame'&Hclr');
    [cbn in Hlen; lia|congruence|done|by rewrite Hcbs|done|].
  exists st'. split; [done|]. split; [by eapply same_caches_trans|done].
Qed.

Lemma find_by_id_filter_other (c removed : Z) (l : list MyPersona) :
  c ≠ removed →
  find_by_id c (filter (λ p, id p ≠ removed) l) = find_by_id c l.
Proof.
  intros Hne. induction l as [|p l IH]; [done|].
  destruct (decide (id p = removed)) as [Heq|Hp].
  - rewrite filter_cons_False by (intros ?; done). cbn.
    rewrite decide_False by congruence. done.
  - rewrite filter_cons_True by done. cbn. by rewrite IH.
Qed.

Lemma find_by_id_filter_removed (removed : Z) (l : list MyPersona) :
  find_by_id removed (filter (λ p, id p ≠ removed) l) = None.
Proof.
  induction l as [|p l IH]; [done|].
  destruct (decide (id p = removed)) as [Heq|Hp].
  - by rewrite filter_cons_False by (intros ?; done).
  - rewrite filter_cons_True by done. cbn. by rewrite decide_False.
Qed.

(** How [back_on_stream_state] comes about. *)
Example back_on_stream_state_reached :
  (st1 ← set_current_persona_id 4 (Some 2) (sample_state [gandalf; frodo] None);
   st2 ← on_narrow_changed 4
           (compose_persona_ui.with_compose_stream_id (Some 6) st1);
   st3 ← set_current_persona_id 4 (Some 1) st2;
   Some (compose_persona_ui.with_compose_stream_id (Some 5) st3))
  = Some back_on_stream_state.
Proof. reflexivity. Qed.

Lemma handle_remove_event_eq (fuel : nat) (removed : Z) (st : State) :
  removed ≠ 0 →
  handle_persona_event fuel (remove_event removed) st =
  notify_change fuel
    (mark_realm_personas_stale
       (let st1 :=
          with_my_personas (filter (λ p, id p ≠ removed) (my_personas st)) st in
        if decide (current_compose_persona_id st1 = Some removed)
        then with_current_compose_persona_id None st1 else st1)).
Proof.
  intros Hnz. unfold handle_persona_event, personas.handle_persona_event.
  cbn. destruct (Z.eqb_spec removed 0); [done|]. done.
Qed.

(** C6.  A compose selection that names a persona missing from the user's
    list is reset to Yourself (null) by the display update, without an
    error.  When the selected persona is removed by a [remove] event, the
    handler and the callbacks it notifies return with a selection that does
    not dangle: it is Yourself or a listed persona, never the removed one,
    and it is Yourself whenever the compose stream has no sticky selection
    of another persona. *)
Theorem missing_persona_resets_selection (fuel : nat) (st : State) (c : Z) :
  (4 ≤ fuel)%nat →
  current_compose_persona_id st = Some c →
  (find_by_id c (my_personas st) = None →
   ∃ st', update_selector_display fuel st = Some st'
     ∧ current_compose_persona_id st' = None
     ∧ selector_button st' = ButtonYourself
     ∧ my_personas st' = my_personas st)
  ∧ (c ≠ 0 →
     my_personas_fetched st = true →
     Forall module_callback (change_callbacks st) →
     (length (change_callbacks st) ≤ fuel)%nat →
     ∃ st', handle_persona_event fuel (remove_event c) st = Some st'
       ∧ my_personas st' = filter (λ p, id p ≠ c) (my_personas st)
       ∧ find_by_id c (my_personas st') = None
       ∧ selection_ok st' = true
       ∧ current_compose_persona_id st' ≠ Some c
       ∧ ((∀ sid q, compose_stream_id st = Some sid →
             get_sticky_persona_for_stream sid st = Some q → q = c) →
          current_compose_persona_id st' = None)).
Proof.
  intros Hfuel Hcur. split.
  - intros Hmissing. rewrite update_selector_display_eq by lia.
    rewrite Hcur, Hmissing. eexists; split; [reflexivity|].
    by destruct (compose_stream_id st).
  - intros Hnz Hfetched Hmod Hlen.
    rewrite handle_remove_event_eq by done. cbn zeta.
    match goal with
    | |- ∃ st', notify_change fuel ?s = _ ∧ _ => set (st1 := s)
    end.
    assert (my_personas st1 = filter (λ p, id p ≠ c) (my_personas st)
            ∧ my_personas_fetched st1 = true
            ∧ change_callbacks st1 = change_callbacks st
            ∧ current_compose_persona_id st1 = None
            ∧ compose_stream_id st1 = compose_stream_id st
            ∧ compose_persona_by_stream st1 = compose_persona_by_stream st)
      as (Hmy1&Hf1&Hcb1&Hcur1&Hs1&Hby1).
    { subst st1. unfold mark_realm_personas_stale. cbn.
      rewrite Hcur. rewrite decide_True by done. cbn.
      destruct (realm_personas_fetched st); cbn; done. }
    unfold notify_change, personas.notify_change.
    assert (Forall module_callback (change_callbacks st1)) as Hmod1
      by (by rewrite Hcb1).
    assert (Forall (λ cb, cb ∈ change_callbacks st1) (change_callbacks st1))
      as Hin1 by (apply Forall_forall; auto).
    assert (length (change_callbacks st1) ≤ fuel)%nat as Hlen1
      by (by rewrite Hcb1).
    destruct (notify_loop_ok fuel (change_callbacks st1) Hfuel fuel st1)
      as (st'&Hrun&(Hmy'&_)&Hok&_); [done..|].
    exists st'. split; [done|]. rewrite Hmy', Hmy1.
    assert (selection_ok st' = true) as Hok'.
    { apply Hok. unfold selection_ok. by rewrite Hcur1. }
    split; [done|]. split; [apply find_by_id_filter_removed|].
    split; [done|]. split.
    + intros Hc. unfold selection_ok in Hok'. rewrite Hc, Hmy', Hmy1 in Hok'.
      by rewrite find_by_id_filter_removed in Hok'.
    + intros Hsticky.
      destruct (notify_loop_cleared fuel (change_callbacks st1) Hfuel fuel st1)
        as (st''&Hrun'&_&Hcur''&_); [done..| |].
      * split; [done|]. intros sid q Hsid Hq. rewrite Hmy1.
        rewrite Hs1 in Hsid. unfold get_sticky_persona_for_stream in Hq.
        rewrite Hby1 in Hq. rewrite (Hsticky sid q Hsid Hq).
        apply find_by_id_filter_removed.
      * rewrite Hrun in Hrun'. by injection Hrun' as <-.
Qed.

Lemma missing_persona_resets_selection_witness :
  (∃ st', update_selector_display 4 (sample_state [frodo] (Some 1)) = Some st'
     ∧ current_compose_persona_id st' = None
     ∧ selector_button st' = ButtonYourself
     ∧ my_personas st' = [frodo])
  ∧ (∃ st', handle_persona_event 4 (remove_event 1)
              (sample_state [gandalf; frodo] (Some 1)) = Some st'
       ∧ my_personas st' = [frodo]
       ∧ selection_ok st' = true
       ∧ current_compose_persona_id st' = None).
Proof.
  split.
  - apply (missing_persona_resets_selection 4
             (sample_state [frodo] (Some 1)) 1); [lia|reflexivity|reflexivity].
  - destruct (missing_persona_resets_selection 4
                (sample_state [gandalf; frodo] (Some 1)) 1) as [_ Hremove].
    + lia.
    + reflexivity.
    + destruct Hremove as (st'&Hrun&Hmy&_&Hok&_&Hnone).
      * lia.
      * reflexivity.
      * constructor; [left; reflexivity|].
        constructor; [right; reflexivity|constructor].
      * cbn. lia.
      * exists st'. split; [exact Hrun|]. split; [exact Hmy|].
        split; [exact Hok|]. apply Hnone.
        intros sid q Hsid. injection Hsid as <-. vm_compute.
        intros Hq. injection Hq as <-. reflexivity.
Defined.

(** The hypothesis that the persona list has been fetched matters.  While
    the request is in flight, [update_for_stream] answers a notification by
    registering a one-time callback; the [Set] being iterated then has a new
    member, whose turn registers the next one, and so on: with the compose
    box on a stream, [notify_change] does not return, whatever the fuel. *)
Lemma update_selector_display_frame (fuel : nat) (st st' : State) :
  update_selector_display fuel st = Some st' →
  my_personas_fetched st' = my_personas_fetched st
  ∧ my_personas_pending st' = my_personas_pending st
  ∧ change_callbacks st' = change_callbacks st
  ∧ next_serial st' = next_serial st
  ∧ compose_stream_id st' = compose_stream_id st.
Proof.
  destruct fuel as [|[|[|fuel]]].
  - done.
  - cbn. unfold get_compose_persona_id, get_my_personas.
    destruct (current_compose_persona_id st) as [c|];
      [|intros [= <-]; by repeat split].
    destruct (find_by_id c (my_personas st));
      [intros [= <-]; by repeat split|done].
  - cbn. unfold get_compose_persona_id, get_my_personas.
    destruct (current_compose_persona_id st) as [c|];
      [|intros [= <-]; by repeat split].
    destruct (find_by_id c (my_personas st));
      [intros [= <-]; by repeat split|done].
  - rewrite update_selector_display_eq by lia. intros [= <-].
    destruct (current_compose_persona_id st) as [c|]; [|by repeat split].
    destruct (find_by_id c (my_personas st)); [by repeat split|].
    destruct (compose_stream_id st) eqn:Hs; by repeat split.
Qed.

Lemma one_time_not_registered (n m : nat) (k : Continuation) :
  (m < n)%nat →
  OneTime n k ∉ [ComposeOnPersonasChanged; OneTime m k].
Proof.
  intros Hlt. rewrite !not_elem_of_cons. split; [done|].
  split; [|apply not_elem_of_nil]. intros [= ->]. lia.
Qed.

Lemma unregister_one_time (n m : nat) (k : Continuation) :
  (m < n)%nat →
  filter (λ c, c ≠ OneTime m k)
    [ComposeOnPersonasChanged; OneTime m k; OneTime n k]
  = [ComposeOnPersonasChanged; OneTime n k].
Proof.
  intros Hlt. rewrite filter_cons_True by done.
  rewrite filter_cons_False by (intros Hc; by apply Hc).
  rewrite filter_cons_True by (intros [= ->]; lia). done.
Qed.

Lemma added_one_time (n m : nat) (k : Continuation) :
  (m < n)%nat →
  filter (λ c, c ∉ [ComposeOnPersonasChanged; OneTime m k])
    [ComposeOnPersonasChanged; OneTime n k]
  = [OneTime n k].
Proof.
  intros Hlt.
  rewrite filter_cons_False by (intros Hc; apply Hc; apply list_elem_of_here).
  rewrite filter_cons_True by (by apply one_time_not_registered). done.
Qed.

(** While the request is pending, [update_for_stream] for a stream only
    registers one more one-time callback. *)
Lemma update_for_stream_pending (fuel : nat) (s : Z) (st : State) :
  my_personas_fetched st = false →
  my_personas_pending st = true →
  update_for_stream (S fuel) (Some s) st
  = Some (register_change_callback
            (OneTime (next_serial st) (KUpdateForStream s))
            (with_change_callbacks (change_callbacks st)
               (S (next_serial st)) st)).
Proof.
  intros Hf Hp. cbn [update_for_stream]. unfold has_fetched_my_personas.
  rewrite Hf. cbn [negb]. unfold fetch_my_personas. by rewrite Hf, Hp.
Qed.

Lemma notify_loop_one_time_diverges (fuel0 : nat) (s : Z) (fuel : nat) :
  ∀ (st : State) (m : nat),
    my_personas_fetched st = false →
    my_personas_pending st = true →
    change_callbacks st
    = [ComposeOnPersonasChanged; OneTime m (KUpdateForStream s)] →
    (m < next_serial st)%nat →
    personas.notify_loop (run_callback fuel0) fuel
      [OneTime m (KUpdateForStream s)] st = None.
Proof.
  induction fuel as [|fuel IH]; intros st m Hf Hp Hcbs Hm; [done|].
  cbn [personas.notify_loop run_callback run_continuation].
  destruct fuel0 as [|fuel0']; [done|].
  rewrite update_for_stream_pending by done.
  cbn [mbind option_bind]. unfold register_change_callback.
  cbn [change_callbacks with_change_callbacks next_serial].
  rewrite Hcbs.
  rewrite decide_False by (by apply one_time_not_registered).
  unfold unregister_change_callback.
  cbn [change_callbacks with_change_callbacks next_serial app].
  rewrite unregister_one_time by done. rewrite added_one_time by done.
  rewrite filter_nil. cbn [app].
  apply IH; cbn; [done|done|done|lia].
Qed.

Lemma notify_change_while_fetch_pending (fuel : nat) (s : Z) (st : State) :
  my_personas_fetched st = false →
  my_personas_pending st = true →
  compose_stream_id st = Some s →
  change_callbacks st = [ComposeOnPersonasChanged] →
  notify_change fuel st = None.
Proof.
  intros Hf Hp Hs Hcbs. unfold notify_change, personas.notify_change.
  rewrite Hcbs. destruct fuel as [|fuel]; [done|].
  cbn [personas.notify_loop run_callback]. unfold on_personas_changed.
  destruct (update_selector_display (S fuel) st) as [st1|] eqn:Hdisp; [|done].
  apply update_selector_display_frame in Hdisp as (Hf1&Hp1&Hcbs1&Hn1&Hs1).
  cbn [mbind option_bind]. rewrite Hs1, Hs.
  rewrite update_for_stream_pending by congruence.
  cbn [mbind option_bind]. unfold register_change_callback.
  cbn [change_callbacks with_change_callbacks next_serial].
  rewrite Hcbs1, Hcbs.
  rewrite decide_False by (by intros [?|?%elem_of_nil]%elem_of_cons).
  cbn [change_callbacks with_change_callbacks next_serial app].
  rewrite filter_nil.
  rewrite filter_cons_False by (intros Hc; apply Hc; apply list_elem_of_here).
  rewrite filter_cons_True by (by intros [?|?%elem_of_nil]%elem_of_cons).
  rewrite filter_nil. cbn [app].
  apply notify_loop_one_time_diverges; cbn; [congruence..|lia].
Qed.

(** The selection is not always reset to Yourself when the selected
    persona is removed: with the compose box on a stream whose sticky
    selection is another persona, [update_for_stream], which the compose
    callback runs after the removal, restores that persona. *)
Lemma removed_persona_gives_way_to_sticky_counterexample :
  ¬ (∀ (st : State) (c : Z),
       current_compose_persona_id st = Some c →
       c ≠ 0 →
       my_personas_fetched st = true →
       Forall module_callback (change_callbacks st) →
       (length (change_callbacks st) ≤ 4)%nat →
       ∃ st', handle_persona_event 4 (remove_event c) st = Some st'
         ∧ current_compose_persona_id st' = None).
Proof.
  intros Hclaim.
  destruct (Hclaim back_on_stream_state 1) as (st'&Hrun&Hcur).
  - reflexivity.
  - discriminate.
  - reflexivity.
  - constructor; [left; reflexivity|].
    constructor; [right; reflexivity|constructor].
  - cbn. lia.
  - vm_compute in Hrun. injection Hrun as <-. vm_compute in Hcur.
    discriminate Hcur.
Qed.

(** What the handler leaves in that state: Frodo, the sticky selection of
    stream 5, is selected and shown on the button. *)
Example removed_persona_gives_way_to_sticky :
  ∃ st', handle_persona_event 4 (remove_event 1) back_on_stream_state = Some st'
    ∧ my_personas st' = [frodo]
    ∧ current_compose_persona_id st' = Some 2
    ∧ selector_button st' = ButtonPersona frodo.
Proof. eexists. split; [by vm_compute|]. by vm_compute. Qed.

(** C7.  With the user's persona list fetched, updating the compose box for
    a stream hides the persona selector when the list is empty and shows it
    otherwise; so a [remove] event that deletes the last persona hides the
    selector as soon as the compose box, which listens to the change, has
    been notified. *)
Theorem selector_hidden_iff_no_personas (fuel : nat) (sid : Z) (st : State) :
  (4 ≤ fuel)%nat →
  my_personas_fetched st = true →
  (∃ st', update_for_stream fuel (Some sid) st = Some st'
     ∧ selector_visible st' = negb (bool_decide (my_personas st = []))
     ∧ my_personas st' = my_personas st)
  ∧ (∀ removed,
       removed ≠ 0 →
       Forall module_callback (change_callbacks st) →
       ComposeOnPersonasChanged ∈ change_callbacks st →
       (length (change_callbacks st) ≤ fuel)%nat →
       ∃ st', handle_persona_event fuel (remove_event removed) st = Some st'
         ∧ my_personas st' = filter (λ p, id p ≠ removed) (my_personas st)
         ∧ selector_visible st' = negb (bool_decide (my_personas st' = []))).
Proof.
  intros Hfuel Hfetched. split.
  - destruct (update_for_stream_fetched fuel sid st) as (st'&->&Hsame&Hvis&_);
      [done..|].
    exists st'. split; [done|]. split; [done|]. apply Hsame.
  - intros removed Hnz Hmod Hin Hlen.
    rewrite handle_remove_event_eq by done. cbn zeta.
    match goal with
    | |- ∃ st', notify_change fuel ?s = _ ∧ _ => set (st1 := s)
    end.
    assert (my_personas st1 = filter (λ p, id p ≠ removed) (my_personas st)
            ∧ my_personas_fetched st1 = true
            ∧ change_callbacks st1 = change_callbacks st) as (Hmy1&Hf1&Hcb1).
    { subst st1. unfold mark_realm_personas_stale. cbn.
      destruct (decide _); cbn; destruct (realm_personas_fetched st); cbn; done. }
    unfold notify_change, personas.notify_change.
    destruct (notify_loop_ok fuel (change_callbacks st1) Hfuel fuel st1)
      as (st'&->&(Hmy'&_)&_&Hest).
    + by rewrite Hcb1.
    + done.
    + by rewrite Hcb1.
    + apply Forall_forall. auto.
    + rewrite decide_True in Hest by (by rewrite Hcb1).
      exists st'. split; [done|]. rewrite Hmy', Hmy1.
      split; [done|]. destruct Hest as [_ ->]. by rewrite Hmy1.
Qed.

Lemma selector_hidden_iff_no_personas_witness :
  (∃ st', update_for_stream 4 (Some 5) (sample_state [] None) = Some st'
     ∧ selector_visible st' = false
     ∧ my_personas st' = [])
  ∧ (∃ st', handle_persona_event 4 (remove_event 2)
              (sample_state [frodo] None) = Some st'
       ∧ my_personas st' = []
       ∧ selector_visible st' = negb (bool_decide (my_personas st' = []))).
Proof.
  split.
  - apply (selector_hidden_iff_no_personas 4 5 (sample_state [] None));
      [lia|reflexivity].
  - apply (selector_hidden_iff_no_personas 4 5 (sample_state [frodo] None)).
    + lia.
    + reflexivity.
    + lia.
    + constructor; [left; reflexivity|].
      constructor; [right; reflexivity|constructor].
    + apply list_elem_of_here.
    + cbn. lia.
Defined.

Lemma findIndex_by_id_lookup (l : list MyPersona) (i : nat) (p : MyPersona) :
  NoDup (id <$> l) →
  l !! i = Some p →
  findIndex_by_id (id p) l = Some i.
Proof.
  revert i. induction l as [|x l IH]; intros i Hnd Hi; [done|].
  apply NoDup_cons in Hnd as [Hx Hnd]. destruct i as [|i]; cbn in *.
  - injection Hi as ->. by rewrite decide_True.
  - rewrite decide_False.
    + by rewrite (IH i Hnd Hi).
    + intros Heq. apply Hx. rewrite Heq.
      apply list_elem_of_fmap. exists p. split; [done|].
      by eapply list_elem_of_lookup_2.
Qed.

Lemma cycle_order_lookup_S (l : list MyPersona) (i : nat) (sel : option Z) :
  cycle_order l !! S i = Some sel →
  ∃ p, l !! i = Some p ∧ sel = Some (id p).
Proof.
  unfold cycle_order. change ((None :: (?f <$> l)) !! S i) with ((f <$> l) !! i).
  rewrite list_lookup_fmap.
  destruct (l !! i) as [p|]; [|done]. cbn. intros [= <-]. by exists p.
Qed.

(** One call moves the selection one place along [cycle_order], wrapping
    from the last persona to Yourself. *)
Lemma cycle_persona_step (fuel : nat) (st : State) (k : nat) :
  (2 ≤ fuel)%nat →
  NoDup (id <$> my_personas st) →
  my_personas st ≠ [] →
  cycle_order (my_personas st) !! k = Some (current_compose_persona_id st) →
  ∃ st', cycle_persona fuel st = Some st'
    ∧ my_personas st' = my_personas st
    ∧ cycle_order (my_personas st)
        !! ((k + 1) mod (length (my_personas st) + 1))%nat
      = Some (current_compose_persona_id st').
Proof.
  intros Hfuel Hnd Hne Hk. unfold cycle_persona, get_my_personas,
    get_compose_persona_id.
  destruct (my_personas st) as [|first rest] eqn:Hmy; [done|].
  rewrite <- Hmy in *.
  assert (length (my_personas st) = S (length rest)) as Hlen
    by (by rewrite Hmy).
  destruct k as [|i].
  - cbn in Hk. injection Hk as <-.
    destruct (set_current_persona_id_listed fuel first st)
      as (st'&->&(Hmy'&_)&Hcur'); [done|rewrite Hmy; apply list_elem_of_here|].
    exists st'. split; [done|]. split; [done|].
    rewrite Nat.mod_small by lia. rewrite Hcur'. by rewrite Hmy.
  - apply cycle_order_lookup_S in Hk as (p&Hp&Hcur). rewrite Hcur.
    rewrite (findIndex_by_id_lookup _ i p Hnd Hp).
    pose proof (lookup_lt_Some _ _ _ Hp) as Hlt.
    case_decide as Hlast.
    + destruct (set_current_persona_id_null fuel st)
        as (st'&->&(Hmy'&_)&Hcur'); [done|].
      exists st'. split; [done|]. split; [done|].
      replace (S i + 1)%nat with (length (my_personas st) + 1)%nat by lia.
      rewrite Nat.Div0.mod_same. by rewrite Hcur'.
    + destruct (my_personas st !! (i + 1)%nat) as [next|] eqn:Hnext; last first.
      { apply lookup_ge_None in Hnext. lia. }
      destruct (set_current_persona_id_listed fuel next st)
        as (st'&->&(Hmy'&_)&Hcur'); [done|by eapply list_elem_of_lookup_2|].
      exists st'. split; [done|]. split; [done|].
      rewrite Nat.mod_small by lia. rewrite Hcur'.
      replace (S i + 1)%nat with (S (i + 1)) by lia.
      unfold cycle_order.
      change ((None :: (?f <$> ?l)) !! S ?j) with ((f <$> l) !! j).
      rewrite list_lookup_fmap, Hnext. done.
Qed.

Lemma cycle_persona_n_position (fuel : nat) (times : nat) :
  (2 ≤ fuel)%nat →
  ∀ (st : State) (k : nat),
    NoDup (id <$> my_personas st) →
    my_personas st ≠ [] →
    cycle_order (my_personas st) !! k = Some (current_compose_persona_id st) →
    ∃ st', cycle_persona_n fuel times st = Some st'
      ∧ my_personas st' = my_personas st
      ∧ cycle_order (my_personas st)
          !! ((k + times) mod (length (my_personas st) + 1))%nat
        = Some (current_compose_persona_id st').
Proof.
  intros Hfuel. induction times as [|times IH]; intros st k Hnd Hne Hk.
  - exists st. split; [done|]. split; [done|].
    pose proof (lookup_lt_Some _ _ _ Hk) as Hlt. unfold cycle_order in Hlt.
    cbn in Hlt. rewrite length_fmap in Hlt.
    rewrite Nat.add_0_r, Nat.mod_small by lia. done.
  - destruct (cycle_persona_step fuel st k) as (st1&Hstep&Hmy1&Hk1); [done..|].
    cbn [cycle_persona_n]. rewrite Hstep. cbn.
    destruct (IH st1 ((k + 1) mod (length (my_personas st) + 1))%nat)
      as (st'&->&Hmy'&Hk'); [by rewrite Hmy1..|].
    exists st'. split; [done|]. split; [congruence|].
    rewrite Hmy1 in Hk'. rewrite Nat.Div0.add_mod_idemp_l in Hk'.
    by replace (k + S times)%nat with (k + 1 + times)%nat by lia.
Qed.

(** C8 (as amended).  For a persona list with pairwise distinct ids,
    [cycle_persona] steps through Yourself, the first persona, ..., the last
    persona and back to Yourself; [n + 1] calls bring the selection back to
    where it started; with no personas the call changes nothing. *)
Theorem cycle_persona_round_trip (fuel : nat) (st : State) (k : nat) :
  (2 ≤ fuel)%nat →
  NoDup (id <$> my_personas st) →
  my_personas st ≠ [] →
  cycle_order (my_personas st) !! k = Some (current_compose_persona_id st) →
  (∃ st', cycle_persona fuel st = Some st'
     ∧ my_personas st' = my_personas st
     ∧ cycle_order (my_personas st)
         !! ((k + 1) mod (length (my_personas st) + 1))%nat
       = Some (current_compose_persona_id st'))
  ∧ (∃ st', cycle_persona_n fuel (length (my_personas st) + 1) st = Some st'
       ∧ my_personas st' = my_personas st
       ∧ current_compose_persona_id st' = current_compose_persona_id st)
  ∧ (∀ st0, my_personas st0 = [] → cycle_persona fuel st0 = Some st0).
Proof.
  intros Hfuel Hnd Hne Hk. split; [by apply cycle_persona_step|]. split.
  - destruct (cycle_persona_n_position fuel (length (my_personas st) + 1)
                Hfuel st k) as (st'&->&Hmy'&Hk'); [done..|].
    exists st'. split; [done|]. split; [done|].
    pose proof (lookup_lt_Some _ _ _ Hk) as Hlt. unfold cycle_order in Hlt.
    cbn in Hlt. rewrite length_fmap in Hlt.
    replace (k + (length (my_personas st) + 1))%nat
      with (k + 1 * (length (my_personas st) + 1))%nat in Hk' by lia.
    rewrite Nat.Div0.mod_add, Nat.mod_small in Hk' by lia. congruence.
  - intros st0 Hempty. unfold cycle_persona, get_my_personas.
    by rewrite Hempty.
Qed.

Lemma cycle_persona_round_trip_witness :
  (∃ st', cycle_persona 2 (sample_state [gandalf; frodo] (Some 2)) = Some st'
     ∧ my_personas st' = [gandalf; frodo]
     ∧ cycle_order [gandalf; frodo] !! 0%nat
       = Some (current_compose_persona_id st'))
  ∧ (∃ st', cycle_persona_n 2 3 (sample_state [gandalf; frodo] (Some 2))
            = Some st'
       ∧ my_personas st' = [gandalf; frodo]
       ∧ current_compose_persona_id st' = Some 2)
  ∧ (∀ st0, my_personas st0 = [] → cycle_persona 2 st0 = Some st0).
Proof.
  apply (cycle_persona_round_trip 2
           (sample_state [gandalf; frodo] (Some 2)) 2).
  - lia.
  - cbn. repeat constructor; rewrite ?elem_of_cons, ?elem_of_nil; intros H.
    + destruct H as [H|H]; [discriminate H|exact H].
    + exact H.
  - discriminate.
  - reflexivity.
Defined.

(** The claim about [cycle_persona] fails for a list in which two entries
    share an id, which [handle_persona_event] builds when an [add] event
    repeats a persona already listed: [findIndex] stops at the first entry
    with the id, so the cycle never gets past the second one. *)
Lemma cycle_persona_duplicate_id_counterexample :
  ¬ (∀ (st : State),
       my_personas st ≠ [] →
       current_compose_persona_id st ∈ cycle_order (my_personas st) →
       ∃ st', cycle_persona_n 4 (length (my_personas st) + 1) st = Some st'
         ∧ current_compose_persona_id st' = current_compose_persona_id st).
Proof.
  intros Hclaim.
  destruct (Hclaim (sample_state [gandalf; frodo; gandalf_the_grey] None))
    as (st'&Hrun&Hcur).
  - discriminate.
  - apply list_elem_of_here.
  - vm_compute in Hrun. injection Hrun as <-. vm_compute in Hcur.
    discriminate Hcur.
Qed.

End compose_persona_facts.

(** ** The two whisper recipient pill modules *)
Module whisper_facts.
Import whisper whisper_compare.

(** With no puppet id to add, [set_from_puppet_ids] changes nothing, whether
    or not a stream is set. *)
Lemma set_from_no_puppet_ids {W} (env : Env W) (st : whisper_puppets.State W) :
  whisper_puppets.set_from_puppet_ids env [] st = st.
Proof.
  unfold whisper_puppets.set_from_puppet_ids.
  destruct st as [[w|] [stream_id|] ? ? ?]; done.
Qed.

(** C10.  On ids that contain no puppets the puppet-aware module does what
    the plain module does: [set_from_user_and_group_ids(user_ids, group_ids)]
    is [set_from_all_ids(user_ids, group_ids, [])], and, started on the same
    widget, it leaves the same widget (so the same pill items) and the same
    recipients in the compose state as the plain module's
    [set_from_user_and_group_ids]. *)
Theorem set_from_user_and_group_ids_agree {W} (env : Env W)
    (user_ids group_ids : list Z)
    (sp : whisper_puppets.State W) (sl : whisper_plain.State W) :
  whisper_puppets.widget sp = whisper_plain.widget sl →
  (whisper_plain.widget sl = None → agree sp sl) →
  whisper_puppets.set_from_user_and_group_ids env user_ids group_ids sp
  = whisper_puppets.set_from_all_ids env user_ids group_ids [] sp
  ∧ agree (whisper_puppets.set_from_user_and_group_ids env user_ids group_ids sp)
          (whisper_plain.set_from_user_and_group_ids env user_ids group_ids sl)
  ∧ (items env <$>
       whisper_puppets.widget
         (whisper_puppets.set_from_user_and_group_ids env user_ids group_ids sp))
    = (items env <$>
         whisper_plain.widget
           (whisper_plain.set_from_user_and_group_ids env user_ids group_ids sl)).
Proof.
  intros Hw Hnone.
  assert (agree
            (whisper_puppets.set_from_user_and_group_ids env user_ids group_ids sp)
            (whisper_plain.set_from_user_and_group_ids env user_ids group_ids sl))
    as Hagree.
  { unfold whisper_puppets.set_from_user_and_group_ids,
      whisper_puppets.set_from_all_ids,
      whisper_plain.set_from_user_and_group_ids.
    rewrite Hw. destruct (whisper_plain.widget sl) as [w|] eqn:Hwl.
    - rewrite set_from_no_puppet_ids. unfold agree. cbn. by repeat split.
    - by apply Hnone. }
  split; [done|]. split; [done|]. destruct Hagree as [-> _]. done.
Qed.

Lemma set_from_user_and_group_ids_agree_witness :
  whisper_puppets.set_from_user_and_group_ids sample_env [10; 11] [20]
    sample_puppet_state
  = whisper_puppets.set_from_all_ids sample_env [10; 11] [20] []
      sample_puppet_state
  ∧ agree (whisper_puppets.set_from_user_and_group_ids sample_env [10; 11] [20]
             sample_puppet_state)
          (whisper_plain.set_from_user_and_group_ids sample_env [10; 11] [20]
             sample_plain_state)
  ∧ (items sample_env <$>
       whisper_puppets.widget
         (whisper_puppets.set_from_user_and_group_ids sample_env [10; 11] [20]
            sample_puppet_state))
    = (items sample_env <$>
         whisper_plain.widget
           (whisper_plain.set_from_user_and_group_ids sample_env [10; 11] [20]
              sample_plain_state)).
Proof.
  apply (set_from_user_and_group_ids_agree sample_env [10; 11] [20]
           sample_puppet_state sample_plain_state).
  - reflexivity.
  - discriminate.
Defined.

(** Typed text that names no puppet of the stream (or with no stream set)
    becomes the same pill in both modules. *)
Lemma create_item_from_text_no_puppets {W} (env : Env W)
    (st : whisper_puppets.State W) (text : string)
    (current_items : list WhisperPill) :
  (∀ stream_id, whisper_puppets.current_stream_id st = Some stream_id →
     get_puppets_for_stream env stream_id = []) →
  whisper_puppets.create_item_from_text env st text current_items
  = whisper_plain.create_item_from_text env text current_items.
Proof.
  intros Hnone.
  unfold whisper_puppets.create_item_from_text,
    whisper_plain.create_item_from_text.
  destruct (whisper_puppets.current_stream_id st) as [stream_id|]; [|done].
  by rewrite (Hnone stream_id eq_refl).
Qed.

Lemma clear_agree {W} (env : Env W) (sp : whisper_puppets.State W)
    (sl : whisper_plain.State W) :
  whisper_puppets.widget sp = whisper_plain.widget sl →
  agree (whisper_puppets.clear env sp) (whisper_plain.clear env sl).
Proof.
  unfold whisper_puppets.clear, whisper_plain.clear, agree.
  destruct sp as [wp ? ? ? ?], sl as [wl ? ?]. cbn. intros ->.
  destruct wl; cbn; by repeat split.
Qed.

(** With a container that is the list of its pills, both modules end with
    the pills of the known users, then those of the known groups, and with
    the ids as passed. *)
Example set_from_user_and_group_ids_sample :
  whisper_plain.set_from_user_and_group_ids sample_env [10; 11] [20]
    sample_plain_state
  = whisper_plain.mkState
      (Some [Combined (UserPill (mkUser 10 "Desdemona"));
             Combined (UserGroupPill (mkUserGroup 20 "hamlet"))])
      [10; 11] [20]
  ∧ whisper_puppets.set_from_user_and_group_ids sample_env [10; 11] [20]
      sample_puppet_state
    = whisper_puppets.mkState
        (Some [Combined (UserPill (mkUser 10 "Desdemona"));
               Combined (UserGroupPill (mkUserGroup 20 "hamlet"))])
        (Some 5) [10; 11] [20] [].
Proof. split; reflexivity. Qed.

End whisper_facts.

(** ** Delivery of interaction events *)
Module bot_interactions_facts.
Import bot_interactions.








(** [test_command_invocation_delivery]: after the bot server is reset and
    the command is sent, the request the test finds among those the test
    bot has recorded is the invocation, and it passes the assertions of the
    test.  The test looks for the first such request, so it passes as well
    when the invocation arrives twice. *)
Example test_command_invocation_delivery :
  ∃ srv1,
    submit_command 7 "testcmd" test_arguments desdemona
      (initial_server test_bots test_commands) = Some srv1
    ∧ ∃ invocation,
        requests_at "http://127.0.0.1:9877" (run (deliver_after 0) srv1).2
        = [invocation]
        ∧ requests_at "http://127.0.0.1:9877" (run (deliver_after 1) srv1).2
          = [invocation; invocation]
        ∧ find_command_invocation
            (requests_at "http://127.0.0.1:9877"
               (run (deliver_after 0) srv1).2)
          = Some invocation
        ∧ find_command_invocation
            (requests_at "http://127.0.0.1:9877"
               (run (deliver_after 1) srv1).2)
          = Some invocation
        ∧ get "type" invocation = Some (JString "command_invocation")
        ∧ get "command" invocation = Some (JString "testcmd")
        ∧ (get "arguments" invocation ≫= get "message")
          = Some (JString "hello world")
        ∧ (get "arguments" invocation ≫= get "count") = Some (JString "3")
        ∧ get "interaction_id" invocation = Some (JString "0")
        ∧ is_Some (get "user" invocation).
Proof.
  eexists. split; [reflexivity|]. eexists. split; [by vm_compute|].
  vm_compute. repeat split; eauto.
Qed.

(** *** Interaction ids *)

Lemma step_keeps_ids_below_counter (a : Action) (srv : Server) :
  ids_below_counter srv → ids_below_counter (step a srv).2.
Proof.
  intros Hinv. unfold ids_below_counter in *.
  destruct a as [bot command arguments user|bot widget_id arguments user|
                 acknowledged|bot interaction_id]; cbn.
  - unfold submit_command. case_decide; cbn; [|done].
    intros i k [owner Hi] ->. apply lookup_insert_Some in Hi as [[Heq _]|[_ Hi]].
    + apply (inj pretty) in Heq. lia.
    + assert (k < next_interaction srv)%nat; [|lia]. by eapply Hinv.
  - intros i k [owner Hi] ->. apply lookup_insert_Some in Hi as [[Heq _]|[_ Hi]].
    + apply (inj pretty) in Heq. lia.
    + assert (k < next_interaction srv)%nat; [|lia]. by eapply Hinv.
  - unfold worker_step. destruct (queue srv); cbn; done.
  - unfold respond.
    destruct (open_interactions srv !! interaction_id) as [owner|]; [|done].
    case_decide; cbn; [|done].
    intros i k [o Hi] ->. apply lookup_delete_Some in Hi as [_ Hi].
    by eapply Hinv.
Qed.

(** An id that is closed and that the counter has passed stays closed: no
    later answer with it is accepted. *)
Lemma closed_id_never_consumed (interaction_id : string)
    (actions : list Action) :
  ∀ srv,
    open_interactions srv !! interaction_id = None →
    (∀ k, interaction_id = pretty k → (k < next_interaction srv)%nat) →
    consumptions interaction_id (run actions srv).1 = 0%nat.
Proof.
  induction actions as [|a actions IH]; intros srv Hclosed Hpast; [done|].
  cbn [run]. destruct (step a srv) as [o srv1] eqn:Hstep.
  destruct (run actions srv1) as [os srv2] eqn:Hrun. cbn [fst].
  assert (consumed interaction_id o = false
          ∧ open_interactions srv1 !! interaction_id = None
          ∧ ∀ k, interaction_id = pretty k → (k < next_interaction srv1)%nat)
    as (Ho&Hclosed1&Hpast1).
  { destruct a as [bot command arguments user|bot widget_id arguments user|
                   acknowledged|bot i]; cbn in Hstep.
    - unfold submit_command in Hstep. case_decide; injection Hstep as <- <-.
      + cbn. split; [done|]. split.
        * rewrite lookup_insert_ne; [done|]. intros Heq.
          specialize (Hpast _ (eq_sym Heq)). lia.
        * intros k Hk. specialize (Hpast k Hk). lia.
      + done.
    - injection Hstep as <- <-. cbn. split; [done|]. split.
      + rewrite lookup_insert_ne; [done|]. intros Heq.
        specialize (Hpast _ (eq_sym Heq)). lia.
      + intros k Hk. specialize (Hpast k Hk). lia.
    - unfold worker_step in Hstep.
      destruct (queue srv); injection Hstep as <- <-; done.
    - unfold respond in Hstep.
      destruct (open_interactions srv !! i) as [owner|] eqn:Hi.
      + case_decide; injection Hstep as <- <-; cbn.
        * split; [apply bool_decide_eq_false_2; congruence|].
          split; [|done]. by apply lookup_delete_None; right.
        * done.
      + injection Hstep as <- <-. done. }
  unfold consumptions in *.
  rewrite filter_cons_False by (rewrite Ho; done).
  specialize (IH srv1 Hclosed1 Hpast1). by rewrite Hrun in IH.
Qed.

Lemma consumed_at_most_once_from (interaction_id : string)
    (actions : list Action) :
  ∀ srv,
    ids_below_counter srv →
    (consumptions interaction_id (run actions srv).1 ≤ 1)%nat.
Proof.
  induction actions as [|a actions IH]; intros srv Hinv; [cbn; lia|].
  pose proof (step_keeps_ids_below_counter a srv Hinv) as Hinv1.
  cbn [run]. destruct (step a srv) as [o srv1] eqn:Hstep.
  destruct (run actions srv1) as [os srv2] eqn:Hrun. cbn [fst snd] in *.
  unfold consumptions.
  destruct (consumed interaction_id o) eqn:Ho.
  - rewrite filter_cons_True by done. cbn [length].
    destruct o as [| | | |bot i|]; try done. cbn in Ho.
    apply bool_decide_eq_true in Ho as ->.
    destruct a as [? ? ? ?|? ? ? ?|?|bot' i]; cbn in Hstep.
    + destruct (submit_command _ _ _ _ _); by injection Hstep.
    + by injection Hstep.
    + destruct (worker_step _ _); by injection Hstep.
    + unfold respond in Hstep.
      destruct (open_interactions srv !! i) as [owner|] eqn:Hi;
        [|by injection Hstep].
      case_decide; [|by injection Hstep].
      injection Hstep as <- <- <-.
      pose proof (closed_id_never_consumed i actions
        (mkServer (bots srv) (commands srv) (queue srv) (deliveries srv)
           (next_interaction srv) (delete i (open_interactions srv)))) as Hnever.
      rewrite Hrun in Hnever. unfold consumptions in Hnever.
      cbn [fst] in Hnever.
      rewrite Hnever; [lia|apply lookup_delete_eq|].
      intros k Hk. eapply Hinv; [|done]. by eexists.
  - rewrite filter_cons_False by (rewrite Ho; done).
    specialize (IH srv1 Hinv1). by rewrite Hrun in IH.
Qed.

(** C4.  In any run of the pipeline from its start (commands submitted,
    widgets clicked, events delivered or redelivered and bots answering, in
    any order), an interaction id is consumed at most once: after the answer
    that consumed it, no answer naming the same id is accepted. *)
Theorem interaction_id_consumed_at_most_once (bots : gmap Z Endpoint)
    (commands : list (Z * string)) (actions : list Action)
    (interaction_id : string) :
  (consumptions interaction_id
     (run actions (initial_server bots commands)).1 ≤ 1)%nat.
Proof.
  apply consumed_at_most_once_from.
  intros i k [owner Hi] _. cbn in Hi. by rewrite lookup_empty in Hi.
Qed.

(** A command is sent and the bot answers it twice: the first answer is
    accepted, the second rejected. *)
Example second_answer_rejected :
  (run [SubmitCommand 7 "testcmd" test_arguments desdemona; Work true;
        Respond 7 "0"; Respond 7 "0"]
     (initial_server test_bots test_commands)).1
  = [Enqueued; Worked; Accepted 7 "0"; Rejected].
Proof. by vm_compute. Qed.

End bot_interactions_facts.

(** ** Persona names *)
Module persona_store_facts.
Import persona_store.

Lemma owns_name_after_create (user : Z) (data : CharacterData) (db : Db) :
  owns_name user (data_name data) (create_persona user data db).2 = true.
Proof.
  unfold create_persona.
  destruct (owns_name user (data_name data) db) eqn:Howns; [done|].
  cbn. unfold owns_name, personas_of. cbn.
  apply bool_decide_eq_true. apply Exists_exists.
  exists (mkPersonaRow (next_id db) user (data_name data)
            (data_avatar_url data) (data_color data) (data_bio data)).
  split; [|reflexivity].
  apply list_elem_of_filter. split; [done|].
  apply elem_of_app. right. apply list_elem_of_here.
Qed.

(** Names stay unique per owner: a store in which no user owns a name
    twice is still such a store after any creation attempt. *)
Lemma create_persona_keeps_names_unique (user owner : Z)
    (data : CharacterData) (db : Db) :
  NoDup (row_name <$> personas_of owner db) →
  NoDup (row_name <$> personas_of owner (create_persona user data db).2).
Proof.
  intros Hnd. unfold create_persona.
  destruct (owns_name user (data_name data) db) eqn:Howns; [done|].
  cbn. unfold personas_of in *. cbn. rewrite filter_app, fmap_app.
  destruct (decide (user = owner)) as [->|Hne].
  - rewrite filter_cons_True by done. rewrite filter_nil. cbn.
    apply NoDup_app. split; [done|]. split; [|apply NoDup_singleton].
    intros n Hn Hn'. apply list_elem_of_singleton in Hn' as ->.
    apply bool_decide_eq_false in Howns. apply Howns.
    apply Exists_exists. apply list_elem_of_fmap in Hn as (r&Hr&Hin).
    exists r. by split.
  - rewrite filter_cons_False by done. rewrite filter_nil. cbn.
    by rewrite app_nil_r.
Qed.

(** C3.  Creating a persona under a name the user already owns fails with
    the duplicate-name error and leaves the stored personas as they were; so
    creating two personas with the same name for one user fails the second
    time. *)
Theorem duplicate_persona_name_refused (user : Z) (data : CharacterData)
    (db : Db) :
  owns_name user (data_name data) db = true →
  create_persona user data db = (DuplicateName, db)
  ∧ personas_of user (create_persona user data db).2 = personas_of user db
  ∧ ∀ (again : CharacterData) (before : Db),
      data_name again = data_name data →
      create_persona user again (create_persona user data before).2
      = (DuplicateName, (create_persona user data before).2).
Proof.
  intros Howns. unfold create_persona at 1 2. rewrite Howns.
  split; [done|]. split; [done|].
  intros again before Hname. unfold create_persona at 1.
  rewrite Hname. by rewrite owns_name_after_create.
Qed.

Lemma duplicate_persona_name_refused_witness :
  create_persona 9 aragorn (create_persona 9 aragorn (mkDb [] 1)).2
  = (DuplicateName, (create_persona 9 aragorn (mkDb [] 1)).2)
  ∧ personas_of 9
      (create_persona 9 aragorn (create_persona 9 aragorn (mkDb [] 1)).2).2
    = personas_of 9 (create_persona 9 aragorn (mkDb [] 1)).2
  ∧ ∀ (again : CharacterData) (before : Db),
      data_name again = data_name aragorn →
      create_persona 9 again (create_persona 9 aragorn before).2
      = (DuplicateName, (create_persona 9 aragorn before).2).
Proof.
  apply (duplicate_persona_name_refused 9 aragorn
           (create_persona 9 aragorn (mkDb [] 1)).2).
  reflexivity.
Defined.

(** [test_duplicate_persona_name_error]: the form is submitted twice; both
    submissions are POSTs of the same data, the first creates the persona
    and the second is refused. *)
Example test_duplicate_persona_name_error :
  submit_character_form aragorn_form = Post "/json/users/me/personas" aragorn
  ∧ (create_persona 9 aragorn (mkDb [] 1)).1
    = Created (mkPersonaRow 1 9 "Aragorn" None None "")
  ∧ (create_persona 9 aragorn (create_persona 9 aragorn (mkDb [] 1)).2).1
    = DuplicateName.
Proof. by vm_compute. Qed.

End persona_store_facts.

(** ** More on the persona modules *)
Module compose_persona_ui_facts.
Import personas compose_persona compose_persona_ui.

Lemma same_caches_refl_ui (st : State) : same_caches st st.
Proof. by repeat split. Qed.

Lemma find_by_id_is_Some (c : Z) (l : list MyPersona) :
  is_Some (find_by_id c l) ↔ c ∈ id <$> l.
Proof.
  induction l as [|p l IH]; cbn.
  - split; [by intros [? ?]|by intros ?%elem_of_nil].
  - rewrite elem_of_cons. case_decide as Hp.
    + split; [intros _; by left|by eexists].
    + rewrite IH. split; [by right|]. intros [->|?]; done.
Qed.

Lemma find_by_id_found (c : Z) (l : list MyPersona) (p : MyPersona) :
  find_by_id c l = Some p → id p = c ∧ p ∈ l.
Proof.
  induction l as [|q l IH]; cbn; [done|]. case_decide as Hq.
  - intros [= ->]. split; [done|apply list_elem_of_here].
  - intros Hf. destruct (IH Hf). split; [done|by apply list_elem_of_further].
Qed.

Lemma selection_ok_iff (st : State) :
  selection_ok st = true
  ↔ ∀ c, current_compose_persona_id st = Some c → c ∈ id <$> my_personas st.
Proof.
  unfold selection_ok. destruct (current_compose_persona_id st) as [c|].
  - destruct (find_by_id c (my_personas st)) as [p|] eqn:Hf.
    + split; [|done]. intros _ c' [= <-]. apply find_by_id_is_Some.
      rewrite Hf. by eexists.
    + split; [done|]. intros Hin. specialize (Hin c eq_refl).
      apply find_by_id_is_Some in Hin. rewrite Hf in Hin. by destruct Hin.
  - split; [done|done].
Qed.

Lemma findIndex_by_id_Some (c : Z) (l : list MyPersona) (i : nat) :
  findIndex_by_id c l = Some i →
  ∃ q, l !! i = Some q ∧ id q = c
       ∧ ∀ j r, (j < i)%nat → l !! j = Some r → id r ≠ c.
Proof.
  revert i. induction l as [|p l IH]; intros i; cbn; [done|].
  case_decide as Hp.
  - intros [= <-]. exists p. split; [done|]. split; [done|]. intros; lia.
  - destruct (findIndex_by_id c l) as [i'|] eqn:Hi; [|done].
    cbn. intros [= <-]. destruct (IH i' eq_refl) as (q&Hq&Hid&Hfirst).
    exists q. split; [done|]. split; [done|].
    intros [|j] r Hj; cbn; [by intros [= <-]|]. apply Hfirst. lia.
Qed.

Lemma findIndex_by_id_None (c : Z) (l : list MyPersona) :
  findIndex_by_id c l = None ↔ find_by_id c l = None.
Proof.
  induction l as [|p l IH]; cbn; [done|]. case_decide; [done|].
  rewrite <- IH. by destruct (findIndex_by_id c l).
Qed.

(** Replacing the entry found by [findIndex] with a persona of the same id
    keeps the ids of the list. *)
Lemma update_keeps_ids (p : MyPersona) (l : list MyPersona) (i : nat) :
  findIndex_by_id (id p) l = Some i →
  id <$> <[i := p]> l = id <$> l.
Proof.
  intros Hi. apply findIndex_by_id_Some in Hi as (q&Hq&Hid&_).
  rewrite list_fmap_insert. apply list_insert_id.
  rewrite list_lookup_fmap, Hq. cbn. by rewrite Hid.
Qed.

(** With the list fetched and only module-level callbacks listening, a
    notification returns, changes neither the list nor the callbacks, and
    keeps a valid selection valid. *)
Lemma notify_change_settled (fuel : nat) (st : State) :
  (4 ≤ fuel)%nat →
  (length (change_callbacks st) ≤ fuel)%nat →
  my_personas_fetched st = true →
  Forall module_callback (change_callbacks st) →
  ∃ st', notify_change fuel st = Some st'
    ∧ same_caches st st'
    ∧ (selection_ok st = true → selection_ok st' = true).
Proof.
  intros Hfuel Hlen Hf Hmod. unfold notify_change, personas.notify_change.
  destruct (compose_persona_facts.notify_loop_ok fuel (change_callbacks st)
              Hfuel fuel st) as (st'&Hrun&Hsame&Hok&_); [done..| |].
  - apply Forall_forall. auto.
  - by exists st'.
Qed.

Lemma mark_realm_personas_stale_frame (st : State) :
  my_personas (mark_realm_personas_stale st) = my_personas st
  ∧ my_personas_fetched (mark_realm_personas_stale st) = my_personas_fetched st
  ∧ change_callbacks (mark_realm_personas_stale st) = change_callbacks st
  ∧ current_compose_persona_id (mark_realm_personas_stale st)
    = current_compose_persona_id st
  ∧ realm_personas_fetched (mark_realm_personas_stale st) = false.
Proof.
  unfold mark_realm_personas_stale.
  destruct (realm_personas_fetched st) eqn:Hr; cbn; by repeat split.
Qed.

Lemma handle_persona_event_effect (fuel : nat) (event : PersonaEvent)
    (st : State) :
  ∃ effect, EventEffect event st effect
    ∧ handle_persona_event fuel event st
      = match effect with
        | None => Some st
        | Some st1 => notify_change fuel st1
        end.
Proof.
  unfold handle_persona_event, personas.handle_persona_event.
  destruct event as [op [p|] pid]; cbn.
  - (* a persona is attached *)
    case_bool_decide as Hadd; cbn.
    { eexists (Some _). split; [|reflexivity].
      destruct (mark_realm_personas_stale_frame
                  (with_my_personas (my_personas st ++ [p]) st))
        as (Hmy&Hf&Hcb&Hcur&_).
      constructor; [done|done|]. rewrite !selection_ok_iff.
      rewrite Hmy, Hcur. cbn. intros Hok c Hc. rewrite fmap_app.
      apply elem_of_app. left. by apply Hok. }
    case_bool_decide as Hupd; cbn.
    { eexists (Some _). split; [|reflexivity].
      match goal with
      | |- EventEffect _ _ (Some (mark_realm_personas_stale ?s)) =>
          destruct (mark_realm_personas_stale_frame s) as (Hmy&Hf&Hcb&Hcur&_);
          set (st1 := s) in *
      end.
      assert (id <$> my_personas st1 = id <$> my_personas st
              ∧ my_personas_fetched st1 = my_personas_fetched st
              ∧ change_callbacks st1 = change_callbacks st
              ∧ current_compose_persona_id st1 = current_compose_persona_id st)
        as (Hids&Hf1&Hcb1&Hcur1).
      { subst st1. destruct (findIndex_by_id (id p) (my_personas st)) eqn:Hi;
          cbn; [|done]. split; [|done]. by apply update_keeps_ids. }
      constructor; [congruence|congruence|]. rewrite !selection_ok_iff.
      rewrite Hmy, Hcur, Hids, Hcur1. done. }
    case_bool_decide as Hrem; cbn; [|exists None; split; [constructor|done]].
    destruct pid as [removed|]; cbn; [|exists None; split; [constructor|done]].
    destruct (removed =? 0) eqn:Hz; cbn; [exists None; split; [constructor|done]|].
    eexists (Some _). split; [|reflexivity].
    match goal with
    | |- EventEffect _ _ (Some (mark_realm_personas_stale ?s)) =>
        destruct (mark_realm_personas_stale_frame s) as (Hmy&Hf&Hcb&Hcur&_);
        set (st1 := s) in *
    end.
    constructor.
    { rewrite Hf. subst st1. by destruct (decide _). }
    { rewrite Hcb. subst st1. by destruct (decide _). }
    rewrite !selection_ok_iff. rewrite Hmy, Hcur. subst st1. cbn.
    intros Hok c. destruct (decide _) as [Hsel|Hsel]; cbn; [done|].
    intros Hc. specialize (Hok c Hc). apply find_by_id_is_Some.
    rewrite compose_persona_facts.find_by_id_filter_other by congruence.
    by apply find_by_id_is_Some.
  - (* no persona attached: only a removal can apply *)
    rewrite !andb_false_r.
    case_bool_decide as Hrem; cbn; [|exists None; split; [constructor|done]].
    destruct pid as [removed|]; cbn; [|exists None; split; [constructor|done]].
    destruct (removed =? 0) eqn:Hz; cbn; [exists None; split; [constructor|done]|].
    eexists (Some _). split; [|reflexivity].
    match goal with
    | |- EventEffect _ _ (Some (mark_realm_personas_stale ?s)) =>
        destruct (mark_realm_personas_stale_frame s) as (Hmy&Hf&Hcb&Hcur&_);
        set (st1 := s) in *
    end.
    constructor.
    { rewrite Hf. subst st1. by destruct (decide _). }
    { rewrite Hcb. subst st1. by destruct (decide _). }
    rewrite !selection_ok_iff. rewrite Hmy, Hcur. subst st1. cbn.
    intros Hok c. destruct (decide _) as [Hsel|Hsel]; cbn; [done|].
    intros Hc. specialize (Hok c Hc). apply find_by_id_is_Some.
    rewrite compose_persona_facts.find_by_id_filter_other by congruence.
    by apply find_by_id_is_Some.
Qed.

Lemma cycle_persona_settled (fuel : nat) (st : State) :
  (2 ≤ fuel)%nat →
  ∃ st', cycle_persona fuel st = Some st'
    ∧ same_caches st st'
    ∧ (selection_ok st = true ∨ my_personas st ≠ [] → selection_ok st' = true).
Proof.
  intros Hfuel. unfold cycle_persona, get_my_personas, get_compose_persona_id.
  destruct (my_personas st) as [|first rest] eqn:Hmy.
  { exists st. split; [done|]. split; [apply same_caches_refl_ui|].
    by intros [?|?]. }
  rewrite <- Hmy.
  assert (∀ p, p ∈ my_personas st →
            ∃ st', set_current_persona_id fuel (Some (id p)) st = Some st'
              ∧ same_caches st st' ∧ selection_ok st' = true) as Hlisted.
  { intros p Hp.
    destruct (compose_persona_facts.set_current_persona_id_listed fuel p st)
      as (st'&Hrun&Hsame&Hcur); [done..|].
    exists st'. split; [done|]. split; [done|].
    apply selection_ok_iff. intros c. rewrite Hcur. intros [= <-].
    destruct Hsame as (->&_). by apply list_elem_of_fmap_2. }
  assert (∃ st', set_current_persona_id fuel None st = Some st'
            ∧ same_caches st st' ∧ selection_ok st' = true) as Hnull.
  { destruct (compose_persona_facts.set_current_persona_id_null fuel st)
      as (st'&Hrun&Hsame&Hcur); [done|].
    exists st'. split; [done|]. split; [done|].
    unfold selection_ok. by rewrite Hcur. }
  assert (∀ st', selection_ok st' = true →
            selection_ok st = true ∨ my_personas st ≠ [] →
            selection_ok st' = true) as Hweak by auto.
  destruct (current_compose_persona_id st) as [c|].
  - destruct (findIndex_by_id c (my_personas st)) as [i|] eqn:Hi.
    + case_decide as Hlast.
      * destruct Hnull as (st'&?&?&?). exists st'. auto.
      * apply findIndex_by_id_Some in Hi as (q&Hq&_).
        pose proof (lookup_lt_Some _ _ _ Hq) as Hlt.
        destruct (my_personas st !! (i + 1)%nat) as [next|] eqn:Hnext.
        -- destruct (Hlisted next) as (st'&?&?&?);
             [by eapply list_elem_of_lookup_2|]. exists st'. auto.
        -- apply lookup_ge_None in Hnext. lia.
    + destruct Hnull as (st'&?&?&?). exists st'. auto.
  - destruct (Hlisted first) as (st'&?&?&?);
      [rewrite Hmy; apply list_elem_of_here|]. exists st'. auto.
Qed.

Lemma act_settled (fuel : nat) (a : UserAction) (st : State) :
  (4 ≤ fuel)%nat →
  (length (change_callbacks st) ≤ fuel)%nat →
  compose_settled st →
  ∃ st', act fuel a st = Some st'
    ∧ compose_settled st'
    ∧ change_callbacks st' = change_callbacks st
    ∧ (∀ c, current_compose_persona_id st' = Some c →
         c ∈ id <$> my_personas st').
Proof.
  intros Hfuel Hlen (Hf&Hmod&Hok).
  assert (∀ st', same_caches st st' → selection_ok st' = true →
            compose_settled st' ∧ change_callbacks st' = change_callbacks st
            ∧ ∀ c, current_compose_persona_id st' = Some c →
                c ∈ id <$> my_personas st') as Hdone.
  { intros st' (Hmy&Hf'&Hcb&_) Hok'. split; [|split; [done|]].
    - split; [congruence|]. split; [by rewrite Hcb|done].
    - by apply selection_ok_iff. }
  destruct a as [|pid|event|stream]; cbn [act].
  - destruct (cycle_persona_settled fuel st) as (st'&Hrun&Hsame&Hok'); [lia|].
    exists st'. split; [done|]. apply Hdone; auto.
  - destruct fuel as [|fuel]; [lia|]. cbn [set_current_persona_id].
    match goal with
    | |- ∃ st', update_selector_display fuel ?s = _ ∧ _ => set (st1 := s)
    end.
    destruct (compose_persona_facts.update_selector_display_ok fuel st1)
      as (st'&Hrun&Hsame&_&Hok'); [lia|].
    exists st'. split; [done|]. apply Hdone; [|done].
    eapply compose_persona_facts.same_caches_trans; [|done].
    subst st1. unfold set_compose_persona_id.
    destruct (compose_stream_id st) eqn:Hs; cbn; by repeat split.
  - destruct (handle_persona_event_effect fuel event st) as (effect&Heff&->).
    destruct Heff as [|st1 Hf1 Hcb1 Hok1].
    + exists st. split; [done|]. apply Hdone; [apply same_caches_refl_ui|done].
    + destruct (notify_change_settled fuel st1) as (st'&Hrun&Hsame&Hok');
        [done|by rewrite Hcb1|congruence|by rewrite Hcb1|].
      exists st'. split; [done|].
      destruct Hsame as (Hmy'&Hf'&Hcb'&_).
      split; [|split; [congruence|]].
      * split; [congruence|]. split; [by rewrite Hcb', Hcb1|auto].
      * apply selection_ok_iff. auto.
  - unfold on_narrow_changed. cbn [compose_stream_id with_compose_stream_id].
    set (st1 := with_compose_stream_id stream st).
    assert (my_personas_fetched st1 = true ∧ selection_ok st1 = true
            ∧ my_personas st1 = my_personas st
            ∧ change_callbacks st1 = change_callbacks st) as (Hf1&Hok1&Hmy1&Hcb1)
      by done.
    destruct stream as [sid|].
    + destruct (compose_persona_facts.update_for_stream_fetched fuel sid st1)
        as (st'&Hrun&(Hmy'&Hf'&Hcb'&_)&_&Hok'); [done..|].
      exists st'. split; [done|]. split; [|split; [congruence|]].
      * split; [congruence|]. split; [by rewrite Hcb', Hcb1|auto].
      * apply selection_ok_iff. auto.
    + destruct (compose_persona_facts.update_for_stream_dm fuel st1)
        as (st'&Hrun&(Hmy'&Hf'&Hcb'&_)&_&Hok'); [lia|].
      exists st'. split; [done|]. split; [|split; [congruence|]].
      * split; [congruence|]. split; [by rewrite Hcb', Hcb1|congruence].
      * apply selection_ok_iff. congruence.
Qed.

(** X1.  Once the persona list has been fetched, whatever the user and the
    server do next (cycling, picking any menu entry, persona events of any
    kind, moving the compose box to another stream), every step returns and
    the compose selection afterwards is Yourself or a persona that is in
    the list. *)
Theorem selection_never_dangles (fuel : nat) (actions : list UserAction)
    (st : State) :
  (4 ≤ fuel)%nat →
  (length (change_callbacks st) ≤ fuel)%nat →
  compose_settled st →
  ∃ st', run_actions fuel actions st = Some st'
    ∧ compose_settled st'
    ∧ ∀ c, current_compose_persona_id st' = Some c →
        c ∈ id <$> my_personas st'.
Proof.
  intros Hfuel. revert st. induction actions as [|a actions IH];
    intros st Hlen Hset.
  - exists st. split; [done|]. split; [done|].
    apply selection_ok_iff. apply Hset.
  - destruct (act_settled fuel a st) as (st1&Hact&Hset1&Hcb1&_); [done..|].
    cbn [run_actions]. rewrite Hact. cbn.
    apply IH; [by rewrite Hcb1|done].
Qed.

Lemma selection_never_dangles_witness :
  ∃ st', run_actions 4
           [ActSelect (Some 2); ActEvent (remove_event 2); ActCycle;
            ActNarrow (Some 6); ActSelect (Some 77);
            ActEvent (add_event gandalf_the_grey)]
           (sample_state [gandalf; frodo] None) = Some st'
    ∧ compose_settled st'
    ∧ ∀ c, current_compose_persona_id st' = Some c →
        c ∈ id <$> my_personas st'.
Proof.
  apply (selection_never_dangles 4
           [ActSelect (Some 2); ActEvent (remove_event 2); ActCycle;
            ActNarrow (Some 6); ActSelect (Some 77);
            ActEvent (add_event gandalf_the_grey)]
           (sample_state [gandalf; frodo] None)).
  - lia.
  - cbn. lia.
  - split; [reflexivity|]. split; [|reflexivity].
    constructor; [left; reflexivity|].
    constructor; [right; reflexivity|constructor].
Defined.

(** X2.  [handle_persona_event] acts only on an [add] or [update] that
    carries a persona and on a [remove] whose [persona_id] is a non-zero
    number.  Any other event (another [op], a missing field, and a [remove]
    for persona id 0, which JavaScript takes for false) leaves everything as
    it is and notifies no callback, whatever the callbacks would do. *)
Theorem other_events_are_ignored
    (run_callback : Callback → State → option State) (fuel : nat)
    (event : PersonaEvent) (st : State) :
  (op event ≠ "add" ∨ persona event = None) →
  (op event ≠ "update" ∨ persona event = None) →
  (op event ≠ "remove" ∨ persona_id event = None ∨ persona_id event = Some 0) →
  personas.handle_persona_event run_callback fuel event st = Some st.
Proof.
  intros Hadd Hupd Hrem. unfold personas.handle_persona_event.
  destruct event as [o [p|] pid]; cbn in *.
  - destruct Hadd as [Hadd|?]; [|done]. destruct Hupd as [Hupd|?]; [|done].
    rewrite !bool_decide_eq_false_2 by done. cbn.
    destruct Hrem as [Hrem|[->| ->]].
    + by rewrite bool_decide_eq_false_2.
    + by rewrite andb_false_r.
    + by rewrite andb_false_r.
  - rewrite !andb_false_r.
    destruct Hrem as [Hrem|[->| ->]].
    + by rewrite bool_decide_eq_false_2.
    + by rewrite andb_false_r.
    + by rewrite andb_false_r.
Qed.

Lemma other_events_are_ignored_witness :
  personas.handle_persona_event (λ _ _, None) 0
    (mkPersonaEvent "remove" None (Some 0)) (sample_state [gandalf] (Some 1))
  = Some (sample_state [gandalf] (Some 1)).
Proof.
  apply (other_events_are_ignored (λ _ _, None) 0
           (mkPersonaEvent "remove" None (Some 0))
           (sample_state [gandalf] (Some 1))).
  - left. discriminate.
  - left. discriminate.
  - right. right. reflexivity.
Defined.

(** X3.  An [add] event puts the persona at the end of the list and keeps
    all the entries that were there, also when an entry with the same id is
    already listed (nothing is merged); the list of callbacks is as before
    and a valid selection stays valid. *)
Theorem add_event_appends (fuel : nat) (p : MyPersona) (st : State) :
  (4 ≤ fuel)%nat →
  (length (change_callbacks st) ≤ fuel)%nat →
  my_personas_fetched st = true →
  Forall module_callback (change_callbacks st) →
  ∃ st', handle_persona_event fuel (add_event p) st = Some st'
    ∧ my_personas st' = my_personas st ++ [p]
    ∧ change_callbacks st' = change_callbacks st
    ∧ (selection_ok st = true → selection_ok st' = true).
Proof.
  intros Hfuel Hlen Hf Hmod.
  change (handle_persona_event fuel (add_event p) st)
    with (notify_change fuel
            (mark_realm_personas_stale
               (with_my_personas (my_personas st ++ [p]) st))).
  set (st0 := with_my_personas (my_personas st ++ [p]) st).
  destruct (mark_realm_personas_stale_frame st0) as (Hmy&Hf1&Hcb1&Hcur1&_).
  destruct (notify_change_settled fuel (mark_realm_personas_stale st0))
    as (st'&Hrun&(Hmy'&_&Hcb'&_)&Hok'); [done|by rewrite Hcb1|
                                         by rewrite Hf1|by rewrite Hcb1|].
  exists st'. split; [done|]. split; [by rewrite Hmy', Hmy|].
  split; [by rewrite Hcb', Hcb1|].
  intros Hok. apply Hok'. apply selection_ok_iff. rewrite Hmy, Hcur1. cbn.
  intros c Hc. rewrite fmap_app. apply elem_of_app. left.
  by apply selection_ok_iff.
Qed.

Lemma add_event_appends_witness :
  ∃ st', handle_persona_event 4 (add_event gandalf_the_grey)
           (sample_state [gandalf; frodo] (Some 2)) = Some st'
    ∧ my_personas st' = [gandalf; frodo] ++ [gandalf_the_grey]
    ∧ change_callbacks st'
      = change_callbacks (sample_state [gandalf; frodo] (Some 2))
    ∧ (selection_ok (sample_state [gandalf; frodo] (Some 2)) = true →
       selection_ok st' = true).
Proof.
  apply (add_event_appends 4 gandalf_the_grey
           (sample_state [gandalf; frodo] (Some 2))).
  - lia.
  - cbn. lia.
  - reflexivity.
  - constructor; [left; reflexivity|].
    constructor; [right; reflexivity|constructor].
Defined.




(** X5.  After [update_selector_display] the button shows the identity that
    is selected: the Yourself face exactly when nothing is selected, and
    otherwise the face of a listed persona whose id is the selected one.
    Running it again changes nothing. *)
Theorem button_shows_the_selection (fuel : nat) (st : State) :
  (3 ≤ fuel)%nat →
  ∃ st', update_selector_display fuel st = Some st'
    ∧ match selector_button st' with
      | ButtonYourself => current_compose_persona_id st' = None
      | ButtonPersona p =>
          current_compose_persona_id st' = Some (id p) ∧ p ∈ my_personas st'
      end
    ∧ update_selector_display fuel st' = Some st'.
Proof.
  intros Hfuel. rewrite compose_persona_facts.update_selector_display_eq by done.
  eexists. split; [reflexivity|].
  rewrite compose_persona_facts.update_selector_display_eq by done.
  destruct (current_compose_persona_id st) as [c|] eqn:Hc; cbn.
  - destruct (find_by_id c (my_personas st)) as [p|] eqn:Hp; cbn.
    + rewrite Hc, Hp. apply find_by_id_found in Hp as [-> Hin]. done.
    + destruct (compose_stream_id st); done.
  - by rewrite Hc.
Qed.

Lemma button_shows_the_selection_witness :
  ∃ st', update_selector_display 3 (sample_state [gandalf; frodo] (Some 2))
         = Some st'
    ∧ match selector_button st' with
      | ButtonYourself => current_compose_persona_id st' = None
      | ButtonPersona p =>
          current_compose_persona_id st' = Some (id p) ∧ p ∈ my_personas st'
      end
    ∧ update_selector_display 3 st' = Some st'.
Proof.
  apply (button_shows_the_selection 3 (sample_state [gandalf; frodo] (Some 2))).
  lia.
Defined.

Lemma set_current_persona_id_eq (fuel : nat) (pid : option Z) (st : State) :
  (4 ≤ fuel)%nat →
  set_current_persona_id fuel pid st
  = update_selector_display 3
      (set_compose_persona_id pid (compose_stream_id st) st).
Proof.
  intros Hfuel. destruct fuel as [|fuel]; [lia|]. cbn [set_current_persona_id].
  by rewrite !compose_persona_facts.update_selector_display_eq by lia.
Qed.

(** X6.  The selection is sticky per stream.  A persona picked while the
    compose box is on stream [s] is selected again when the compose box
    comes back to [s], whatever was picked on another stream [t] in
    between. *)
Theorem selection_is_restored_per_stream (fuel : nat) (s t : Z)
    (p q : MyPersona) (st : State) :
  (4 ≤ fuel)%nat →
  my_personas_fetched st = true →
  p ∈ my_personas st →
  q ∈ my_personas st →
  t ≠ s →
  ∃ st1 st2 st3,
    set_current_persona_id fuel (Some (id p))
      (with_compose_stream_id (Some s) st) = Some st1
    ∧ set_current_persona_id fuel (Some (id q))
        (with_compose_stream_id (Some t) st1) = Some st2
    ∧ current_compose_persona_id st2 = Some (id q)
    ∧ on_narrow_changed fuel (with_compose_stream_id (Some s) st2) = Some st3
    ∧ current_compose_persona_id st3 = Some (id p)
    ∧ selector_visible st3 = true.
Proof.
  intros Hfuel Hf Hp Hq Hts.
  assert (∀ r, r ∈ my_personas st → ∃ r', find_by_id (id r) (my_personas st) = Some r')
    as Hfind.
  { intros r Hr. apply (find_by_id_is_Some (id r)).
    by apply list_elem_of_fmap_2. }
  destruct (Hfind p Hp) as [p' Hp'], (Hfind q Hq) as [q' Hq'].
  rewrite set_current_persona_id_eq by done.
  rewrite compose_persona_facts.update_selector_display_eq by lia.
  cbn. rewrite Hp'. eexists _, _, _. split; [reflexivity|].
  rewrite set_current_persona_id_eq by done.
  rewrite compose_persona_facts.update_selector_display_eq by lia.
  cbn. rewrite Hq'. split; [reflexivity|]. split; [reflexivity|].
  unfold on_narrow_changed. cbn [compose_stream_id with_compose_stream_id].
  destruct fuel as [|fuel]; [lia|]. cbn [update_for_stream].
  unfold has_fetched_my_personas, get_my_personas. cbn. rewrite Hf. cbn.
  rewrite bool_decide_eq_false_2; last first.
  { intros Hnil%length_zero_iff_nil. rewrite Hnil in Hp.
    by apply elem_of_nil in Hp. }
  unfold get_sticky_persona_for_stream. cbn.
  rewrite lookup_insert_ne by done. rewrite lookup_insert_eq.
  rewrite compose_persona_facts.update_selector_display_eq by lia.
  cbn. rewrite Hp'. done.
Qed.

Lemma selection_is_restored_per_stream_witness :
  ∃ st1 st2 st3,
    set_current_persona_id 4 (Some (id gandalf))
      (with_compose_stream_id (Some 5)
         (sample_state [gandalf; frodo] None)) = Some st1
    ∧ set_current_persona_id 4 (Some (id frodo))
        (with_compose_stream_id (Some 6) st1) = Some st2
    ∧ current_compose_persona_id st2 = Some (id frodo)
    ∧ on_narrow_changed 4 (with_compose_stream_id (Some 5) st2) = Some st3
    ∧ current_compose_persona_id st3 = Some (id gandalf)
    ∧ selector_visible st3 = true.
Proof.
  apply (selection_is_restored_per_stream 4 5 6 gandalf frodo
           (sample_state [gandalf; frodo] None)).
  - lia.
  - reflexivity.
  - apply list_elem_of_here.
  - apply list_elem_of_further, list_elem_of_here.
  - lia.
Defined.

(** X7.  A stream for which nothing was ever picked inherits the selection:
    when the compose box moves to it the selected persona stays selected,
    and the stream still has no sticky persona of its own. *)
Theorem selection_carries_over (fuel : nat) (s : Z) (p : MyPersona)
    (st : State) :
  (4 ≤ fuel)%nat →
  my_personas_fetched st = true →
  p ∈ my_personas st →
  current_compose_persona_id st = Some (id p) →
  compose_persona_by_stream st !! s = None →
  ∃ st', on_narrow_changed fuel (with_compose_stream_id (Some s) st) = Some st'
    ∧ current_compose_persona_id st' = Some (id p)
    ∧ selector_visible st' = true
    ∧ get_sticky_persona_for_stream s st' = None.
Proof.
  intros Hfuel Hf Hp Hcur Hnone.
  assert (∃ p', find_by_id (id p) (my_personas st) = Some p') as [p' Hp'].
  { apply (find_by_id_is_Some (id p)). by apply list_elem_of_fmap_2. }
  unfold on_narrow_changed. cbn [compose_stream_id with_compose_stream_id].
  destruct fuel as [|fuel]; [lia|]. cbn [update_for_stream].
  unfold has_fetched_my_personas, get_my_personas. cbn. rewrite Hf. cbn.
  rewrite bool_decide_eq_false_2; last first.
  { intros Hnil%length_zero_iff_nil. rewrite Hnil in Hp.
    by apply elem_of_nil in Hp. }
  unfold get_sticky_persona_for_stream. cbn. rewrite Hnone.
  rewrite compose_persona_facts.update_selector_display_eq by lia.
  cbn. rewrite Hcur, Hp'. eexists. split; [reflexivity|]. cbn.
  by rewrite Hnone.
Qed.

Lemma selection_carries_over_witness :
  ∃ st', on_narrow_changed 4
           (with_compose_stream_id (Some 6)
              (sample_state [gandalf; frodo] (Some 1))) = Some st'
    ∧ current_compose_persona_id st' = Some (id gandalf)
    ∧ selector_visible st' = true
    ∧ get_sticky_persona_for_stream 6 st' = None.
Proof.
  apply (selection_carries_over 4 6 gandalf
           (sample_state [gandalf; frodo] (Some 1))).
  - lia.
  - reflexivity.
  - apply list_elem_of_here.
  - reflexivity.
  - reflexivity.
Defined.

(** X8.  With a non-empty list [cycle_persona] always returns with a
    selection that is Yourself or a listed persona, also when ids repeat in
    the list; from a selection that names no listed persona it goes to
    Yourself. *)
Theorem cycle_persona_lands_on_listed (fuel : nat) (st : State) :
  (2 ≤ fuel)%nat →
  my_personas st ≠ [] →
  ∃ st', cycle_persona fuel st = Some st'
    ∧ my_personas st' = my_personas st
    ∧ (∀ c, current_compose_persona_id st' = Some c →
         c ∈ id <$> my_personas st')
    ∧ (∀ c, current_compose_persona_id st = Some c →
         c ∉ id <$> my_personas st →
         current_compose_persona_id st' = None).
Proof.
  intros Hfuel Hne.
  destruct (cycle_persona_settled fuel st) as (st'&Hrun&Hsame&Hok); [done|].
  exists st'. split; [done|]. split; [apply Hsame|].
  split; [apply selection_ok_iff; auto|].
  intros c Hc Hnot.
  assert (findIndex_by_id c (my_personas st) = None) as Hidx.
  { apply findIndex_by_id_None.
    destruct (find_by_id c (my_personas st)) eqn:Hfound; [|done].
    exfalso. apply Hnot. apply find_by_id_is_Some. rewrite Hfound.
    by eexists. }
  revert Hrun.
  unfold cycle_persona, get_my_personas, get_compose_persona_id.
  rewrite Hc, Hidx.
  destruct (my_personas st) as [|first rest]; [done|].
  destruct (compose_persona_facts.set_current_persona_id_null fuel st)
    as (st''&->&_&Hcur); [done|]. by intros [= <-].
Qed.

Lemma cycle_persona_lands_on_listed_witness :
  ∃ st', cycle_persona 2
           (sample_state [gandalf; frodo; gandalf_the_grey] (Some 77))
         = Some st'
    ∧ my_personas st' = [gandalf; frodo; gandalf_the_grey]
    ∧ (∀ c, current_compose_persona_id st' = Some c →
         c ∈ id <$> my_personas st')
    ∧ current_compose_persona_id st' = None.
Proof.
  destruct (cycle_persona_lands_on_listed 2
              (sample_state [gandalf; frodo; gandalf_the_grey] (Some 77)))
    as (st'&Hrun&Hmy&Hin&Hnull).
  - lia.
  - discriminate.
  - exists st'. split; [exact Hrun|]. split; [exact Hmy|].
    split; [exact Hin|]. apply (Hnull 77); [reflexivity|].
    cbn. rewrite !not_elem_of_cons. repeat split; try discriminate.
    apply not_elem_of_nil.
Defined.

Lemma filter_eq_once {A} `{EqDecision A} (x : A) (l : list A) :
  NoDup l → x ∈ l → length (filter (λ y, y = x) l) = 1%nat.
Proof.
  induction 1 as [|y l Hy Hnd IH]; [by intros ?%elem_of_nil|].
  intros [->|Hin]%elem_of_cons.
  - rewrite filter_cons_True by done. cbn. f_equal.
    apply length_zero_iff_nil.
    clear IH Hnd. induction l as [|z l IH]; [done|].
    apply not_elem_of_cons in Hy as [? ?].
    rewrite filter_cons_False by (intros ->; done). by apply IH.
  - rewrite filter_cons_False by (intros ->; done). by apply IH.
Qed.

Lemma menu_items_selected_count (initial_of : string → string) (st : State) :
  length (filter (λ m, is_selected m = true) (menu_items initial_of st))
  = length (filter (λ o, o = current_compose_persona_id st)
              (cycle_order (my_personas st))).
Proof.
  unfold menu_items, cycle_order, get_my_personas, get_compose_persona_id.
  set (cur := current_compose_persona_id st).
  assert (∀ l : list MyPersona,
    length (filter (λ m, is_selected m = true)
      ((λ p, mkMenuItem (Some (id p)) (name p) (avatar_url p) (color p) false
               (bool_decide (cur = Some (id p)))
               (Some (initial_of (name p)))) <$> l))
    = length (filter (λ o, o = cur) ((λ p, Some (id p)) <$> l))) as Hrest.
  { induction l as [|p l IH]; [done|]. rewrite !fmap_cons.
    destruct (decide (cur = Some (id p))) as [Heq|Hne].
    - rewrite (filter_cons_True (λ m, is_selected m = true)); last first.
      { cbn. by apply bool_decide_eq_true_2. }
      rewrite (filter_cons_True (λ o, o = cur)) by done. cbn. by rewrite IH.
    - rewrite (filter_cons_False (λ m, is_selected m = true)); last first.
      { cbn. by rewrite bool_decide_eq_false_2. }
      rewrite (filter_cons_False (λ o, o = cur)) by (intros ?; done).
      done. }
  destruct (decide (cur = None)) as [Heq|Hne].
  - rewrite (filter_cons_True (λ m, is_selected m = true)); last first.
    { cbn. by apply bool_decide_eq_true_2. }
    rewrite (filter_cons_True (λ o, o = cur)) by done. cbn. by rewrite Hrest.
  - rewrite (filter_cons_False (λ m, is_selected m = true)); last first.
    { cbn. by rewrite bool_decide_eq_false_2. }
    rewrite (filter_cons_False (λ o, o = cur)) by (intros ?; done).
    apply Hrest.
Qed.

Lemma cycle_order_NoDup (l : list MyPersona) :
  NoDup (id <$> l) → NoDup (cycle_order l).
Proof.
  intros Hnd. unfold cycle_order. apply NoDup_cons. split.
  - intros (p&?&?)%list_elem_of_fmap. done.
  - assert ((λ p, Some (id p)) <$> l = Some <$> (id <$> l)) as ->.
    { by rewrite <- list_fmap_compose. }
    apply NoDup_fmap_2; [|done]. by intros ?? [= ->].
Qed.

Lemma current_in_cycle_order (st : State) :
  current_compose_persona_id st ∈ cycle_order (my_personas st)
  ↔ selection_ok st = true.
Proof.
  rewrite selection_ok_iff. unfold cycle_order. rewrite elem_of_cons.
  destruct (current_compose_persona_id st) as [c|].
  - split.
    + intros [?|(p&[= ->]&Hp)%list_elem_of_fmap]; [done|].
      intros c' [= <-]. by apply list_elem_of_fmap_2.
    + intros Hin. right. specialize (Hin c eq_refl).
      apply list_elem_of_fmap in Hin as (p&->&Hp).
      apply list_elem_of_fmap. by exists p.
  - split; [done|by left].
Qed.

(** X9.  The persona menu lists Yourself and then the personas, in the
    order in which [cycle_persona] walks through them.  When the ids of the
    list are distinct, exactly one entry is marked as selected if the
    selection is Yourself or a listed persona, and none is if the selection
    names a persona that is not listed. *)
Theorem menu_marks_one_entry (initial_of : string → string) (st : State) :
  NoDup (id <$> my_personas st) →
  item_id <$> menu_items initial_of st = cycle_order (my_personas st)
  ∧ (∀ m, m ∈ menu_items initial_of st →
       (is_selected m = true ↔ item_id m = current_compose_persona_id st))
  ∧ length (filter (λ m, is_selected m = true) (menu_items initial_of st))
    = (if selection_ok st then 1 else 0)%nat.
Proof.
  intros Hnd. split; [|split].
  - unfold menu_items, cycle_order, get_my_personas. cbn. f_equal.
    rewrite <- list_fmap_compose. by apply list_fmap_ext.
  - intros m. unfold menu_items, get_my_personas, get_compose_persona_id.
    intros [->|(p&->&_)%list_elem_of_fmap]%elem_of_cons; cbn.
    + rewrite bool_decide_eq_true. split; congruence.
    + rewrite bool_decide_eq_true. split; congruence.
  - rewrite menu_items_selected_count.
    destruct (selection_ok st) eqn:Hok.
    + apply filter_eq_once; [by apply cycle_order_NoDup|].
      by apply current_in_cycle_order.
    + apply length_zero_iff_nil. 
      destruct (filter (λ o, o = current_compose_persona_id st)
                  (cycle_order (my_personas st))) as [|o rest] eqn:Hfilter;
        [done|].
      assert (o ∈ filter (λ o, o = current_compose_persona_id st)
                    (cycle_order (my_personas st))) as Hin.
      { rewrite Hfilter. apply list_elem_of_here. }
      apply list_elem_of_filter in Hin as [-> Hin].
      apply current_in_cycle_order in Hin. congruence.
Qed.

Lemma menu_marks_one_entry_witness :
  item_id <$> menu_items (λ n, n) (sample_state [gandalf; frodo] (Some 2))
  = cycle_order [gandalf; frodo]
  ∧ (∀ m, m ∈ menu_items (λ n, n) (sample_state [gandalf; frodo] (Some 2)) →
       (is_selected m = true ↔ item_id m = Some 2))
  ∧ length (filter (λ m, is_selected m = true)
              (menu_items (λ n, n) (sample_state [gandalf; frodo] (Some 2))))
    = 1%nat.
Proof.
  apply (menu_marks_one_entry (λ n, n)
           (sample_state [gandalf; frodo] (Some 2))).
  cbn. apply NoDup_cons. split.
  - rewrite not_elem_of_cons. split; [discriminate|apply not_elem_of_nil].
  - apply NoDup_singleton.
Defined.

(** X10.  While the request for the personas is pending and the compose
    box is on a stream, an [add], [update] or [remove] event that passes the
    guards of [handle_persona_event] never returns, whatever the fuel: the
    compose callback registers a one-time callback, the loop of
    [notify_change] visits it, and running it registers the next one. *)
Theorem persona_event_before_personas_arrive (fuel : nat)
    (event : PersonaEvent) (s : Z) (st : State) :
  my_personas_fetched st = false →
  my_personas_pending st = true →
  compose_stream_id st = Some s →
  change_callbacks st = [ComposeOnPersonasChanged] →
  (op event = "add" ∧ is_Some (persona event))
  ∨ (op event = "update" ∧ is_Some (persona event))
  ∨ (op event = "remove" ∧ ∃ r, persona_id event = Some r ∧ r ≠ 0) →
  handle_persona_event fuel event st = None.
Proof.
  intros Hf Hp Hs Hcbs Hev.
  assert (∀ st1, my_personas_fetched st1 = false →
            my_personas_pending st1 = true →
            compose_stream_id st1 = Some s →
            change_callbacks st1 = [ComposeOnPersonasChanged] →
            personas.notify_change (run_callback fuel) fuel
              (mark_realm_personas_stale st1) = None) as Hloop.
  { intros st1 Hf1 Hp1 Hs1 Hcbs1.
    apply (compose_persona_facts.notify_change_while_fetch_pending fuel s);
      unfold mark_realm_personas_stale;
      by destruct (realm_personas_fetched st1). }
  unfold handle_persona_event, personas.handle_persona_event.
  destruct event as [op pers pid]. cbn in Hev |- *.
  destruct Hev as [[-> [p ->]]|[[-> [p ->]]|[-> (r&->&Hr)]]]; cbn.
  - by apply Hloop.
  - destruct (findIndex_by_id (id p) (my_personas st)); by apply Hloop.
  - rewrite bool_decide_eq_false_2 by done. cbn.
    assert ((r =? 0) = false) as ->; [by apply Z.eqb_neq|]. cbn.
    case_decide; by apply Hloop.
Qed.

Lemma persona_event_before_personas_arrive_witness :
  initialize (initial_state (Some 5) false ButtonYourself)
  = Some loading_state
  ∧ handle_persona_event 1000 (add_event gandalf) loading_state = None.
Proof.
  split; [reflexivity|].
  apply (persona_event_before_personas_arrive 1000 (add_event gandalf) 5
           loading_state).
  - reflexivity.
  - reflexivity.
  - reflexivity.
  - reflexivity.
  - left. split; [reflexivity|]. by eexists.
Defined.






(** X12.  When the request fails, nobody is notified: a caller that asked
    for the list while the request was pending stays registered and is not
    run, so the selector of the compose box keeps the visibility it had,
    although the list now counts as fetched and empty. *)
Theorem failed_request_leaves_callers_waiting (fuel : nat) (s : Z)
    (st : State) :
  (1 ≤ fuel)%nat →
  my_personas_fetched st = false →
  my_personas_pending st = true →
  my_personas_request st = None →
  ∃ st1 st2,
    update_for_stream fuel (Some s) st = Some st1
    ∧ personas.fetch_my_personas_error (run_continuation fuel) st1 = Some st2
    ∧ my_personas st2 = []
    ∧ my_personas_fetched st2 = true
    ∧ OneTime (next_serial st) (KUpdateForStream s) ∈ change_callbacks st2
    ∧ selector_visible st2 = selector_visible st
    ∧ selector_button st2 = selector_button st.
Proof.
  intros Hfuel Hf Hp Hreq. destruct fuel as [|fuel]; [lia|].
  rewrite compose_persona_facts.update_for_stream_pending by done.
  unfold personas.fetch_my_personas_error, register_change_callback.
  cbn [change_callbacks with_change_callbacks].
  case_decide as Hin.
  - eexists _, _. split; [reflexivity|]. cbn. rewrite Hreq. cbn.
    split; [reflexivity|]. by repeat split.
  - eexists _, _. split; [reflexivity|]. cbn. rewrite Hreq. cbn.
    split; [reflexivity|]. repeat split; try done.
    apply elem_of_app. right. apply list_elem_of_here.
Qed.

Lemma failed_request_leaves_callers_waiting_witness :
  ∃ st1 st2,
    update_for_stream 1 (Some 5) loading_state = Some st1
    ∧ personas.fetch_my_personas_error (run_continuation 1) st1 = Some st2
    ∧ my_personas st2 = []
    ∧ my_personas_fetched st2 = true
    ∧ OneTime 0 (KUpdateForStream 5) ∈ change_callbacks st2
    ∧ selector_visible st2 = false
    ∧ selector_button st2 = ButtonYourself.
Proof.
  apply (failed_request_leaves_callers_waiting 1 5 loading_state).
  - lia.
  - reflexivity.
  - reflexivity.
  - reflexivity.
Defined.

End compose_persona_ui_facts.

(** ** The whisper recipients: puppets ([part_003]) *)
Module whisper_typeahead_facts.
Import whisper whisper_puppets whisper_typeahead.

Lemma find_puppet_Some (P : StreamPuppet → bool) (l : list StreamPuppet)
    (p : StreamPuppet) :
  find_puppet P l = Some p → p ∈ l ∧ P p = true.
Proof.
  induction l as [|q l IH]; cbn; [done|].
  destruct (P q) eqn:HP.
  - intros [= <-]. split; [apply list_elem_of_here|done].
  - intros Hfind. destruct (IH Hfind). split; [|done].
    by apply list_elem_of_further.
Qed.

Lemma find_puppet_None (P : StreamPuppet → bool) (l : list StreamPuppet) :
  find_puppet P l = None → ∀ p, p ∈ l → P p = false.
Proof.
  induction l as [|q l IH]; cbn; [by intros _ p ?%elem_of_nil|].
  destruct (P q) eqn:HP; [done|].
  intros Hfind p [->|Hp]%elem_of_cons; [done|]. by apply IH.
Qed.

(** The ids of the puppet pills among some pills, as [get_puppet_ids]
    reads them. *)
Lemma puppet_ids_app (l k : list WhisperPill) :
  omap (λ item, match item with
                | PuppetPill pid _ => Some pid
                | Combined _ => None
                end) (l ++ k)
  = omap (λ item, match item with
                  | PuppetPill pid _ => Some pid
                  | Combined _ => None
                  end) l
    ++ omap (λ item, match item with
                     | PuppetPill pid _ => Some pid
                     | Combined _ => None
                     end) k.
Proof. apply omap_app. Qed.

Lemma puppet_ids_Combined (added : list CombinedPill) :
  omap (λ item, match item with
                | PuppetPill pid _ => Some pid
                | Combined _ => None
                end) (Combined <$> added) = [].
Proof. induction added as [|c added IH]; [done|]. cbn. exact IH. Qed.

Lemma elem_of_puppet_ids (pid : Z) (l : list WhisperPill) :
  pid ∈ omap (λ item, match item with
                      | PuppetPill pid _ => Some pid
                      | Combined _ => None
                      end) l
  ↔ ∃ nm, PuppetPill pid nm ∈ l.
Proof.
  rewrite list_elem_of_omap. split.
  - intros ([c|pid' nm]&Hin&Heq); [done|]. injection Heq as ->. by exists nm.
  - intros [nm Hin]. by exists (PuppetPill pid nm).
Qed.

(** X13.  Text typed into the whisper box becomes a puppet pill only for a
    puppet of the current stream whose name equals the text up to case and
    that has no pill yet; the pill carries the id and the name of that
    puppet. *)
Theorem typed_puppet_is_new {W} (env : Env W) (st : State W) (text : string)
    (current_items : list WhisperPill) (pid : Z) (nm : string) :
  create_item_from_text env st text current_items = Some (PuppetPill pid nm) →
  ∃ stream_id puppet,
    current_stream_id st = Some stream_id
    ∧ puppet ∈ get_puppets_for_stream env stream_id
    ∧ puppet_id puppet = pid
    ∧ puppet_name puppet = nm
    ∧ toLowerCase env (puppet_name puppet) = toLowerCase env text
    ∧ ∀ nm', PuppetPill pid nm' ∉ current_items.
Proof.
  unfold create_item_from_text.
  assert (∀ r : option WhisperPill,
            r = match create_item_from_group_name env text current_items with
                | Some item => Some (Combined item)
                | None =>
                    match create_item_from_user_id env text current_items with
                    | Some item => Some (Combined item)
                    | None => None
                    end
                end → r ≠ Some (PuppetPill pid nm)) as Hplain.
  { intros r ->.
    destruct (create_item_from_group_name env text current_items); [done|].
    by destruct (create_item_from_user_id env text current_items). }
  destruct (current_stream_id st) as [stream_id|];
    [|intros Hr; by destruct (Hplain _ eq_refl)].
  destruct (find_puppet _ (get_puppets_for_stream env stream_id))
    as [puppet|] eqn:Hfind; [|intros Hr; by destruct (Hplain _ eq_refl)].
  destruct (existsb _ current_items) eqn:Hadded;
    [intros Hr; by destruct (Hplain _ eq_refl)|].
  intros [= <- <-]. apply find_puppet_Some in Hfind as [Hin Hname].
  exists stream_id, puppet. split; [done|]. split; [done|].
  split; [done|]. split; [done|].
  split; [by apply bool_decide_eq_true in Hname|].
  intros nm' Hpill.
  assert (existsb (λ item, match item with
                           | PuppetPill pid _ =>
                               bool_decide (pid = puppet_id puppet)
                           | Combined _ => false
                           end) current_items = true) as Hex.
  { apply existsb_exists. exists (PuppetPill (puppet_id puppet) nm').
    split; [by apply list_elem_of_In|]. by apply bool_decide_eq_true. }
  congruence.
Qed.

Lemma typed_puppet_is_new_witness :
  ∃ stream_id puppet,
    current_stream_id (yorick_state []) = Some stream_id
    ∧ puppet ∈ get_puppets_for_stream yorick_env stream_id
    ∧ puppet_id puppet = 31
    ∧ puppet_name puppet = "Osric"
    ∧ toLowerCase yorick_env (puppet_name puppet)
      = toLowerCase yorick_env "Osric"
    ∧ ∀ nm', PuppetPill 31 nm' ∉ ([] : list WhisperPill).
Proof.
  apply (typed_puppet_is_new yorick_env (yorick_state []) "Osric" [] 31
           "Osric").
  reflexivity.
Defined.

(** X14.  The typeahead offers only puppets of the current stream that
    have no pill, and a puppet that was picked from it is not offered
    again. *)
Theorem offered_puppets_have_no_pill {W} (env : Env W) (st : State W)
    (w : W) :
  PillContainer env →
  widget st = Some w →
  (∀ p, p ∈ get_puppets env st →
     (∃ stream_id, current_stream_id st = Some stream_id
                   ∧ p ∈ get_puppets_for_stream env stream_id)
     ∧ puppet_id p ∉ get_puppet_ids env st)
  ∧ (∀ p q, puppet_id q = puppet_id p →
       q ∉ get_puppets env (updater_puppet env p st))
  ∧ (∀ p q, q ∈ get_puppets env st → puppet_id q ≠ puppet_id p →
       q ∈ get_puppets env (updater_puppet env p st)).
Proof.
  intros Hlaws Hw. split; [|split].
  - intros p. unfold get_puppets. rewrite Hw.
    destruct (current_stream_id st) as [stream_id|];
      [|by intros ?%elem_of_nil].
    intros [Hnot Hin]%list_elem_of_filter. split; [|done]. by exists stream_id.
  - intros p q Hid. unfold get_puppets, updater_puppet. rewrite Hw. cbn.
    destruct (current_stream_id st) as [stream_id|]; [|apply not_elem_of_nil].
    intros [Hnot _]%list_elem_of_filter. apply Hnot.
    unfold get_puppet_ids. cbn. rewrite (items_appendValidatedData env Hlaws).
    rewrite puppet_ids_app. apply elem_of_app. right. cbn. rewrite Hid.
    apply list_elem_of_here.
  - intros p q. unfold get_puppets, updater_puppet. rewrite Hw. cbn.
    destruct (current_stream_id st) as [stream_id|]; [|by intros ?%elem_of_nil].
    intros [Hnot Hin]%list_elem_of_filter Hne.
    apply list_elem_of_filter. split; [|done].
    unfold get_puppet_ids in *. rewrite Hw in Hnot. cbn.
    rewrite (items_appendValidatedData env Hlaws), puppet_ids_app.
    intros [?|Hnew]%elem_of_app; [done|]. cbn in Hnew.
    by apply list_elem_of_singleton in Hnew.
Qed.

Lemma yorick_env_container : PillContainer yorick_env.
Proof.
  split.
  - done.
  - done.
  - intros person w. by exists [UserPill person].
  - intros group w. by exists [UserGroupPill group].
Qed.

Lemma offered_puppets_have_no_pill_witness :
  (∀ p, p ∈ get_puppets yorick_env (yorick_state [PuppetPill 30 "Yorick"]) →
     (∃ stream_id,
        current_stream_id (yorick_state [PuppetPill 30 "Yorick"])
        = Some stream_id
        ∧ p ∈ get_puppets_for_stream yorick_env stream_id)
     ∧ puppet_id p
       ∉ get_puppet_ids yorick_env (yorick_state [PuppetPill 30 "Yorick"]))
  ∧ (∀ p q, puppet_id q = puppet_id p →
       q ∉ get_puppets yorick_env
             (updater_puppet yorick_env p
                (yorick_state [PuppetPill 30 "Yorick"])))
  ∧ (∀ p q,
       q ∈ get_puppets yorick_env (yorick_state [PuppetPill 30 "Yorick"]) →
       puppet_id q ≠ puppet_id p →
       q ∈ get_puppets yorick_env
             (updater_puppet yorick_env p
                (yorick_state [PuppetPill 30 "Yorick"]))).
Proof.
  apply (offered_puppets_have_no_pill yorick_env
           (yorick_state [PuppetPill 30 "Yorick"]) [PuppetPill 30 "Yorick"]).
  - exact yorick_env_container.
  - reflexivity.
Defined.

Lemma append_known_users_items {W} (env : Env W) (user_ids : list Z) :
  PillContainer env →
  ∀ w, ∃ added, items env (append_known_users env user_ids w)
                = items env w ++ (Combined <$> added).
Proof.
  intros Hlaws. unfold append_known_users.
  induction user_ids as [|u user_ids IH]; intros w; cbn.
  { exists []. by rewrite app_nil_r. }
  destruct (maybe_get_user_by_id env u) as [person|]; [|apply IH].
  destruct (IH (append_person env person w)) as [added ->].
  destruct (items_append_person env Hlaws person w) as [added' ->].
  exists (added' ++ added). by rewrite fmap_app, app_assoc.
Qed.

Lemma append_known_groups_items {W} (env : Env W) (group_ids : list Z) :
  PillContainer env →
  ∀ w, ∃ added, items env (append_known_groups env group_ids w)
                = items env w ++ (Combined <$> added).
Proof.
  intros Hlaws. unfold append_known_groups.
  induction group_ids as [|g group_ids IH]; intros w; cbn.
  { exists []. by rewrite app_nil_r. }
  destruct (maybe_get_user_group_from_id env g) as [group|]; [|apply IH].
  destruct (IH (append_user_group env group w)) as [added ->].
  destruct (items_append_user_group env Hlaws group w) as [added' ->].
  exists (added' ++ added). by rewrite fmap_app, app_assoc.
Qed.

Lemma append_known_puppets_ids {W} (env : Env W)
    (puppets : list StreamPuppet) (puppet_ids : list Z) :
  PillContainer env →
  ∀ w,
    omap (λ item, match item with
                  | PuppetPill pid _ => Some pid
                  | Combined _ => None
                  end)
      (items env
         (foldl (λ w pid,
                   match find_puppet (λ p, bool_decide (puppet_id p = pid))
                           puppets with
                   | Some puppet =>
                       appendValidatedData env
                         (PuppetPill (puppet_id puppet) (puppet_name puppet)) w
                   | None => w
                   end) w puppet_ids))
    = omap (λ item, match item with
                    | PuppetPill pid _ => Some pid
                    | Combined _ => None
                    end) (items env w)
      ++ filter (λ pid, pid ∈ puppet_id <$> puppets) puppet_ids.
Proof.
  intros Hlaws.
  induction puppet_ids as [|pid puppet_ids IH]; intros w; cbn [foldl].
  { by rewrite filter_nil, app_nil_r. }
  destruct (find_puppet (λ p, bool_decide (puppet_id p = pid)) puppets)
    as [puppet|] eqn:Hfind.
  - apply find_puppet_Some in Hfind as [Hin Hid].
    apply bool_decide_eq_true in Hid.
    rewrite IH, (items_appendValidatedData env Hlaws), puppet_ids_app.
    rewrite filter_cons_True; last first.
    { apply list_elem_of_fmap. by exists puppet. }
    cbn. rewrite Hid. by rewrite <- app_assoc.
  - rewrite IH. rewrite filter_cons_False; [done|].
    intros (p&Hid&Hin)%list_elem_of_fmap.
    pose proof (find_puppet_None _ _ Hfind p Hin) as Hp.
    apply bool_decide_eq_false in Hp. by apply Hp.
Qed.

(** X15.  [set_from_all_ids] hands the compose state the puppet ids as
    given, but shows a pill only for those ids that name a puppet of the
    current stream (one pill per occurrence, none without a stream); so
    [update_compose_state], run at the next change of a pill, drops the
    other ids from the recipients. *)
Theorem set_from_all_ids_puppet_pills {W} (env : Env W)
    (user_ids group_ids puppet_ids : list Z) (st : State W) (w : W) :
  PillContainer env →
  widget st = Some w →
  whisper_puppet_ids (set_from_all_ids env user_ids group_ids puppet_ids st)
  = puppet_ids
  ∧ get_puppet_ids env (set_from_all_ids env user_ids group_ids puppet_ids st)
    = match current_stream_id st with
      | Some stream_id =>
          filter (λ pid, pid ∈ puppet_id <$> get_puppets_for_stream env stream_id)
            puppet_ids
      | None => []
      end
  ∧ whisper_puppet_ids
      (update_compose_state env
         (set_from_all_ids env user_ids group_ids puppet_ids st))
    = get_puppet_ids env
        (set_from_all_ids env user_ids group_ids puppet_ids st).
Proof.
  intros Hlaws Hw.
  assert (∃ added,
            items env
              (append_known_groups env group_ids
                 (append_known_users env user_ids (widget_clear env w)))
            = Combined <$> added) as [added Hitems].
  { destruct (append_known_groups_items env group_ids Hlaws
                (append_known_users env user_ids (widget_clear env w)))
      as [added2 ->].
    destruct (append_known_users_items env user_ids Hlaws (widget_clear env w))
      as [added1 ->].
    rewrite (items_clear env Hlaws). exists (added1 ++ added2).
    by rewrite fmap_app. }
  unfold set_from_all_ids, set_from_user_ids, set_from_group_ids,
    set_from_puppet_ids, update_compose_state, get_puppet_ids.
  rewrite Hw. cbn.
  destruct (current_stream_id st) as [stream_id|]; cbn.
  - rewrite append_known_puppets_ids by done.
    rewrite Hitems, puppet_ids_Combined. done.
  - rewrite Hitems, puppet_ids_Combined. done.
Qed.

Lemma set_from_all_ids_puppet_pills_witness :
  whisper_puppet_ids
    (set_from_all_ids yorick_env [10] [20] [31; 99; 30; 31] (yorick_state []))
  = [31; 99; 30; 31]
  ∧ get_puppet_ids yorick_env
      (set_from_all_ids yorick_env [10] [20] [31; 99; 30; 31]
         (yorick_state []))
    = [31; 30; 31]
  ∧ whisper_puppet_ids
      (update_compose_state yorick_env
         (set_from_all_ids yorick_env [10] [20] [31; 99; 30; 31]
            (yorick_state [])))
    = [31; 30; 31].
Proof.
  destruct (set_from_all_ids_puppet_pills yorick_env [10] [20]
              [31; 99; 30; 31] (yorick_state []) [])
    as (Hstate&Hpills&Hupdate).
  - exact yorick_env_container.
  - reflexivity.
  - split; [exact Hstate|]. split; [|rewrite Hupdate]; reflexivity.
Defined.

End whisper_typeahead_facts.

(** ** The character forms of the settings panel *)
Module settings_characters_facts.
Import persona_store settings_characters.

Lemma pretty_N_go_not_empty (x : N) (s : string) :
  s ≠ "" → pretty_N_go x s ≠ "".
Proof.
  revert s. induction (N.lt_wf_0 x) as [x _ IH]; intros s Hs.
  assert (x = 0 ∨ 0 < x)%N as [->|Hpos] by lia.
  - by rewrite pretty_N_go_0.
  - rewrite pretty_N_go_step by done. apply IH; [|done].
    by apply N.div_lt.
Qed.

(** The decimal form of a number is never the empty string. *)
Lemma pretty_Z_not_empty (z : Z) : pretty z ≠ "".
Proof.
  destruct z as [|p|p]; [done| |done].
  unfold pretty, pretty_Z, pretty, pretty_positive, pretty, pretty_N.
  rewrite decide_False by done.
  rewrite pretty_N_go_step by done. by apply pretty_N_go_not_empty.
Qed.

(** X16.  The edit form is opened only for a listed persona.  Saved as it
    was opened, it sends a PATCH to the URL of that persona with its name
    and bio; the avatar and the colour are sent only when set, and a colour
    equal to the default grey of the form is not sent. *)
Theorem edit_form_saved_unchanged (persona_id : Z) (st : State)
    (form : CharacterForm) (context : FormContext) :
  open_edit_character_modal persona_id st = Some context →
  shows form context →
  ∃ p, p ∈ my_personas st ∧ id p = persona_id
    ∧ submit_character_form form
      = Patch ("/json/users/me/personas/" +:+ pretty persona_id)
          (mkCharacterData (name p) (bio p)
             (match avatar_url p with
              | Some url => if decide (url = "") then None else Some url
              | None => None
              end)
             (match color p with
              | Some c =>
                  if decide (c = "" ∨ c = "#6b7280") then None else Some c
              | None => None
              end)).
Proof.
  unfold open_edit_character_modal, personas.get_my_personas.
  destruct (find_by_id persona_id (my_personas st)) as [p|] eqn:Hfind; [|done].
  intros [= <-] (Hname&Havatar&Hcolor&Hbio&Hid). cbn in *.
  assert (p ∈ my_personas st ∧ id p = persona_id) as [Hin Hp].
  { clear -Hfind. induction (my_personas st) as [|q l IH]; [done|].
    cbn in Hfind. case_decide.
    - injection Hfind as ->. split; [apply list_elem_of_here|done].
    - destruct (IH Hfind). split; [by apply list_elem_of_further|done]. }
  exists p. split; [done|]. split; [done|].
  unfold submit_character_form. rewrite Hname, Havatar, Hcolor, Hbio, Hid, Hp.
  rewrite decide_False by apply pretty_Z_not_empty.
  f_equal. f_equal.
  + destruct (avatar_url p) as [url|]; cbn; [|done].
    by destruct (decide (url = "")).
  + destruct (color p) as [c|]; cbn; [|done].
    destruct (decide (c = "")) as [->|Hc].
    * rewrite decide_True; [done|by left].
    * destruct (decide (c = "#6b7280")) as [->|Hc'].
      -- rewrite decide_True; [done|by right].
      -- rewrite decide_False; [done|]. by intros [?|?].
Qed.

Lemma edit_form_saved_unchanged_witness :
  ∃ p, p ∈ [compose_persona.gandalf; saruman] ∧ id p = 3
    ∧ submit_character_form
        (mkCharacterForm "Saruman" "/avatars/saruman.png" "#6b7280"
           "The White" "3")
      = Patch ("/json/users/me/personas/" +:+ pretty 3)
          (mkCharacterData (name p) (bio p)
             (match avatar_url p with
              | Some url => if decide (url = "") then None else Some url
              | None => None
              end)
             (match color p with
              | Some c =>
                  if decide (c = "" ∨ c = "#6b7280") then None else Some c
              | None => None
              end)).
Proof.
  apply (edit_form_saved_unchanged 3
           (compose_persona.sample_state
              [compose_persona.gandalf; saruman] None)
           (mkCharacterForm "Saruman" "/avatars/saruman.png" "#6b7280"
              "The White" "3")
           (mkFormContext true (Some 3) "Saruman" "/avatars/saruman.png"
              "#6b7280" "The White")).
  - reflexivity.
  - repeat split; done.
Defined.

(** Saruman's form, saved unchanged: the PATCH goes to persona 3 and
    carries no colour, because his colour is the default grey. *)
Example saruman_saved_unchanged :
  submit_character_form
    (mkCharacterForm "Saruman" "/avatars/saruman.png" "#6b7280"
       "The White" "3")
  = Patch "/json/users/me/personas/3"
      (mkCharacterData "Saruman" "The White"
         (Some "/avatars/saruman.png") None).
Proof. reflexivity. Qed.

End settings_characters_facts.

(** ** The persona picker of the theater *)
Module persona_picker_facts.
Import persona_picker.

Lemma findIndex_range {A} (P : A → bool) (l : list A) :
  -1 ≤ findIndex P l < Z.of_nat (length l).
Proof.
  induction l as [|x l IH]; cbn [findIndex length]; [lia|].
  destruct (P x); [lia|]. destruct (findIndex P l =? -1) eqn:Hi; lia.
Qed.

Lemma findIndex_found {A} (P : A → bool) (l : list A) :
  0 ≤ findIndex P l →
  ∃ x, l !! Z.to_nat (findIndex P l) = Some x ∧ P x = true.
Proof.
  induction l as [|x l IH]; cbn [findIndex]; [lia|].
  destruct (P x) eqn:HP; [intros _; by exists x|].
  destruct (findIndex P l =? -1) eqn:Hi; [lia|]. intros _.
  apply Z.eqb_neq in Hi. pose proof (findIndex_range P l) as Hr.
  destruct IH as (y&Hy&HPy); [lia|]. exists y. split; [|done].
  replace (Z.to_nat (findIndex P l + 1)) with (S (Z.to_nat (findIndex P l)))
    by lia.
  done.
Qed.

Lemma findIndex_missing {A} (P : A → bool) (l : list A) :
  findIndex P l = -1 → ∀ x, x ∈ l → P x = false.
Proof.
  induction l as [|x l IH]; cbn [findIndex]; [by intros _ y ?%elem_of_nil|].
  destruct (P x) eqn:HP; [lia|].
  destruct (findIndex P l =? -1) eqn:Hi.
  - apply Z.eqb_eq in Hi. intros _ y [->|Hy]%elem_of_cons; [done|].
    by apply IH.
  - pose proof (findIndex_range P l). apply Z.eqb_neq in Hi. lia.
Qed.

Lemma is_selected_option_Some (c : Z) (q : Persona) :
  is_selected_option (Some c) (Some q) = bool_decide (id q = c).
Proof. cbn. apply bool_decide_ext. split; congruence. Qed.

(** The position [findIndex] gives for the persona that [find] gives. *)
Lemma findIndex_find (c : Z) (users : list Persona) (p : Persona) :
  List.find (λ p, bool_decide (id p = c)) users = Some p →
  0 ≤ findIndex (is_selected_option (Some c)) (Some <$> users)
  ∧ (Some <$> users)
      !! Z.to_nat (findIndex (is_selected_option (Some c)) (Some <$> users))
    = Some (Some p).
Proof.
  induction users as [|q users IH]; cbn [List.find fmap list_fmap findIndex];
    [done|].
  rewrite is_selected_option_Some.
  destruct (decide (id q = c)) as [Hq|Hq].
  - rewrite !bool_decide_eq_true_2 by congruence. by intros [= ->].
  - rewrite !bool_decide_eq_false_2 by congruence. intros Hfind.
    destruct (IH Hfind) as [Hpos Hlook].
    destruct (findIndex _ (Some <$> users) =? -1) eqn:Hi;
      [apply Z.eqb_eq in Hi; lia|].
    split; [lia|].
    replace (Z.to_nat (findIndex (is_selected_option (Some c))
                         (Some <$> users) + 1))
      with (S (Z.to_nat (findIndex (is_selected_option (Some c))
                           (Some <$> users)))) by lia.
    done.
Qed.



(** X18.  Opening the list puts the focus on the option of the current
    selection: on Yourself when nothing is selected, on the first persona
    with the selected id otherwise, and on no option when the selected id
    is not in the list.  The persona shown on the button, if any, is the
    focused option. *)
Theorem dropdown_opens_on_the_selection (selectedPersonaId : option Z)
    (userPersonas : list Persona) (st : Picker) :
  isOpen st = false →
  isOpen (toggleDropdown selectedPersonaId userPersonas st) = true
  ∧ focus_in_range userPersonas
      (toggleDropdown selectedPersonaId userPersonas st)
  ∧ (selectedPersonaId = None →
     focusedIndex (toggleDropdown selectedPersonaId userPersonas st) = 0)
  ∧ (∀ c, selectedPersonaId = Some c →
       if decide (c ∈ id <$> userPersonas) then
         ∃ p, allOptions userPersonas
                !! Z.to_nat (focusedIndex
                               (toggleDropdown selectedPersonaId userPersonas st))
              = Some (Some p)
              ∧ id p = c
              ∧ 1 ≤ focusedIndex
                      (toggleDropdown selectedPersonaId userPersonas st)
       else focusedIndex (toggleDropdown selectedPersonaId userPersonas st)
            = -1)
  ∧ (∀ p, selectedPersona selectedPersonaId userPersonas = Some p →
       allOptions userPersonas
         !! Z.to_nat (focusedIndex
                        (toggleDropdown selectedPersonaId userPersonas st))
       = Some (Some p)).
Proof.
  intros Hclosed. unfold toggleDropdown. rewrite Hclosed. cbn [negb].
  cbn [isOpen focusedIndex].
  pose proof (findIndex_range (is_selected_option selectedPersonaId)
                (allOptions userPersonas)) as Hrange.
  split; [done|]. split.
  { unfold focus_in_range. cbn [focusedIndex allOptions length] in *.
    rewrite length_fmap in Hrange. lia. }
  split; [by intros ->|].
  assert (∀ c, findIndex (is_selected_option (Some c)) (allOptions userPersonas)
               = let i := findIndex (is_selected_option (Some c))
                            (Some <$> userPersonas) in
                 if i =? -1 then -1 else i + 1) as Hstep.
  { intros c. unfold allOptions. cbn [findIndex is_selected_option].
    by rewrite bool_decide_eq_false_2. }
  assert (∀ (i : Z) x, 0 ≤ i →
            (Some <$> userPersonas) !! Z.to_nat i = Some x →
            allOptions userPersonas !! Z.to_nat (i + 1) = Some x) as Hshift.
  { intros i x Hi Hx.
    replace (Z.to_nat (i + 1)) with (S (Z.to_nat i)) by lia. done. }
  split.
  - intros c ->. rewrite Hstep. cbn zeta.
    pose proof (findIndex_range (is_selected_option (Some c))
                  (Some <$> userPersonas)) as Hr.
    case_decide as Hin.
    + destruct (findIndex (is_selected_option (Some c))
                  (Some <$> userPersonas) =? -1) eqn:Hi.
      * apply Z.eqb_eq in Hi.
        apply list_elem_of_fmap in Hin as (p&->&Hp).
        pose proof (findIndex_missing _ _ Hi (Some p)) as Hmiss.
        rewrite is_selected_option_Some in Hmiss.
        rewrite bool_decide_eq_true_2 in Hmiss by done.
        discriminate Hmiss. by apply list_elem_of_fmap_2.
      * apply Z.eqb_neq in Hi.
        destruct (findIndex_found (is_selected_option (Some c))
                    (Some <$> userPersonas)) as (x&Hx&HP); [lia|].
        destruct x as [p|].
        -- exists p. rewrite is_selected_option_Some in HP.
           apply bool_decide_eq_true in HP.
           split; [apply Hshift; [lia|done]|]. split; [done|lia].
        -- cbn in HP. discriminate HP.
    + destruct (findIndex (is_selected_option (Some c))
                  (Some <$> userPersonas) =? -1) eqn:Hi; [done|].
      apply Z.eqb_neq in Hi. exfalso. apply Hin.
      destruct (findIndex_found (is_selected_option (Some c))
                  (Some <$> userPersonas)) as (x&Hx&HP); [lia|].
      apply list_elem_of_lookup_2 in Hx.
      apply list_elem_of_fmap in Hx as (p&->&Hp).
      rewrite is_selected_option_Some in HP.
      apply bool_decide_eq_true in HP. subst c.
      by apply list_elem_of_fmap_2.
  - intros p. unfold selectedPersona.
    destruct selectedPersonaId as [c|]; [|done].
    destruct (c =? 0); [done|]. intros Hfind.
    apply findIndex_find in Hfind as [Hpos Hlook].
    rewrite Hstep. cbn zeta.
    destruct (findIndex (is_selected_option (Some c))
                (Some <$> userPersonas) =? -1) eqn:Hi;
      [apply Z.eqb_eq in Hi; lia|].
    by apply Hshift.
Qed.

Lemma dropdown_opens_on_the_selection_witness :
  isOpen (toggleDropdown (Some 8) [hamlet; ophelia] initial) = true
  ∧ focusedIndex (toggleDropdown (Some 8) [hamlet; ophelia] initial) = 2
  ∧ allOptions [hamlet; ophelia]
      !! Z.to_nat (focusedIndex
                     (toggleDropdown (Some 8) [hamlet; ophelia] initial))
    = Some (Some ophelia).
Proof.
  destruct (dropdown_opens_on_the_selection (Some 8) [hamlet; ophelia]
              initial) as (Hopen&_&_&_&Hbutton).
  - reflexivity.
  - split; [exact Hopen|]. split; [reflexivity|].
    apply Hbutton. reflexivity.
Defined.

(** Enter on the second persona of an open list selects it. *)
Example enter_selects_the_focused_persona :
  handleKeydown "Enter" None [hamlet; ophelia] (mkPicker true 2)
  = (mkPicker false 2, Some (Some 8)).
Proof. reflexivity. Qed.

End persona_picker_facts.

(** ** The message box of the theater *)
Module prompter_facts.
Import prompter.

Lemma typing_of_app (typing : bool) (l k : list ApiCall) :
  typing_of typing (l ++ k) = typing_of typing l ≫= λ b, typing_of b k.
Proof.
  revert typing. induction l as [|c l IH]; intros typing; [done|].
  destruct c as [? ? ? ?|op ? ?]; cbn; [apply IH|].
  case_bool_decide; [destruct typing; [done|apply IH]|].
  case_bool_decide; [destruct typing; [apply IH|done]|done].
Qed.

Lemma sent_app (l k : list ApiCall) : sent (l ++ k) = sent l ++ sent k.
Proof. apply omap_app. Qed.

Ltac fields :=
  cbn [streamId topic activePersonaId content isSending sendError
       typingTimeout isTyping timers next_timer pending_sends calls
       dispatched].

(** The two functions in one piece. *)
Lemma stopTypingNotification_eq (st : State) :
  stopTypingNotification st
  = mkState (streamId st) (topic st) (activePersonaId st) (content st)
      (isSending st) (sendError st) None false
      (match typingTimeout st with
       | Some t => filter (λ u, u ≠ t) (timers st)
       | None => timers st
       end)
      (next_timer st) (pending_sends st)
      (if isTyping st
       then calls st ++ [SendTypingNotification "stop" (streamId st) (topic st)]
       else calls st)
      (dispatched st).
Proof. destruct st as [? ? ? ? ? ? [t|] [|] ? ? ? ? ?]; reflexivity. Qed.

Lemma startTypingNotification_eq (trim : string → string) (st : State) :
  startTypingNotification trim st
  = mkState (streamId st) (topic st) (activePersonaId st) (content st)
      (isSending st) (sendError st) (Some (next_timer st))
      (if negb (isTyping st) && negb (bool_decide (trim (content st) = ""))
       then true else isTyping st)
      (match typingTimeout st with
       | Some t => filter (λ u, u ≠ t) (timers st)
       | None => timers st
       end ++ [next_timer st])
      (S (next_timer st)) (pending_sends st)
      (if negb (isTyping st) && negb (bool_decide (trim (content st) = ""))
       then calls st
            ++ [SendTypingNotification "start" (streamId st) (topic st)]
       else calls st)
      (dispatched st).
Proof.
  destruct st as [? ? ? text ? ? [t|] typing ? ? ? ? ?];
    unfold startTypingNotification; fields;
    destruct (negb typing && negb (bool_decide (trim text = "")));
    reflexivity.
Qed.

Lemma clear_remembered_timer (timeout : option nat) (live : list nat) :
  live = option_list timeout ∨ live = [] →
  match timeout with
  | Some t => filter (λ u, u ≠ t) live
  | None => live
  end = [].
Proof.
  destruct timeout as [t|]; cbn.
  - intros [-> | ->]; [|done].
    by rewrite filter_cons_False, filter_nil by (intros ?; done).
  - by intros [-> | ->].
Qed.

(** [stopTypingNotification] ends the announcement and leaves no timer. *)
Lemma stopTypingNotification_spec (st : State) :
  typing_of false (calls st) = Some (isTyping st) →
  timers st = option_list (typingTimeout st) ∨ timers st = [] →
  typing_of false (calls (stopTypingNotification st)) = Some false
  ∧ isTyping (stopTypingNotification st) = false
  ∧ typingTimeout (stopTypingNotification st) = None
  ∧ timers (stopTypingNotification st) = []
  ∧ sent (calls (stopTypingNotification st)) = sent (calls st)
  ∧ pending_sends (stopTypingNotification st) = pending_sends st
  ∧ isSending (stopTypingNotification st) = isSending st
  ∧ dispatched (stopTypingNotification st) = dispatched st.
Proof.
  intros Hlog Hlive. rewrite stopTypingNotification_eq. fields.
  rewrite (clear_remembered_timer _ _ Hlive).
  destruct (isTyping st).
  - rewrite typing_of_app, Hlog, sent_app. cbn. rewrite app_nil_r.
    by repeat split.
  - by repeat split.
Qed.

Lemma startTypingNotification_spec (trim : string → string) (st : State) :
  typing_of false (calls st) = Some (isTyping st) →
  timers st = option_list (typingTimeout st) →
  typing_of false (calls (startTypingNotification trim st))
  = Some (isTyping (startTypingNotification trim st))
  ∧ (∃ t, typingTimeout (startTypingNotification trim st) = Some t
          ∧ timers (startTypingNotification trim st) = [t])
  ∧ sent (calls (startTypingNotification trim st)) = sent (calls st)
  ∧ pending_sends (startTypingNotification trim st) = pending_sends st
  ∧ isSending (startTypingNotification trim st) = isSending st
  ∧ dispatched (startTypingNotification trim st) = dispatched st.
Proof.
  intros Hlog Hlive. rewrite startTypingNotification_eq. fields.
  rewrite (clear_remembered_timer _ _ (or_introl Hlive)).
  split; [|split; [by eexists|]].
  - destruct (negb (isTyping st)
              && negb (bool_decide (trim (content st) = ""))) eqn:Hstart;
      [|done].
    apply andb_true_iff in Hstart as [Htyping _].
    rewrite typing_of_app, Hlog. by destruct (isTyping st).
  - destruct (negb (isTyping st)
              && negb (bool_decide (trim (content st) = "")));
      [|done].
    rewrite sent_app. cbn. by rewrite app_nil_r.
Qed.

Lemma mount_invariant (streamId : Z) (topic : string)
    (activePersonaId : option Z) :
  invariant (mount streamId topic activePersonaId).
Proof.
  unfold invariant. cbn. by repeat split.
Qed.

Lemma step_invariant (trim : string → string) (e : Event) (st : State) :
  invariant st → invariant (step trim e st).
Proof.
  intros (Hlog&Hlive&Htimer&Hpending&Hsent&Hanswered).
  assert (invariant (sendMessage trim st)) as Hsend.
  { unfold sendMessage.
    destruct (bool_decide (trim (content st) = "") || isSending st) eqn:Hguard;
      [by repeat split|].
    apply orb_false_iff in Hguard as [Htext%bool_decide_eq_false Hsending].
    destruct (stopTypingNotification_spec
                (with_sendError None (with_isSending true st)))
      as (Hl&Hty&Hto&Hti&Hs&Hp&Hse&Hd); [done|by left|].
    unfold invariant. unfold with_pending_sends, call. fields.
    rewrite typing_of_app, Hl, sent_app, Hs, Hty, Hto, Hti, Hp, Hse, Hd.
    cbn. rewrite Hsending in Hpending. rewrite Hpending.
    split; [done|]. split; [done|]. split; [done|]. split; [done|]. split.
    - apply Forall_app. split; [done|]. by apply Forall_singleton.
    - rewrite length_app. rewrite Hpending in Hanswered.
      unfold sent in Hanswered. cbn. lia. }
  destruct e as [text|key shiftKey| | |personaId|id| |t|]; cbn [step].
  - (* Input *)
    unfold handleInput.
    destruct (startTypingNotification_spec trim (with_content text st))
      as (Hlog'&(t&Ht&Hlive')&Hsent'&Hpending'&Hsending'&Hdispatched');
      [done|done|].
    unfold invariant. rewrite Hsent', Hpending', Hsending', Hdispatched', Ht,
      Hlive'.
    by repeat split.
  - (* Keydown *)
    unfold handleKeydown.
    destruct (bool_decide (key = "Enter") && negb shiftKey);
      [done|by repeat split].
  - (* ClickSend *)
    done.
  - (* DismissError *)
    by repeat split.
  - (* PersonaSelect *)
    by repeat split.
  - (* Fulfilled *)
    unfold sendMessage_fulfilled.
    destruct (pending_sends st) as [|n] eqn:Hn.
    { unfold invariant. rewrite Hn. by repeat split. }
    destruct (isSending st); [|done]. injection Hpending as ->.
    unfold invariant. cbn. repeat split; try done.
    rewrite length_app. unfold sent in Hanswered. cbn in *. lia.
  - (* Rejected *)
    unfold sendMessage_rejected.
    destruct (pending_sends st) as [|n] eqn:Hn.
    { unfold invariant. rewrite Hn. by repeat split. }
    destruct (isSending st); [|done]. injection Hpending as ->.
    unfold invariant. cbn. repeat split; try done.
    unfold sent in Hanswered. cbn in *. lia.
  - (* Timer *)
    unfold timer_fires. case_decide as Hin; [|by repeat split].
    destruct (stopTypingNotification_spec
                (with_timers (filter (λ u, u ≠ t) (timers st))
                   (next_timer st) st))
      as (Hl&Hty&Hto&Hti&Hs&Hp&Hse&Hd); [done| |].
    { right. unfold with_timers. fields. rewrite Hlive in Hin |- *.
      destruct (typingTimeout st) as [t'|];
        [|by apply elem_of_nil in Hin].
      apply list_elem_of_singleton in Hin as ->.
      change (option_list (Some t')) with [t'].
      by rewrite filter_cons_False, filter_nil by (intros ?; done). }
    unfold invariant. rewrite Hl, Hty, Hto, Hti, Hs, Hp, Hse, Hd.
    unfold with_timers. fields. by repeat split.
  - (* Unmount *)
    destruct (stopTypingNotification_spec st)
      as (Hl&Hty&Hto&Hti&Hs&Hp&Hse&Hd); [done|by left|].
    unfold invariant. rewrite Hl, Hty, Hto, Hti, Hs, Hp, Hse, Hd.
    by repeat split.
Qed.

Lemma run_invariant (trim : string → string) (events : list Event)
    (st : State) :
  invariant st → invariant (run trim events st).
Proof.
  revert st. induction events as [|e events IH]; intros st Hinv; [done|].
  cbn. apply IH. by apply step_invariant.
Qed.

Lemma step_props (trim : string → string) (e : Event) (st : State) :
  streamId (step trim e st) = streamId st ∧ topic (step trim e st) = topic st.
Proof.
  destruct e; cbn [step];
    unfold handleInput, handleKeydown, sendMessage, timer_fires,
      sendMessage_fulfilled, sendMessage_rejected, dismissError,
      handlePersonaSelect;
    repeat case_match;
    rewrite ?startTypingNotification_eq, ?stopTypingNotification_eq; done.
Qed.

Lemma run_props (trim : string → string) (events : list Event) (st : State) :
  streamId (run trim events st) = streamId st
  ∧ topic (run trim events st) = topic st.
Proof.
  revert st. induction events as [|e events IH]; intros st; [done|].
  change (run trim (e :: events) st) with (run trim events (step trim e st)).
  destruct (IH (step trim e st)) as [-> ->]. apply step_props.
Qed.

(** X19.  Whatever happens to the message box after it is mounted, the
    typing notifications it has sent alternate between "start" and "stop",
    beginning with "start", and [isTyping] tells whether the last one was a
    "start".  At most one timer is set, and while typing is announced the
    timer that ends the announcement is set: when it runs, "stop" is sent
    and no timer is left. *)
Theorem typing_notifications_alternate (trim : string → string)
    (events : list Event) (streamId : Z) (topic : string)
    (activePersonaId : option Z) :
  typing_of false
    (calls (run trim events (mount streamId topic activePersonaId)))
  = Some (isTyping (run trim events (mount streamId topic activePersonaId)))
  ∧ (length (timers (run trim events (mount streamId topic activePersonaId)))
     ≤ 1)%nat
  ∧ (isTyping (run trim events (mount streamId topic activePersonaId)) = true →
     ∃ t, timers (run trim events (mount streamId topic activePersonaId)) = [t]
       ∧ calls (timer_fires t
                  (run trim events (mount streamId topic activePersonaId)))
         = calls (run trim events (mount streamId topic activePersonaId))
           ++ [SendTypingNotification "stop" streamId topic]
       ∧ timers (timer_fires t
                   (run trim events (mount streamId topic activePersonaId)))
         = []).
Proof.
  pose proof (run_invariant trim events _
                (mount_invariant streamId topic activePersonaId))
    as (Hlog&Hlive&Htimer&_).
  destruct (run_props trim events (mount streamId topic activePersonaId))
    as [Hsid Htopic].
  cbn [mount prompter.streamId prompter.topic] in Hsid, Htopic.
  set (st := run trim events (mount streamId topic activePersonaId)) in *.
  split; [done|]. split.
  { rewrite Hlive. destruct (typingTimeout st); cbn; lia. }
  intros Htyping. destruct (Htimer Htyping) as [t Ht]. exists t.
  assert (timers st = [t]) as Hlive' by (by rewrite Hlive, Ht).
  split; [done|].
  unfold timer_fires. rewrite Hlive'.
  rewrite decide_True by apply list_elem_of_here.
  rewrite filter_cons_False by (intros Hne; by apply Hne).
  rewrite stopTypingNotification_eq. unfold with_timers. fields.
  rewrite Htyping, Ht, Hsid, Htopic. by rewrite filter_nil.
Qed.

(** X20.  The message box never has two sends pending: one is pending
    exactly while [isSending] is set, and in that state a click on the send
    button or Enter sends nothing.  No message it has sent has empty
    content, and it has dispatched at most as many [messageSent] events as
    it has sent messages that are no longer pending. *)
Theorem one_send_at_a_time (trim : string → string) (events : list Event)
    (streamId : Z) (topic : string) (activePersonaId : option Z) :
  (pending_sends (run trim events (mount streamId topic activePersonaId))
   ≤ 1)%nat
  ∧ (isSending (run trim events (mount streamId topic activePersonaId)) = true
     ↔ pending_sends (run trim events (mount streamId topic activePersonaId))
       = 1%nat)
  ∧ (isSending (run trim events (mount streamId topic activePersonaId)) = true →
     sendMessage trim (run trim events (mount streamId topic activePersonaId))
     = run trim events (mount streamId topic activePersonaId))
  ∧ (∀ content persona_id,
       (content, persona_id)
       ∈ sent (calls (run trim events
                        (mount streamId topic activePersonaId))) →
       content ≠ "")
  ∧ (length (dispatched (run trim events
                           (mount streamId topic activePersonaId)))
     + pending_sends (run trim events (mount streamId topic activePersonaId))
     ≤ length (sent (calls (run trim events
                              (mount streamId topic activePersonaId)))))%nat.
Proof.
  pose proof (run_invariant trim events _
                (mount_invariant streamId topic activePersonaId))
    as (_&_&_&Hpending&Hsent&Hanswered).
  set (st := run trim events (mount streamId topic activePersonaId)) in *.
  split; [rewrite Hpending; destruct (isSending st); lia|].
  split; [rewrite Hpending; by destruct (isSending st)|].
  split.
  { intros Hsending. unfold sendMessage. rewrite Hsending.
    by rewrite orb_true_r. }
  split; [|done].
  intros content persona_id Hin. rewrite Forall_forall in Hsent.
  apply (Hsent _ Hin).
Qed.

(** A session: blank input announces nothing, text does, Enter stops the
    announcement and sends the trimmed text under the selected persona, and
    the answer empties the box. *)
Example prompter_session :
  let st := run trim_start
              [Input " "; Input " hi"; Keydown "Enter" false; ClickSend;
               Fulfilled 42]
              (mount 5 "scene" (Some 8)) in
  calls st = [SendTypingNotification "start" 5 "scene";
              SendTypingNotification "stop" 5 "scene";
              SendMessage 5 "scene" "hi" (Some 8)]
  ∧ content st = ""
  ∧ dispatched st = [42]
  ∧ isSending st = false
  ∧ timers st = [].
Proof. vm_compute. by repeat split. Qed.

End prompter_facts.
